(** * pdf-compressor: the compression workers, embedded and verified

    The repository ships three variants of the background worker that
    compresses a PDF with pdf-lib:

    - the enhanced worker (header "Enhanced version with aggressive
      compression techniques"), module [Enhanced] below;
    - the module worker [src/workers/pdfCompression.worker.js], the one the
      compression service instantiates, module [Basic] below;
    - the worker that [createPdfCompressionWorker] builds from a string,
      module [Inline] below.

    They are embedded as they are written: the pdf-lib document is an
    explicit store of indirect objects, [catalog.has] / [catalog.delete] are
    reads and in-place updates of that store, a JavaScript exception is a
    [Throw] result that leaves the store as the failing statement found it,
    and [try { ... } catch] is [try_catch].

    What pdf-lib does is modelled as far as the workers use it: which
    objects answer [has], [get] and [delete] (dictionaries, not streams),
    that a null value reads as an absent entry, what [Object.entries] sees
    of a dictionary object, and how [getPages()] walks the page tree.

    Numbers: PDF integers, the quality setting and byte sizes are integers
    ([Z]); the downsampling factor is a binary64 number, multiplied as
    JavaScript multiplies it; the compression ratio is an exact rational
    ([Q]). *)

From Stdlib Require Import QArith Sorted Ascii PrimFloat SpecFloat FloatOps.
From stdpp Require Import gmap strings list fin_maps.
#[local] Set Warnings "-register-all,-inexact-float".
#[local] Open Scope string_scope.
#[local] Open Scope list_scope.

(** ** The object model (what pdf-lib hands to the worker) *)

Inductive PDFObject : Type :=
| PDFNull
| PDFBool (b : bool)
| PDFNumber (n : Z)
| PDFName (s : string)
| PDFString (s : string)
| PDFArray (items : list PDFObject)
| PDFDict (d : gmap string PDFObject)
| PDFStream (d : gmap string PDFObject) (contents : list Byte.byte)
| PDFRef (objectNumber : N).

Abbreviation Dict := (gmap string PDFObject).

(** The receiver of [has], [get] and [delete]: a dictionary. A stream
    carries a dictionary but has none of the three methods; on a stream, on
    any other object and on [undefined] the method call is a TypeError. *)
Definition asDict (o : PDFObject) : option Dict :=
  match o with
  | PDFDict d => Some d
  | _ => None
  end.

(** In-place update of a dictionary object. *)
Definition updDict (f : Dict -> Dict) (o : PDFObject) : PDFObject :=
  match o with
  | PDFDict d => PDFDict (f d)
  | _ => o
  end.

(** [dict.get(key)] of pdf-lib's [PDFDict]: a null value reads as
    [undefined]; [dict.has(key)] is true when [get] finds a value. *)
Definition dictValue (d : Dict) (key : string) : option PDFObject :=
  match d !! key with
  | Some PDFNull => None
  | v => v
  end.

Record TrailerInfo : Type := mkTrailerInfo {
  Root : N;
  Info : option PDFObject
}.

(** What [PDFDocument.load] hands over: [context.indirectObjects] and
    [context.trailerInfo]. The page list is not computed yet. *)
Record PDFContext : Type := mkPDFContext {
  contextObjects : gmap N PDFObject;
  contextTrailer : TrailerInfo
}.

(** [pdfDoc] from its first [getPages()] on: the context, and the array of
    pages that call computed and every later call returns (each page by its
    [ref]). The handlers fill it with [getPageCount()] before the first
    stage runs. *)
Record PDFDocument : Type := mkPDFDocument {
  indirectObjects : gmap N PDFObject;
  trailerInfo : TrailerInfo;
  pages : list N
}.

Definition contextOf (doc : PDFDocument) : PDFContext :=
  mkPDFContext (indirectObjects doc) (trailerInfo doc).

(** [pdfDoc.context.lookup(ref)]: [None] is JavaScript's [undefined]. *)
Definition lookup_ref (doc : PDFDocument) (ref : N) : option PDFObject :=
  indirectObjects doc !! ref.

Definition dictAt (doc : PDFDocument) (ref : N) : option Dict :=
  lookup_ref doc ref ≫= asDict.

Inductive CompressionLevel : Type := low | medium | high.

Record Options : Type := mkOptions {
  quality : Z;
  preserveQuality : bool;
  compressionLevel : CompressionLevel
}.

Definition isHigh (l : CompressionLevel) : bool :=
  match l with high => true | _ => false end.

(** ** Exceptions and mutable state *)

(** An error of the engine ([TypeError], [RangeError]) or one of pdf-lib's
    own ([ProviderError]), with its [message]. *)
Inductive JSError : Type :=
| TypeError (msg : string)
| RangeError (msg : string)
| ProviderError (msg : string).

Definition error_message (e : JSError) : string :=
  match e with TypeError m => m | RangeError m => m | ProviderError m => m end.

Inductive Result (A : Type) : Type :=
| Ok (a : A)
| Throw (e : JSError).
Arguments Ok {A} a.
Arguments Throw {A} e.

(** A computation over a mutable state [S]: the state is returned in both
    cases, since what a statement did before it threw stays done. *)
Definition M (S A : Type) : Type := S -> Result A * S.

#[global] Instance M_ret {S} : MRet (M S) := fun A a s => (Ok a, s).
#[global] Instance M_bind {S} : MBind (M S) := fun A B f m s =>
  match m s with
  | (Ok a, s') => f a s'
  | (Throw e, s') => (Throw e, s')
  end.

Definition getState {S} : M S S := fun s => (Ok s, s).
Definition modify {S} (f : S -> S) : M S unit := fun s => (Ok tt, f s).

(** [try { body } catch (error) { handler }] *)
Definition try_catch {S A} (body : M S A) (handler : JSError -> M S A) : M S A :=
  fun s =>
    match body s with
    | (Ok a, s') => (Ok a, s')
    | (Throw e, s') => handler e s'
    end.

(** [if (c) { body }] for a statement. *)
Definition when_ {S} (c : bool) (body : M S unit) : M S unit :=
  if c then body else mret tt.

(** [for (const x of xs) { body }]; an exception leaves the loop. *)
Fixpoint forEach {S A} (xs : list A) (body : A -> M S unit) : M S unit :=
  match xs with
  | [] => mret tt
  | x :: rest => body x ;; forEach rest body
  end.

(** The same loop, collecting what each iteration reports (ghost output). *)
Fixpoint forEachLog {S A B} (xs : list A) (body : A -> M S (list B)) : M S (list B) :=
  match xs with
  | [] => mret []
  | x :: rest => l ← body x; ls ← forEachLog rest body; mret (l ++ ls)
  end.

(** Relational operators of JavaScript on a dictionary value: a PDF number
    compares by its value; [undefined] and every other object coerce to NaN,
    and every comparison with NaN is false. *)
Definition jsLt (v : option PDFObject) (n : Z) : bool :=
  match v with Some (PDFNumber x) => (x <? n)%Z | _ => false end.

Definition jsGt (v : option PDFObject) (n : Z) : bool :=
  match v with Some (PDFNumber x) => (n <? x)%Z | _ => false end.

(** [v === PDFName.of(name)] *)
Definition isName (v : option PDFObject) (name : string) : bool :=
  match v with Some (PDFName s) => bool_decide (s = name) | _ => false end.

(** ** Dictionary methods on an object of the store

    A JavaScript variable holding [context.lookup(ref)] is modelled by [ref]
    itself: the object behind a reference is only ever mutated, never
    replaced, so reading the store at each method call is what the variable
    sees. The name of the variable is kept for the text of the TypeError,
    worded as V8 words it. *)

Definition undefinedReceiver (property : string) : JSError :=
  TypeError ("Cannot read properties of undefined (reading '" +:+ property +:+ "')").

Definition notAFunction (receiver method : string) : JSError :=
  TypeError (receiver +:+ "." +:+ method +:+ " is not a function").

(** The dictionary a call [receiver.method(...)] works on, or what the call
    throws. *)
Definition receiverAt (receiver method : string) (ref : N) (doc : PDFDocument)
  : Result Dict :=
  match lookup_ref doc ref with
  | Some (PDFDict d) => Ok d
  | Some _ => Throw (notAFunction receiver method)
  | None => Throw (undefinedReceiver method)
  end.

Definition dictHas (receiver : string) (ref : N) (key : string) : M PDFDocument bool :=
  fun doc =>
    match receiverAt receiver "has" ref doc with
    | Ok d => (Ok (bool_decide (is_Some (dictValue d key))), doc)
    | Throw e => (Throw e, doc)
    end.

Definition dictGet (receiver : string) (ref : N) (key : string)
  : M PDFDocument (option PDFObject) :=
  fun doc =>
    match receiverAt receiver "get" ref doc with
    | Ok d => (Ok (dictValue d key), doc)
    | Throw e => (Throw e, doc)
    end.

(** [Object.entries(x.dict)], each entry with its value when that is a PDF
    object. The [dict] field of a dictionary object is a [Map], which has no
    enumerable property of its own; the [dict] field of a stream is a
    dictionary object, whose own fields are its [Map] and its context (and
    two flags when its Type makes it a page leaf); other objects have no
    [dict] field. No field holds a PDF object. *)
Definition dictEntries (ref : N) : M PDFDocument (list (string * option PDFObject)) :=
  fun doc =>
    match lookup_ref doc ref with
    | None => (Throw (undefinedReceiver "dict"), doc)
    | Some (PDFDict _) => (Ok [], doc)
    | Some (PDFStream d _) =>
        (Ok ([("dict", None); ("context", None)]
             ++ if isName (d !! "Type") "Page"
                then [("normalized", None); ("autoNormalizeCTM", None)] else []), doc)
    | Some _ => (Throw (TypeError "Cannot convert undefined or null to object"), doc)
    end.

(** [if (d.has(key)) { d.delete(key); }] on the entries of a dictionary: an
    entry with a null value is not found by [has] and stays. *)
Definition prune (key : string) (d : Dict) : Dict :=
  match d !! key with
  | Some PDFNull => d
  | _ => delete key d
  end.

(** The three in-place edits the workers perform. Each is total: on an
    object that is not there, or not a dictionary, it changes nothing. *)
Inductive Edit : Type :=
| DelKey (ref : N) (key : string)      (* if (dict.has(key)) dict.delete(key)   *)
| ClearInfo                            (* trailerInfo.Info = undefined          *)
| DelEmbedded (ref : N).               (* the inline Names dict: EmbeddedFiles  *)

Definition dropEmbedded (v : PDFObject) : PDFObject :=
  match v with
  | PDFDict names => PDFDict (prune "EmbeddedFiles" names)
  | _ => v
  end.

Definition setObjects (f : gmap N PDFObject -> gmap N PDFObject) (doc : PDFDocument)
  : PDFDocument :=
  mkPDFDocument (f (indirectObjects doc)) (trailerInfo doc) (pages doc).

Definition applyEdit (e : Edit) (doc : PDFDocument) : PDFDocument :=
  match e with
  | DelKey ref key => setObjects (alter (updDict (prune key)) ref) doc
  | ClearInfo =>
      mkPDFDocument (indirectObjects doc)
        (mkTrailerInfo (Root (trailerInfo doc)) None) (pages doc)
  | DelEmbedded ref => setObjects (alter (updDict (alter dropEmbedded "Names")) ref) doc
  end.

Definition applyEdits (es : list Edit) (doc : PDFDocument) : PDFDocument :=
  foldl (fun d e => applyEdit e d) doc es.

(** [dict.delete(key)] *)
Definition dictDelete (receiver : string) (ref : N) (key : string) : M PDFDocument unit :=
  fun doc =>
    match receiverAt receiver "delete" ref doc with
    | Ok _ => (Ok tt, setObjects (alter (updDict (delete key)) ref) doc)
    | Throw e => (Throw e, doc)
    end.

(** [if (dict.has(name)) { dict.delete(name); }] *)
Definition deleteIfPresent (receiver : string) (ref : N) (key : string)
  : M PDFDocument unit :=
  b ← dictHas receiver ref key; when_ b (dictDelete receiver ref key).

(** [pdfDoc.getPages()] on a document whose page list is computed. *)
Definition getPages : M PDFDocument (list N) :=
  fun doc => (Ok (pages doc), doc).

(** [pdfDoc.context.lookup(pdfDoc.context.trailerInfo.Root)] *)
Definition getCatalog : M PDFDocument N :=
  fun doc => (Ok (Root (trailerInfo doc)), doc).

(** [if (trailerInfo.Info) { trailerInfo.Info = undefined; }] *)
Definition removeInfo : M PDFDocument unit :=
  doc ← getState;
  when_ (bool_decide (is_Some (Info (trailerInfo doc)))) (modify (applyEdit ClearInfo)).

(** ** The page tree, as [getPages()] walks it

    pdf-lib's parser makes a dictionary whose Type is Catalog, Pages or Page
    an instance of [PDFCatalog], [PDFPageTree] or [PDFPageLeaf]; the workers
    never touch a Type entry, so the class is read off the entry.
    [getPages()] calls [catalog.Pages().traverse(visitor)], which visits the
    Kids of a tree node in order, descends into the kids that are tree
    nodes, and makes a page of each kid that is a leaf. *)

Definition isClass (d : Dict) (type : string) : bool :=
  isName (d !! "Type") type.

(** The class of an object, by its name in pdf-lib's sources. *)
Definition className (o : PDFObject) : string :=
  match o with
  | PDFNull => "PDFNull"
  | PDFBool _ => "PDFBool"
  | PDFNumber _ => "PDFNumber"
  | PDFName _ => "PDFName"
  | PDFString _ => "PDFString"
  | PDFArray _ => "PDFArray"
  | PDFDict d =>
      if isClass d "Catalog" then "PDFCatalog"
      else if isClass d "Pages" then "PDFPageTree"
      else if isClass d "Page" then "PDFPageLeaf"
      else "PDFDict"
  | PDFStream _ _ => "PDFRawStream"
  | PDFRef _ => "PDFRef"
  end.

(** [context.lookup(value)]: a reference is resolved, another value is
    returned as it is. *)
Definition lookupValue (objects : gmap N PDFObject) (v : PDFObject) : option PDFObject :=
  match v with
  | PDFRef n => objects !! n
  | _ => Some v
  end.

(** [dict.lookup(key, type)] before its type check. *)
Definition lookupEntry (objects : gmap N PDFObject) (d : Dict) (key : string)
  : option PDFObject :=
  dictValue d key ≫= lookupValue objects.

(** [PDFPage.of(leafNode, ref, doc)] asserts that [ref] is a reference; the
    assertion describes a dictionary given in its place as NaN. *)
Definition notAReference : JSError :=
  TypeError "`ref` must be of type `PDFRef`, but was actually of type `NaN`".

Definition stackOverflow : JSError :=
  RangeError "Maximum call stack size exceeded".

(** How many nested calls of [traverse] the engine allows before it throws
    a RangeError; the number is the engine's. *)
Definition callStack : nat := 100 * 100.

Section PageTree.
(** How the build of pdf-lib in use spells a class or an expression of
    pdf-lib's sources: its own errors name classes by [constructor.name],
    and the engine words a failed call with the text of the callee. The
    workers load a minified build, which renames both; property names and
    string literals are kept. *)
Variable builtName : string -> string.

Definition unexpectedObjectType (expected : string) (actual : option PDFObject) : JSError :=
  ProviderError ("Expected instance of " +:+ builtName expected
                 +:+ ", but got instance of "
                 +:+ match actual with
                     | Some o => builtName (className o)
                     | None => "undefined"
                     end).

(** [node.traverse(visitor)] with the visitor of [getPages()]: the pages
    pushed, in order. *)
Fixpoint traverse (depth : nat) (objects : gmap N PDFObject) (node : Dict)
  : Result (list N) :=
  match depth with
  | O => Throw stackOverflow
  | S depth' =>
      match lookupEntry objects node "Kids" with
      | Some (PDFArray kids) =>
          (fix visit (kids : list PDFObject) : Result (list N) :=
             match kids with
             | [] => Ok []
             | kidRef :: rest =>
                 match
                   match lookupValue objects kidRef with
                   | Some (PDFDict kid) =>
                       if isClass kid "Pages" then traverse depth' objects kid
                       else if isClass kid "Page" then
                         match kidRef with
                         | PDFRef ref => Ok [ref]
                         | _ => Throw notAReference
                         end
                       else Ok []
                   | _ => Ok []
                   end
                 with
                 | Throw e => Throw e
                 | Ok here =>
                     match visit rest with
                     | Ok more => Ok (here ++ more)
                     | Throw e => Throw e
                     end
                 end
             end) kids
      | other => Throw (unexpectedObjectType "PDFArray" other)
      end
  end.

(** The first [pdfDoc.getPages()]: [this.catalog.Pages().traverse(...)]. *)
Definition computePages (ctx : PDFContext) : Result (list N) :=
  match contextObjects ctx !! Root (contextTrailer ctx) with
  | None => Throw (undefinedReceiver "Pages")
  | Some (PDFDict catalog) =>
      if isClass catalog "Catalog" then
        match lookupEntry (contextObjects ctx) catalog "Pages" with
        | Some (PDFDict tree) =>
            if isClass tree "Pages" then traverse callStack (contextObjects ctx) tree
            else Throw (notAFunction (builtName "this.catalog.Pages(...)") "traverse")
        | other => Throw (unexpectedObjectType "PDFDict" other)
        end
      else Throw (notAFunction (builtName "this.catalog") "Pages")
  | Some _ => Throw (notAFunction (builtName "this.catalog") "Pages")
  end.

(** [pdfDoc.getPageCount()] on the document [PDFDocument.load] returned:
    the page list is computed and kept. The count itself is not used by any
    handler. *)
Definition getPageCount (ctx : PDFContext) : Result PDFDocument :=
  match computePages ctx with
  | Ok ps => Ok (mkPDFDocument (contextObjects ctx) (contextTrailer ctx) ps)
  | Throw e => Throw e
  end.
End PageTree.

(** ** The host boundary: messages posted by a worker *)

Inductive Message (Bytes : Type) : Type :=
| Progress (progress : Z) (message : string)
| Complete (compressedFile : Bytes) (originalSize compressedSize : Z)
           (compressionRatio : Q)
| Error (message : string).
Arguments Progress {Bytes} progress message.
Arguments Complete {Bytes} compressedFile originalSize compressedSize compressionRatio.
Arguments Error {Bytes} message.

Record SaveOptions : Type := mkSaveOptions {
  useObjectStreams : bool;
  addDefaultPage : bool;
  updateFieldAppearances : option bool;
  compress : option bool;
  objectsPerTick : option Z
}.

(** [self.postMessage(m)]: the outbox is the list of messages in the order
    they were posted. *)
Definition postMessage {Bytes} (m : Message Bytes) : M (list (Message Bytes)) unit :=
  modify (fun outbox => outbox ++ [m]).

Definition reportProgress {Bytes} (percent : Z) (message : string)
  : M (list (Message Bytes)) unit :=
  postMessage (Progress percent message).

(** [await stage(pdfDoc, ...)] inside the handler: the stage runs on the
    document; what it throws is thrown in the handler. *)
Definition await {Bytes A} (stage : M PDFDocument A) (pdfDoc : PDFDocument)
  : M (list (Message Bytes)) PDFDocument :=
  fun outbox =>
    match stage pdfDoc with
    | (Ok _, pdfDoc') => (Ok pdfDoc', outbox)
    | (Throw e, _) => (Throw e, outbox)
    end.

Definition awaitResult {S A} (r : Result A) : M S A := fun s => (r, s).

(** [error.message || 'Failed to compress PDF. Please try again.'] *)
Definition errorText (e : JSError) : string :=
  if bool_decide (error_message e = "") then "Failed to compress PDF. Please try again."
  else error_message e.

(** [(originalSize - compressedSize) / originalSize] *)
Definition compressionRatioOf (originalSize compressedSize : Z) : Q :=
  (inject_Z originalSize - inject_Z compressedSize) / inject_Z originalSize.

(** The progress values of an outbox, in the order they were posted. *)
Definition progressOf {Bytes} (m : Message Bytes) : option Z :=
  match m with Progress p _ => Some p | _ => None end.

Definition progressValues {Bytes} (outbox : list (Message Bytes)) : list Z :=
  omap progressOf outbox.

(** ** The enhanced worker *)

Module Enhanced.

Definition unnecessaryEntries : list string :=
  ["PageLabels"; "Names"; "Dests"; "ViewerPreferences";
   "PageLayout"; "PageMode"; "Threads"; "OpenAction"].

Definition removeMetadata : M PDFDocument unit :=
  try_catch
    (catalog ← getCatalog;
     deleteIfPresent "catalog" catalog "Metadata";;
     removeInfo;;
     deleteIfPresent "catalog" catalog "MarkInfo";;
     deleteIfPresent "catalog" catalog "Outlines";;
     pages ← getPages;
     forEach pages (fun page => deleteIfPresent "dict" page "Thumb");;
     forEach unnecessaryEntries (fun entry => deleteIfPresent "catalog" catalog entry))
    (fun error => mret tt).

Definition pageEntriesToRemove : list string :=
  ["Dur"; "Trans"; "AA"; "StructParents"; "PZ"; "SeparationInfo";
   "Group"; "Tabs"; "TemplateInstantiated"; "PresSteps"; "UserUnit"].

(** [resources] may be [undefined] or a stream: the TypeError only comes
    with the first method call on it. *)
Definition optimizeResourcesDictionary (resources : N) (options : Options)
  : M PDFDocument unit :=
  when_ (isHigh (compressionLevel options) && negb (preserveQuality options))
    (deleteIfPresent "resources" resources "ProcSet").

Definition optimizePage (options : Options) (page : N) : M PDFDocument unit :=
  when_ (isHigh (compressionLevel options))
    (when_ (negb (preserveQuality options)) (deleteIfPresent "dict" page "Annots");;
     forEach pageEntriesToRemove (fun entry => deleteIfPresent "dict" page entry));;
  hasResources ← dictHas "dict" page "Resources";
  when_ hasResources
    (resourcesRef ← dictGet "dict" page "Resources";
     match resourcesRef with
     | Some (PDFRef resources) => optimizeResourcesDictionary resources options
     | _ => mret tt
     end).

Definition optimizeContentStreams (options : Options) : M PDFDocument unit :=
  try_catch
    (pages ← getPages; forEach pages (optimizePage options))
    (fun error => mret tt).

(** The value of the local [downsampleFactor] once both multipliers have
    been applied: binary64, as the engine computes it. *)
Definition downsampleFactor (width height : option PDFObject) (options : Options)
  : float :=
  let factor :=
    match compressionLevel options with
    | low => if (80 <? quality options)%Z then 1 else 0.9
    | medium => if (60 <? quality options)%Z then 0.8 else 0.7
    | high => if (40 <? quality options)%Z then 0.6 else 0.5
    end%float in
  let factor :=
    if jsGt width 1000 || jsGt height 1000 then (factor * 0.8)%float else factor in
  let factor :=
    if isHigh (compressionLevel options) && (quality options <? 30)%Z
    then (factor * 0.7)%float else factor in
  factor.

(** The function returns nothing; the result here is ghost: [None] when it
    returned at one of the two early exits, [Some f] with the final value of
    [downsampleFactor] when it ran to its end. *)
Definition processImageXObject (imageObj : N) (options : Options)
  : M PDFDocument (option float) :=
  hasWidth ← dictHas "imageObj" imageObj "Width";
  if negb hasWidth then mret None else
  hasHeight ← dictHas "imageObj" imageObj "Height";
  if negb hasHeight then mret None else
  width ← dictGet "imageObj" imageObj "Width";
  height ← dictGet "imageObj" imageObj "Height";
  if jsLt width 100 || jsLt height 100 then mret None else
  let factor := downsampleFactor width height options in
  hasFilter ← dictHas "imageObj" imageObj "Filter";
  when_ hasFilter
    (filter ← dictGet "imageObj" imageObj "Filter";
     if isName filter "JPXDecode" && isHigh (compressionLevel options)
     then mret tt   (* placeholder: nothing is done *)
     else mret tt);;
  mret (Some factor).

(** One entry of [Object.entries(xObject.dict)]; reports the image it
    inspected. *)
Definition processXObjectEntry (options : Options) (entry : string * option PDFObject)
  : M PDFDocument (list (N * option float)) :=
  match entry.2 with
  | Some (PDFRef obj) =>
      hasSubtype ← dictHas "obj" obj "Subtype";
      subtype ← (if hasSubtype then dictGet "obj" obj "Subtype" else mret None);
      if hasSubtype && isName subtype "Image"
      then r ← processImageXObject obj options; mret [(obj, r)]
      else mret []
  | _ => mret []
  end.

(** The body of the page loop of [processImages]. *)
Definition processPageImages (options : Options) (page : N)
  : M PDFDocument (list (N * option float)) :=
  hasResources ← dictHas "dict" page "Resources";
  if negb hasResources then mret [] else
  resourcesRef ← dictGet "dict" page "Resources";
  match resourcesRef with
  | Some (PDFRef resources) =>
      hasXObject ← dictHas "resources" resources "XObject";
      if negb hasXObject then mret [] else
      xObjectRef ← dictGet "resources" resources "XObject";
      match xObjectRef with
      | Some (PDFRef xObject) =>
          entries ← dictEntries xObject;
          forEachLog entries (processXObjectEntry options)
      | _ => mret []
      end
  | _ => mret []
  end.

Definition processImages (options : Options)
  : M PDFDocument (list (N * option float)) :=
  try_catch
    (pages ← getPages; forEachLog pages (processPageImages options))
    (fun error => mret []).

Definition optimizeDocumentStructure (options : Options) : M PDFDocument unit :=
  try_catch
    (catalog ← getCatalog;
     when_ (isHigh (compressionLevel options))
       (deleteIfPresent "catalog" catalog "StructTreeRoot");;
     when_ (isHigh (compressionLevel options))
       (deleteIfPresent "catalog" catalog "OCProperties");;
     hasNames ← dictHas "catalog" catalog "Names";
     when_ hasNames
       (namesDict ← dictGet "catalog" catalog "Names";
        match namesDict with
        | Some (PDFDict names) =>
            when_ (bool_decide (is_Some (dictValue names "EmbeddedFiles")))
              (modify (applyEdit (DelEmbedded catalog)))
        | _ => mret tt
        end))
    (fun error => mret tt).

Definition saveOptions (options : Options) : SaveOptions :=
  mkSaveOptions true false (Some false) (Some true)
    (Some match compressionLevel options with
          | low => 50 | medium => 100 | high => 200
          end%Z).

Section Worker.
(** The Object Model Provider: parsing and serialising are pdf-lib's. *)
Context {Bytes : Type}.
Variable builtName : string -> string.
Variable byteLength : Bytes -> Z.
Variable load : Bytes -> Result PDFContext.
Variable save : PDFDocument -> SaveOptions -> Result Bytes.

Definition savePdfWithOptions (pdfDoc : PDFDocument) (options : Options)
  : M (list (Message Bytes)) Bytes :=
  awaitResult (save pdfDoc (saveOptions options)).

Definition onmessage_body (file : Bytes) (options : Options)
  : M (list (Message Bytes)) unit :=
  reportProgress 5 "Loading PDF document...";;
  pdfDoc ← awaitResult (load file);
  reportProgress 10 "Analyzing document structure...";;
  pdfDoc ← awaitResult (getPageCount builtName pdfDoc);
  let originalSize := byteLength file in
  reportProgress 15 "Removing unnecessary metadata...";;
  pdfDoc ← await removeMetadata pdfDoc;
  reportProgress 25 "Optimizing content streams...";;
  pdfDoc ← await (optimizeContentStreams options) pdfDoc;
  reportProgress 40 "Processing embedded images...";;
  pdfDoc ← await (processImages options) pdfDoc;
  reportProgress 70 "Optimizing document structure...";;
  pdfDoc ← await (optimizeDocumentStructure options) pdfDoc;
  reportProgress 85 "Finalizing compressed document...";;
  compressedPdfBytes ← savePdfWithOptions pdfDoc options;
  let compressedSize := byteLength compressedPdfBytes in
  reportProgress 100 "Compression complete!";;
  postMessage (Complete compressedPdfBytes originalSize compressedSize
                 (compressionRatioOf originalSize compressedSize)).

(** The handler; its result is the outbox of the request. *)
Definition onmessage (file : Bytes) (options : Options) : list (Message Bytes) :=
  (try_catch (onmessage_body file options)
     (fun error => postMessage (Error (errorText error))) []).2.
End Worker.

End Enhanced.

(** ** The module worker, [src/workers/pdfCompression.worker.js]

    Receivers are named as the source names them; a bundler may rename
    them. *)

Module Basic.

(** No handler of its own: what a method call throws leaves the function. *)
Definition removeMetadata : M PDFDocument unit :=
  catalog ← getCatalog;
  deleteIfPresent "catalog" catalog "Metadata";;
  removeInfo.

Definition optimizeContentStreams (options : Options) : M PDFDocument unit :=
  mret tt.

Definition processImages (options : Options) : M PDFDocument unit :=
  mret tt.

Definition mediumOrHigh (l : CompressionLevel) : bool :=
  match l with low => false | _ => true end.

Definition removeUnnecessaryObjects (options : Options) : M PDFDocument unit :=
  when_ (mediumOrHigh (compressionLevel options))
    (pages ← getPages;
     forEach pages (fun page =>
       deleteIfPresent "dict" page "Thumb";;
       when_ (isHigh (compressionLevel options) && negb (preserveQuality options))
         (deleteIfPresent "dict" page "Annots"))).

Definition saveOptions (options : Options) : SaveOptions :=
  if isHigh (compressionLevel options)
  then mkSaveOptions true false (Some false) (Some true) (Some 100%Z)
  else mkSaveOptions true false (Some false) None None.

Section Worker.
Context {Bytes : Type}.
Variable builtName : string -> string.
Variable byteLength : Bytes -> Z.
Variable load : Bytes -> Result PDFContext.
Variable save : PDFDocument -> SaveOptions -> Result Bytes.

Definition savePdfWithOptions (pdfDoc : PDFDocument) (options : Options)
  : M (list (Message Bytes)) Bytes :=
  awaitResult (save pdfDoc (saveOptions options)).

Definition onmessage_body (file : Bytes) (options : Options)
  : M (list (Message Bytes)) unit :=
  reportProgress 10 "Loading PDF document...";;
  pdfDoc ← awaitResult (load file);
  reportProgress 20 "Analyzing document structure...";;
  pdfDoc ← awaitResult (getPageCount builtName pdfDoc);
  let originalSize := byteLength file in
  reportProgress 30 "Applying compression strategies...";;
  pdfDoc ← (if isHigh (compressionLevel options)
            then pdfDoc ← await removeMetadata pdfDoc;
                 reportProgress 35 "Removed unnecessary metadata...";;
                 mret pdfDoc
            else mret pdfDoc);
  pdfDoc ← await (optimizeContentStreams options) pdfDoc;
  reportProgress 50 "Optimized content streams...";;
  pdfDoc ← await (processImages options) pdfDoc;
  reportProgress 70 "Processed images...";;
  pdfDoc ← await (removeUnnecessaryObjects options) pdfDoc;
  reportProgress 80 "Removed unnecessary objects...";;
  reportProgress 90 "Finalizing compressed document...";;
  compressedPdfBytes ← savePdfWithOptions pdfDoc options;
  let compressedSize := byteLength compressedPdfBytes in
  reportProgress 100 "Compression complete!";;
  postMessage (Complete compressedPdfBytes originalSize compressedSize
                 (compressionRatioOf originalSize compressedSize)).

Definition onmessage (file : Bytes) (options : Options) : list (Message Bytes) :=
  (try_catch (onmessage_body file options)
     (fun error => postMessage (Error (errorText error))) []).2.
End Worker.

End Basic.

(** ** The inline worker of [createPdfCompressionWorker] (no stage at all) *)

Module Inline.

Definition saveOptions : SaveOptions :=
  mkSaveOptions true false None (Some true) None.

Section Worker.
Context {Bytes : Type}.
Variable builtName : string -> string.
Variable byteLength : Bytes -> Z.
Variable load : Bytes -> Result PDFContext.
Variable save : PDFDocument -> SaveOptions -> Result Bytes.

Definition onmessage_body (file : Bytes) (options : Options)
  : M (list (Message Bytes)) unit :=
  reportProgress 10 "Loading PDF document...";;
  pdfDoc ← awaitResult (load file);
  reportProgress 20 "Analyzing document structure...";;
  pdfDoc ← awaitResult (getPageCount builtName pdfDoc);
  let originalSize := byteLength file in
  reportProgress 50 "Applying compression strategies...";;
  compressedPdfBytes ← awaitResult (save pdfDoc saveOptions);
  let compressedSize := byteLength compressedPdfBytes in
  reportProgress 100 "Compression complete!";;
  postMessage (Complete compressedPdfBytes originalSize compressedSize
                 (compressionRatioOf originalSize compressedSize)).

Definition onmessage (file : Bytes) (options : Options) : list (Message Bytes) :=
  (try_catch (onmessage_body file options)
     (fun error => postMessage (Error (errorText error))) []).2.
End Worker.

End Inline.

(** * Verification *)

(** ** Running the monad *)

Lemma bind_run {S A B} (m : M S A) (f : A -> M S B) (s : S) :
  (m ≫= f) s = match m s with
               | (Ok a, s') => f a s'
               | (Throw e, s') => (Throw e, s')
               end.
Proof. reflexivity. Qed.

Lemma try_catch_run {S A} (body : M S A) (handler : JSError -> M S A) (s : S) :
  try_catch body handler s = match body s with
                             | (Ok a, s') => (Ok a, s')
                             | (Throw e, s') => handler e s'
                             end.
Proof. reflexivity. Qed.

Definition isOk {A} (r : Result A) : bool :=
  match r with Ok _ => true | Throw _ => false end.

(** ** Receivers *)

Lemma receiverAt_dict (receiver method : string) (r : N) (doc : PDFDocument) (d : Dict) :
  dictAt doc r = Some d -> receiverAt receiver method r doc = Ok d.
Proof.
  unfold dictAt, receiverAt. destruct (lookup_ref doc r) as [[]|]; simpl; congruence.
Qed.

Lemma receiverAt_throw (receiver method : string) (r : N) (doc : PDFDocument) :
  dictAt doc r = None -> exists e, receiverAt receiver method r doc = Throw e.
Proof.
  unfold dictAt, receiverAt. destruct (lookup_ref doc r) as [[]|]; simpl; try done; eauto.
Qed.

(** Either the receiver is a dictionary, or the call throws. *)
Lemma receiverAt_cases (receiver method : string) (r : N) (doc : PDFDocument) :
  (exists d, dictAt doc r = Some d /\ receiverAt receiver method r doc = Ok d)
  \/ (dictAt doc r = None /\ exists e, receiverAt receiver method r doc = Throw e).
Proof.
  destruct (dictAt doc r) as [d|] eqn:Hd.
  - left. exists d. split; [done|]. by apply receiverAt_dict.
  - right. split; [done|]. by apply receiverAt_throw.
Qed.

Lemma dictHas_run (rc : string) (doc : PDFDocument) (r : N) (key : string) (d : Dict) :
  dictAt doc r = Some d ->
  dictHas rc r key doc = (Ok (bool_decide (is_Some (dictValue d key))), doc).
Proof. intros Hd. unfold dictHas. by rewrite (receiverAt_dict _ _ _ _ _ Hd). Qed.

Lemma dictHas_throw (rc : string) (doc : PDFDocument) (r : N) (key : string) :
  dictAt doc r = None -> exists e, dictHas rc r key doc = (Throw e, doc).
Proof.
  intros Hd. unfold dictHas. destruct (receiverAt_throw rc "has" _ _ Hd) as [e ->]. eauto.
Qed.

Lemma dictGet_run (rc : string) (doc : PDFDocument) (r : N) (key : string) (d : Dict) :
  dictAt doc r = Some d -> dictGet rc r key doc = (Ok (dictValue d key), doc).
Proof. intros Hd. unfold dictGet. by rewrite (receiverAt_dict _ _ _ _ _ Hd). Qed.

Lemma dictDelete_run (rc : string) (doc : PDFDocument) (r : N) (key : string) (d : Dict) :
  dictAt doc r = Some d ->
  dictDelete rc r key doc = (Ok tt, setObjects (alter (updDict (delete key)) r) doc).
Proof. intros Hd. unfold dictDelete. by rewrite (receiverAt_dict _ _ _ _ _ Hd). Qed.

Lemma dictHas_Some (rc : string) (doc : PDFDocument) (r : N) (key : string) (d : Dict)
    (v : PDFObject) :
  dictAt doc r = Some d -> dictValue d key = Some v -> dictHas rc r key doc = (Ok true, doc).
Proof.
  intros Hd Hv. rewrite (dictHas_run _ _ _ _ _ Hd), Hv. by rewrite bool_decide_eq_true_2.
Qed.

Lemma dictHas_None (rc : string) (doc : PDFDocument) (r : N) (key : string) (d : Dict) :
  dictAt doc r = Some d -> dictValue d key = None -> dictHas rc r key doc = (Ok false, doc).
Proof.
  intros Hd Hv. rewrite (dictHas_run _ _ _ _ _ Hd), Hv.
  rewrite bool_decide_eq_false_2; [done|]. by intros [].
Qed.

(** ** Entries with a null value *)

Lemma dictValue_Some (d : Dict) (key : string) (v : PDFObject) :
  dictValue d key = Some v -> d !! key = Some v /\ v ≠ PDFNull.
Proof. unfold dictValue. destruct (d !! key) as [[]|]; naive_solver. Qed.

Lemma dictValue_raw (d : Dict) (key : string) (v : PDFObject) :
  d !! key = Some v -> v ≠ PDFNull -> dictValue d key = Some v.
Proof. unfold dictValue. intros -> ?. by destruct v. Qed.

Lemma dictValue_absent (d : Dict) (key : string) :
  d !! key = None -> dictValue d key = None.
Proof. unfold dictValue. by intros ->. Qed.

Lemma prune_present (key : string) (d : Dict) :
  is_Some (dictValue d key) -> prune key d = delete key d.
Proof. unfold prune, dictValue. destruct (d !! key) as [[]|]; by intros []. Qed.

Lemma prune_absent (key : string) (d : Dict) :
  dictValue d key = None -> prune key d = d.
Proof.
  unfold prune, dictValue. destruct (d !! key) as [[]|] eqn:E; try done.
  intros _. by apply delete_id.
Qed.

Lemma prune_lookup_ne (key k : string) (d : Dict) :
  k ≠ key -> prune key d !! k = d !! k.
Proof.
  intros Hk. unfold prune. destruct (d !! key) as [[]|]; try done;
    by apply lookup_delete_ne.
Qed.

Lemma prune_lookup_None (key k : string) (d : Dict) :
  d !! k = None -> prune key d !! k = None.
Proof.
  intros Hk. unfold prune. destruct (d !! key) as [[]|]; try done;
    apply lookup_delete_None; auto.
Qed.

Lemma prune_lookup_Some (key k : string) (d : Dict) (v : PDFObject) :
  prune key d !! k = Some v -> d !! k = Some v.
Proof.
  unfold prune. destruct (d !! key) as [[]|]; try done;
    intros [_ H]%lookup_delete_Some; done.
Qed.

Lemma dictValue_prune_eq (key : string) (d : Dict) : dictValue (prune key d) key = None.
Proof.
  unfold dictValue, prune. destruct (d !! key) as [[]|] eqn:E;
    rewrite ?lookup_delete_eq, ?E; done.
Qed.

Lemma dictValue_prune_ne (key k : string) (d : Dict) :
  k ≠ key -> dictValue (prune key d) k = dictValue d k.
Proof. intros Hk. unfold dictValue. by rewrite prune_lookup_ne. Qed.

Lemma dictValue_prune_None (key k : string) (d : Dict) :
  dictValue d k = None -> dictValue (prune key d) k = None.
Proof.
  destruct (decide (k = key)) as [->|Hk].
  - intros _. apply dictValue_prune_eq.
  - by rewrite dictValue_prune_ne.
Qed.

Lemma prune_idemp (key : string) (d : Dict) : prune key (prune key d) = prune key d.
Proof. apply prune_absent, dictValue_prune_eq. Qed.

Lemma prune_comm (k1 k2 : string) (d : Dict) :
  prune k1 (prune k2 d) = prune k2 (prune k1 d).
Proof.
  destruct (decide (k1 = k2)) as [->|Hk]; [done|].
  destruct (dictValue d k1) as [v1|] eqn:E1, (dictValue d k2) as [v2|] eqn:E2.
  - rewrite (prune_present k2 d), (prune_present k1 d) by eauto.
    rewrite !prune_present; [apply delete_delete| |].
    + rewrite <- (prune_present k1 d) by eauto. rewrite dictValue_prune_ne by done. eauto.
    + rewrite <- (prune_present k2 d) by eauto. rewrite dictValue_prune_ne by done. eauto.
  - rewrite (prune_absent k2 d) by done.
    rewrite (prune_absent k2 (prune k1 d)); [done|]. by apply dictValue_prune_None.
  - rewrite (prune_absent k1 d) by done.
    rewrite (prune_absent k1 (prune k2 d)); [done|]. by apply dictValue_prune_None.
  - by rewrite !prune_absent by (done || by apply dictValue_prune_None).
Qed.

Lemma dropEmbedded_null (v : PDFObject) : dropEmbedded v = PDFNull <-> v = PDFNull.
Proof. by destruct v. Qed.

Lemma dictValue_alter_dropEmbedded (d : Dict) (k : string) :
  dictValue (alter dropEmbedded "Names" d) k
  = (if decide (k = "Names") then fmap dropEmbedded else id) (dictValue d k).
Proof.
  unfold dictValue. destruct (decide (k = "Names")) as [->|Hk].
  - rewrite lookup_alter_eq. by destruct (d !! "Names") as [[]|].
  - by rewrite lookup_alter_ne.
Qed.

Lemma prune_alter_dropEmbedded (k : string) (d : Dict) :
  prune k (alter dropEmbedded "Names" d) = alter dropEmbedded "Names" (prune k d).
Proof.
  destruct (dictValue d k) as [v|] eqn:E.
  - rewrite (prune_present k d) by eauto. rewrite prune_present.
    + destruct (decide (k = "Names")) as [->|Hk].
      * by rewrite delete_alter_eq, alter_delete_eq.
      * by rewrite delete_alter_ne.
    + rewrite dictValue_alter_dropEmbedded, E. by destruct (decide _).
  - rewrite (prune_absent k d) by done. apply prune_absent.
    rewrite dictValue_alter_dropEmbedded, E. by destruct (decide _).
Qed.

(** ** The algebra of edits *)

(** What an edit does to the dictionary of the object behind [r]. *)
Definition editDict (e : Edit) (r : N) : Dict -> Dict :=
  match e with
  | DelKey ref key => if decide (ref = r) then prune key else id
  | ClearInfo => id
  | DelEmbedded ref => if decide (ref = r) then alter dropEmbedded "Names" else id
  end.

Definition isClearInfo (e : Edit) : bool :=
  match e with ClearInfo => true | _ => false end.

Lemma updDict_id (o : PDFObject) : updDict id o = o.
Proof. by destruct o. Qed.

Lemma updDict_compose (f g : Dict -> Dict) (o : PDFObject) :
  updDict f (updDict g o) = updDict (f ∘ g) o.
Proof. by destruct o. Qed.

Lemma updDict_ext (f g : Dict -> Dict) (o : PDFObject) :
  (forall d, f d = g d) -> updDict f o = updDict g o.
Proof. intros H. destruct o; simpl; by rewrite ?H. Qed.

Lemma asDict_updDict (f : Dict -> Dict) (o : PDFObject) :
  asDict (updDict f o) = f <$> asDict o.
Proof. by destruct o. Qed.

Lemma doc_eq (doc doc' : PDFDocument) :
  indirectObjects doc = indirectObjects doc' ->
  trailerInfo doc = trailerInfo doc' ->
  pages doc = pages doc' ->
  doc = doc'.
Proof. destruct doc, doc'; simpl; congruence. Qed.

Lemma lookup_applyEdit (e : Edit) (doc : PDFDocument) (r : N) :
  indirectObjects (applyEdit e doc) !! r
  = updDict (editDict e r) <$> indirectObjects doc !! r.
Proof.
  destruct e as [ref key| |ref]; simpl.
  - rewrite lookup_alter. destruct (decide (ref = r)) as [->|]; [done|].
    destruct (indirectObjects doc !! r); simpl; by rewrite ?updDict_id.
  - destruct (indirectObjects doc !! r); simpl; by rewrite ?updDict_id.
  - rewrite lookup_alter. destruct (decide (ref = r)) as [->|]; [done|].
    destruct (indirectObjects doc !! r); simpl; by rewrite ?updDict_id.
Qed.

Lemma pages_applyEdit (e : Edit) (doc : PDFDocument) :
  pages (applyEdit e doc) = pages doc.
Proof. by destruct e. Qed.

Lemma Root_applyEdit (e : Edit) (doc : PDFDocument) :
  Root (trailerInfo (applyEdit e doc)) = Root (trailerInfo doc).
Proof. by destruct e. Qed.

Lemma Info_applyEdit (e : Edit) (doc : PDFDocument) :
  Info (trailerInfo (applyEdit e doc))
  = if isClearInfo e then None else Info (trailerInfo doc).
Proof. by destruct e. Qed.

Lemma trailerInfo_eq (t t' : TrailerInfo) :
  Root t = Root t' -> Info t = Info t' -> t = t'.
Proof. destruct t, t'; simpl; congruence. Qed.

Lemma dropEmbedded_idemp (v : PDFObject) : dropEmbedded (dropEmbedded v) = dropEmbedded v.
Proof. destruct v; simpl; try done. by rewrite prune_idemp. Qed.

Lemma editDict_idemp (e : Edit) (r : N) (d : Dict) :
  editDict e r (editDict e r d) = editDict e r d.
Proof.
  destruct e as [ref key| |ref]; simpl; try done;
    destruct (decide (ref = r)); try done.
  - apply prune_idemp.
  - rewrite alter_alter_eq. apply alter_ext. intros. apply dropEmbedded_idemp.
Qed.

Lemma editDict_comm (e1 e2 : Edit) (r : N) (d : Dict) :
  editDict e1 r (editDict e2 r d) = editDict e2 r (editDict e1 r d).
Proof.
  destruct e1 as [r1 k1| |r1], e2 as [r2 k2| |r2]; simpl; try done;
    destruct (decide (r1 = r)), (decide (r2 = r)); try done.
  - apply prune_comm.
  - apply prune_alter_dropEmbedded.
  - symmetry. apply prune_alter_dropEmbedded.
Qed.

Lemma applyEdit_idemp (e : Edit) (doc : PDFDocument) :
  applyEdit e (applyEdit e doc) = applyEdit e doc.
Proof.
  apply doc_eq.
  - apply map_eq. intros r. rewrite !lookup_applyEdit.
    destruct (indirectObjects doc !! r) as [o|]; simpl; [|done].
    rewrite updDict_compose. f_equal. apply updDict_ext. intros d. apply editDict_idemp.
  - apply trailerInfo_eq; rewrite ?Root_applyEdit, ?Info_applyEdit; [done|].
    by destruct (isClearInfo e).
  - by rewrite !pages_applyEdit.
Qed.

Lemma applyEdit_comm (e1 e2 : Edit) (doc : PDFDocument) :
  applyEdit e1 (applyEdit e2 doc) = applyEdit e2 (applyEdit e1 doc).
Proof.
  apply doc_eq.
  - apply map_eq. intros r. rewrite !lookup_applyEdit.
    destruct (indirectObjects doc !! r) as [o|]; simpl; [|done].
    rewrite !updDict_compose. f_equal. apply updDict_ext. intros d. apply editDict_comm.
  - apply trailerInfo_eq; rewrite ?Root_applyEdit, ?Info_applyEdit; [done|].
    by destruct (isClearInfo e1), (isClearInfo e2).
  - by rewrite !pages_applyEdit.
Qed.

Lemma applyEdits_app (es1 es2 : list Edit) (doc : PDFDocument) :
  applyEdits (es1 ++ es2) doc = applyEdits es2 (applyEdits es1 doc).
Proof. apply foldl_app. Qed.

Lemma applyEdits_comm (e : Edit) (es : list Edit) (doc : PDFDocument) :
  applyEdits es (applyEdit e doc) = applyEdit e (applyEdits es doc).
Proof.
  revert doc. induction es as [|e' es IH]; intros doc; simpl; [done|].
  by rewrite <- IH, applyEdit_comm.
Qed.

(** Running a list of edits a second time changes nothing. *)
Lemma applyEdits_twice (es : list Edit) (doc : PDFDocument) :
  applyEdits es (applyEdits es doc) = applyEdits es doc.
Proof.
  revert doc. induction es as [|e es IH]; intros doc; simpl; [done|].
  rewrite <- (applyEdits_comm e es (applyEdit e doc)), applyEdit_idemp.
  apply IH.
Qed.

(** ** What the control flow of the stages reads

    Which statements a stage runs depends on the document only through the
    root reference, the page list, which references resolve to a dictionary,
    and the [Resources] entries. No edit of the workers changes any of these
    ([safeEdit]), so a stage makes the same decisions before and after any
    other stage. *)

(** The entry as the dictionary stores it, and as [get] reads it. *)
Definition entryAt (doc : PDFDocument) (ref : N) (key : string) : option PDFObject :=
  dictAt doc ref ≫= (fun d => d !! key).

Definition valueAt (doc : PDFDocument) (ref : N) (key : string) : option PDFObject :=
  dictAt doc ref ≫= (fun d => dictValue d key).

Definition isDictAt (doc : PDFDocument) (ref : N) : bool :=
  match dictAt doc ref with Some _ => true | None => false end.

Definition safeEdit (e : Edit) : Prop :=
  match e with DelKey _ key => key ≠ "Resources" | _ => True end.

Record sameShape (doc doc' : PDFDocument) : Prop := mkSameShape {
  shape_root : Root (trailerInfo doc) = Root (trailerInfo doc');
  shape_pages : pages doc = pages doc';
  shape_dict : forall r, isDictAt doc r = isDictAt doc' r;
  shape_resources : forall r, entryAt doc r "Resources" = entryAt doc' r "Resources"
}.

Lemma valueAt_entryAt (doc : PDFDocument) (r : N) (key : string) :
  valueAt doc r key = match entryAt doc r key with Some PDFNull => None | v => v end.
Proof. unfold valueAt, entryAt. by destruct (dictAt doc r). Qed.

Lemma valueAt_Some (doc : PDFDocument) (r : N) (key : string) (v : PDFObject) :
  valueAt doc r key = Some v -> entryAt doc r key = Some v.
Proof.
  unfold valueAt, entryAt. destruct (dictAt doc r) as [d|]; simpl; [|done].
  by intros [? _]%dictValue_Some.
Qed.

Lemma shape_value (doc doc' : PDFDocument) (r : N) :
  sameShape doc doc' -> valueAt doc r "Resources" = valueAt doc' r "Resources".
Proof. intros Hs. by rewrite !valueAt_entryAt, (shape_resources _ _ Hs). Qed.

Lemma dictAt_applyEdit (e : Edit) (doc : PDFDocument) (r : N) :
  dictAt (applyEdit e doc) r = editDict e r <$> dictAt doc r.
Proof.
  unfold dictAt, lookup_ref. rewrite lookup_applyEdit.
  destruct (indirectObjects doc !! r) as [o|]; simpl; [|done].
  apply asDict_updDict.
Qed.

Lemma isDictAt_applyEdit (e : Edit) (doc : PDFDocument) (r : N) :
  isDictAt (applyEdit e doc) r = isDictAt doc r.
Proof. unfold isDictAt. rewrite dictAt_applyEdit. by destruct (dictAt doc r). Qed.

Lemma isDictAt_applyEdits (es : list Edit) (doc : PDFDocument) (r : N) :
  isDictAt (applyEdits es doc) r = isDictAt doc r.
Proof.
  revert doc. induction es as [|e es IH]; intros doc; simpl; [done|].
  by rewrite IH, isDictAt_applyEdit.
Qed.

Lemma editDict_lookup_other (e : Edit) (r : N) (d : Dict) (key : string) :
  (forall ref, e ≠ DelKey ref key) -> key ≠ "Names" ->
  editDict e r d !! key = d !! key.
Proof.
  intros Hdel Hnames. destruct e as [ref k| |ref]; simpl; try done;
    destruct (decide (ref = r)); try done.
  - apply prune_lookup_ne. intros ->. by apply (Hdel ref).
  - by apply lookup_alter_ne.
Qed.

Lemma entryAt_applyEdit_Resources (e : Edit) (doc : PDFDocument) (r : N) :
  safeEdit e ->
  entryAt (applyEdit e doc) r "Resources" = entryAt doc r "Resources".
Proof.
  intros Hsafe. unfold entryAt. rewrite dictAt_applyEdit.
  destruct (dictAt doc r) as [d|]; simpl; [|done].
  apply editDict_lookup_other; [|done].
  intros ref ->. by apply Hsafe.
Qed.

Lemma sameShape_refl (doc : PDFDocument) : sameShape doc doc.
Proof. by constructor. Qed.

Lemma sameShape_trans (d1 d2 d3 : PDFDocument) :
  sameShape d1 d2 -> sameShape d2 d3 -> sameShape d1 d3.
Proof.
  intros [] []. constructor; intros; etrans; eauto.
Qed.

Lemma sameShape_applyEdit (e : Edit) (doc : PDFDocument) :
  safeEdit e -> sameShape (applyEdit e doc) doc.
Proof.
  intros Hsafe. constructor.
  - apply Root_applyEdit.
  - apply pages_applyEdit.
  - intros r. apply isDictAt_applyEdit.
  - intros r. by apply entryAt_applyEdit_Resources.
Qed.

Lemma sameShape_applyEdits (es : list Edit) (doc : PDFDocument) :
  Forall safeEdit es -> sameShape (applyEdits es doc) doc.
Proof.
  revert doc. induction es as [|e es IH]; intros doc Hsafe; simpl.
  - apply sameShape_refl.
  - inversion Hsafe; subst.
    eapply sameShape_trans; [by apply IH|]. by apply sameShape_applyEdit.
Qed.

(** An edit that finds nothing to delete leaves the document as it is. *)
Lemma applyEdit_DelKey_absent (doc : PDFDocument) (r : N) (key : string) (d : Dict) :
  dictAt doc r = Some d -> dictValue d key = None -> applyEdit (DelKey r key) doc = doc.
Proof.
  intros Hd Hkey. apply doc_eq; simpl; try done.
  apply alter_id. intros o Ho. unfold dictAt, lookup_ref in Hd. rewrite Ho in Hd.
  destruct o; simplify_eq/=; by rewrite prune_absent.
Qed.

(** One that finds the key does what [delete] does. *)
Lemma applyEdit_DelKey_present (doc : PDFDocument) (r : N) (key : string) (d : Dict) :
  dictAt doc r = Some d -> is_Some (dictValue d key) ->
  applyEdit (DelKey r key) doc = setObjects (alter (updDict (delete key)) r) doc.
Proof.
  intros Hd Hkey. apply doc_eq; simpl; try done.
  apply map_eq. intros r'. rewrite !lookup_alter.
  destruct (decide (r = r')) as [<-|]; [|done].
  unfold dictAt, lookup_ref in Hd.
  destruct (indirectObjects doc !! r) as [o|]; simpl in *; [|done].
  destruct o; simplify_eq/=. by rewrite prune_present.
Qed.

Lemma applyEdit_DelEmbedded_absent (doc : PDFDocument) (r : N) (d : Dict) :
  dictAt doc r = Some d ->
  (forall names, dictValue d "Names" = Some (PDFDict names) ->
                 dictValue names "EmbeddedFiles" = None) ->
  applyEdit (DelEmbedded r) doc = doc.
Proof.
  intros Hd Hnames. apply doc_eq; simpl; try done.
  apply alter_id. intros o Ho. unfold dictAt, lookup_ref in Hd. rewrite Ho in Hd.
  assert (alter dropEmbedded "Names" d = d) as Hid.
  { apply alter_id. intros v Hv. destruct v; simpl; try done.
    rewrite prune_absent; [done|]. apply Hnames. by apply dictValue_raw. }
  destruct o; simplify_eq/=; by rewrite Hid.
Qed.

Lemma applyEdit_ClearInfo_absent (doc : PDFDocument) :
  Info (trailerInfo doc) = None -> applyEdit ClearInfo doc = doc.
Proof. destruct doc as [objs [root info] ps]; simpl. by intros ->. Qed.

(** ** Plans: the edits a stage performs, and whether it ran to its end *)

Definition Plan : Type := list Edit * bool.
Definition PlanF : Type := PDFDocument -> Plan.

Definition seqPlan (p q : Plan) : Plan :=
  if p.2 then (p.1 ++ q.1, q.2) else p.

Definition pRet : PlanF := fun _ => ([], true).
Definition pEdit (e : Edit) : PlanF := fun _ => ([e], true).
Definition pDel (r : N) (key : string) : PlanF :=
  fun doc => if isDictAt doc r then ([DelKey r key], true) else ([], false).
Definition pEmb (r : N) : PlanF :=
  fun doc => if isDictAt doc r then ([DelEmbedded r], true) else ([], false).
Definition pSeq (p q : PlanF) : PlanF := fun doc => seqPlan (p doc) (q doc).
Definition pWhen (c : bool) (p : PlanF) : PlanF := if c then p else pRet.
Definition pTry (p : PlanF) : PlanF := fun doc => ((p doc).1, true).
Definition pRead {A} (g : PDFDocument -> A) (k : A -> PlanF) : PlanF :=
  fun doc => k (g doc) doc.
Definition pResources (r : N) (k : option PDFObject -> PlanF) : PlanF :=
  fun doc => if isDictAt doc r then k (valueAt doc r "Resources") doc else ([], false).

Fixpoint pEach {A} (xs : list A) (f : A -> PlanF) : PlanF :=
  match xs with
  | [] => pRet
  | x :: rest => pSeq (f x) (pEach rest f)
  end.

(** [follows m p]: on every document the statement [m] performs exactly the
    edits of the plan [p], and completes exactly when the plan says so. *)
Record follows (m : M PDFDocument unit) (p : PlanF) : Prop := mkFollows {
  follows_shape : forall doc doc', sameShape doc doc' -> p doc = p doc';
  follows_safe : forall doc, Forall safeEdit (p doc).1;
  follows_state : forall doc, (m doc).2 = applyEdits (p doc).1 doc;
  follows_ok : forall doc, isOk (m doc).1 = (p doc).2
}.

Lemma follows_ret : follows (mret tt) pRet.
Proof. by constructor. Qed.

Lemma follows_plan_ext (m : M PDFDocument unit) (p p' : PlanF) :
  (forall doc, p doc = p' doc) -> follows m p -> follows m p'.
Proof.
  intros Hext [H1 H2 H3 H4].
  constructor; intros; rewrite <- ?Hext; auto.
Qed.

Lemma deleteIfPresent_run (rc : string) (r : N) (key : string) (doc : PDFDocument) (d : Dict) :
  dictAt doc r = Some d ->
  deleteIfPresent rc r key doc = (Ok tt, applyEdit (DelKey r key) doc).
Proof.
  intros Hd. unfold deleteIfPresent. rewrite bind_run, (dictHas_run _ _ _ _ _ Hd).
  case_bool_decide as Hin; simpl.
  - rewrite (dictDelete_run _ _ _ _ _ Hd). f_equal. symmetry.
    by eapply applyEdit_DelKey_present.
  - unfold mret, M_ret. f_equal. symmetry. eapply applyEdit_DelKey_absent; [done|].
    by apply eq_None_not_Some.
Qed.

Lemma deleteIfPresent_throw (rc : string) (r : N) (key : string) (doc : PDFDocument) :
  dictAt doc r = None -> exists e, deleteIfPresent rc r key doc = (Throw e, doc).
Proof.
  intros Hd. unfold deleteIfPresent. rewrite bind_run.
  destruct (dictHas_throw rc doc r key Hd) as [e ->]. eauto.
Qed.

Lemma follows_del (rc : string) (r : N) (key : string) :
  key ≠ "Resources" -> follows (deleteIfPresent rc r key) (pDel r key).
Proof.
  intros Hkey. constructor.
  - intros doc doc' Hs. unfold pDel. by rewrite (shape_dict _ _ Hs).
  - intros doc. unfold pDel. destruct (isDictAt doc r); simpl; by repeat constructor.
  - intros doc. unfold pDel, isDictAt.
    destruct (dictAt doc r) as [d|] eqn:Hd.
    + by rewrite (deleteIfPresent_run _ _ _ _ _ Hd).
    + by destruct (deleteIfPresent_throw rc r key doc Hd) as [e ->].
  - intros doc. unfold pDel, isDictAt.
    destruct (dictAt doc r) as [d|] eqn:Hd.
    + by rewrite (deleteIfPresent_run _ _ _ _ _ Hd).
    + by destruct (deleteIfPresent_throw rc r key doc Hd) as [e ->].
Qed.

Lemma follows_seq (m n : M PDFDocument unit) (p q : PlanF) :
  follows m p -> follows n q -> follows (m ;; n) (pSeq p q).
Proof.
  intros [Hp1 Hp2 Hp3 Hp4] [Hq1 Hq2 Hq3 Hq4].
  assert (forall doc, q (applyEdits (p doc).1 doc) = q doc) as Hq.
  { intros doc. apply Hq1. by apply sameShape_applyEdits. }
  constructor.
  - intros doc doc' Hs. unfold pSeq. by rewrite (Hp1 _ _ Hs), (Hq1 _ _ Hs).
  - intros doc. unfold pSeq, seqPlan. destruct (p doc).2; simpl; [|done].
    apply Forall_app; auto.
  - intros doc. rewrite bind_run. specialize (Hp3 doc). specialize (Hp4 doc).
    unfold pSeq, seqPlan. destruct (m doc) as [[[]|e] doc1]; simpl in *; subst doc1.
    + rewrite <- Hp4. simpl. by rewrite Hq3, Hq, applyEdits_app.
    + by rewrite <- Hp4.
  - intros doc. rewrite bind_run. specialize (Hp3 doc). specialize (Hp4 doc).
    unfold pSeq, seqPlan. destruct (m doc) as [[[]|e] doc1]; simpl in *; subst doc1.
    + rewrite <- Hp4. simpl. by rewrite Hq4, Hq.
    + by rewrite <- Hp4.
Qed.

Lemma follows_when (c : bool) (m : M PDFDocument unit) (p : PlanF) :
  follows m p -> follows (when_ c m) (pWhen c p).
Proof. destruct c; simpl; [done|]. intros _. apply follows_ret. Qed.

Lemma follows_each {A} (xs : list A) (body : A -> M PDFDocument unit) (f : A -> PlanF) :
  (forall x, x ∈ xs -> follows (body x) (f x)) ->
  follows (forEach xs body) (pEach xs f).
Proof.
  induction xs as [|x xs IH]; intros H; simpl.
  - apply follows_ret.
  - apply follows_seq.
    + apply H. by left.
    + apply IH. intros y Hy. apply H. by right.
Qed.

Lemma follows_try (m : M PDFDocument unit) (p : PlanF) :
  follows m p -> follows (try_catch m (fun _ => mret tt)) (pTry p).
Proof.
  intros [H1 H2 H3 H4]. constructor.
  - intros doc doc' Hs. unfold pTry. by rewrite (H1 _ _ Hs).
  - intros doc. apply H2.
  - intros doc. rewrite try_catch_run. specialize (H3 doc).
    by destruct (m doc) as [[[]|e] doc1].
  - intros doc. rewrite try_catch_run. by destruct (m doc) as [[[]|e] doc1].
Qed.

Lemma follows_read {A} (reader : M PDFDocument A) (g : PDFDocument -> A)
    (k : A -> M PDFDocument unit) (p : A -> PlanF) :
  (forall doc, reader doc = (Ok (g doc), doc)) ->
  (forall doc doc', sameShape doc doc' -> g doc = g doc') ->
  (forall a, follows (k a) (p a)) ->
  follows (reader ≫= k) (pRead g p).
Proof.
  intros Hreader Hg Hk. constructor.
  - intros doc doc' Hs. unfold pRead. rewrite (Hg _ _ Hs).
    by apply (follows_shape _ _ (Hk (g doc'))).
  - intros doc. apply (follows_safe _ _ (Hk (g doc))).
  - intros doc. rewrite bind_run, Hreader. apply (follows_state _ _ (Hk (g doc))).
  - intros doc. rewrite bind_run, Hreader. apply (follows_ok _ _ (Hk (g doc))).
Qed.

(** [if (dict.has('Resources')) { const v = dict.get('Resources'); body(v) }] *)
Lemma follows_resources (rc : string) (r : N) (body : option PDFObject -> M PDFDocument unit)
    (p : option PDFObject -> PlanF) :
  (forall v, follows (body v) (p v)) ->
  follows (hasResources ← dictHas rc r "Resources";
           when_ hasResources (v ← dictGet rc r "Resources"; body v))
          (pResources r (fun v => if v is Some _ then p v else pRet)).
Proof.
  intros Hbody. constructor.
  - intros doc doc' Hs. unfold pResources.
    rewrite (shape_dict _ _ Hs), (shape_value _ _ _ Hs).
    destruct (isDictAt doc' r); [|done].
    destruct (valueAt doc' r "Resources"); [|done].
    by apply (follows_shape _ _ (Hbody _)).
  - intros doc. unfold pResources. destruct (isDictAt doc r); [|by constructor].
    destruct (valueAt doc r "Resources"); [|by constructor].
    apply (follows_safe _ _ (Hbody _)).
  - intros doc. unfold pResources, isDictAt, valueAt. rewrite bind_run.
    destruct (dictAt doc r) as [d|] eqn:Hd; simpl.
    + rewrite (dictHas_run _ _ _ _ _ Hd).
      destruct (dictValue d "Resources") as [v|] eqn:Hv; simpl; [|done].
      rewrite bind_run, (dictGet_run _ _ _ _ _ Hd), Hv.
      apply (follows_state _ _ (Hbody _)).
    + by destruct (dictHas_throw rc doc r "Resources" Hd) as [e ->].
  - intros doc. unfold pResources, isDictAt, valueAt. rewrite bind_run.
    destruct (dictAt doc r) as [d|] eqn:Hd; simpl.
    + rewrite (dictHas_run _ _ _ _ _ Hd).
      destruct (dictValue d "Resources") as [v|] eqn:Hv; simpl; [|done].
      rewrite bind_run, (dictGet_run _ _ _ _ _ Hd), Hv.
      apply (follows_ok _ _ (Hbody _)).
    + by destruct (dictHas_throw rc doc r "Resources" Hd) as [e ->].
Qed.

Lemma follows_removeInfo : follows removeInfo (pEdit ClearInfo).
Proof.
  constructor; try done.
  - intros doc. by repeat constructor.
  - intros doc. unfold removeInfo, getState. rewrite bind_run. simpl.
    case_bool_decide as Hinfo; simpl; [done|].
    symmetry. apply applyEdit_ClearInfo_absent. by apply eq_None_not_Some.
  - intros doc. unfold removeInfo, getState. rewrite bind_run. simpl.
    by case_bool_decide.
Qed.

Lemma follows_getCatalog (k : N -> M PDFDocument unit) (p : N -> PlanF) :
  (forall catalog, follows (k catalog) (p catalog)) ->
  follows (getCatalog ≫= k) (pRead (fun doc => Root (trailerInfo doc)) p).
Proof. intros. apply follows_read; try done. intros ?? []; done. Qed.

Lemma follows_getPages (k : list N -> M PDFDocument unit) (p : list N -> PlanF) :
  (forall ps, follows (k ps) (p ps)) ->
  follows (getPages ≫= k) (pRead pages p).
Proof. intros. apply follows_read; try done. intros ?? []; done. Qed.

(** ** The stages of the enhanced worker, as plans *)

Module EnhancedPlans.
Import Enhanced.

Definition removeMetadata_plan : PlanF :=
  pTry (pRead (fun doc => Root (trailerInfo doc)) (fun catalog =>
    pSeq (pDel catalog "Metadata")
   (pSeq (pEdit ClearInfo)
   (pSeq (pDel catalog "MarkInfo")
   (pSeq (pDel catalog "Outlines")
   (pRead pages (fun ps =>
    pSeq (pEach ps (fun page => pDel page "Thumb"))
         (pEach unnecessaryEntries (fun entry => pDel catalog entry))))))))).

Definition optimizeResourcesDictionary_plan (resources : N) (options : Options) : PlanF :=
  pWhen (isHigh (compressionLevel options) && negb (preserveQuality options))
    (pDel resources "ProcSet").

Definition optimizePage_plan (options : Options) (page : N) : PlanF :=
  pSeq (pWhen (isHigh (compressionLevel options))
          (pSeq (pWhen (negb (preserveQuality options)) (pDel page "Annots"))
                (pEach pageEntriesToRemove (fun entry => pDel page entry))))
       (pResources page (fun v =>
          match v with
          | Some (PDFRef resources) => optimizeResourcesDictionary_plan resources options
          | _ => pRet
          end)).

Definition optimizeContentStreams_plan (options : Options) : PlanF :=
  pTry (pRead pages (fun ps => pEach ps (optimizePage_plan options))).

Definition optimizeDocumentStructure_plan (options : Options) : PlanF :=
  pTry (pRead (fun doc => Root (trailerInfo doc)) (fun catalog =>
    pSeq (pWhen (isHigh (compressionLevel options)) (pDel catalog "StructTreeRoot"))
   (pSeq (pWhen (isHigh (compressionLevel options)) (pDel catalog "OCProperties"))
         (pEmb catalog)))).

Lemma keys_not_Resources (keys : list string) (entry : string) :
  bool_decide ("Resources" ∉ keys) = true -> entry ∈ keys -> entry ≠ "Resources".
Proof. intros H Hin ->. by apply bool_decide_eq_true in H. Qed.

Lemma removeMetadata_follows : follows removeMetadata removeMetadata_plan.
Proof.
  apply follows_try, follows_getCatalog. intros catalog.
  apply follows_seq; [by apply follows_del|].
  apply follows_seq; [apply follows_removeInfo|].
  apply follows_seq; [by apply follows_del|].
  apply follows_seq; [by apply follows_del|].
  apply follows_getPages. intros ps.
  apply follows_seq.
  - apply follows_each. intros page _. by apply follows_del.
  - apply follows_each. intros entry Hin. apply follows_del.
    by apply (keys_not_Resources unnecessaryEntries).
Qed.

Lemma optimizeResourcesDictionary_follows (resources : N) (options : Options) :
  follows (optimizeResourcesDictionary resources options)
          (optimizeResourcesDictionary_plan resources options).
Proof. apply follows_when. by apply follows_del. Qed.

Lemma optimizePage_follows (options : Options) (page : N) :
  follows (optimizePage options page) (optimizePage_plan options page).
Proof.
  apply follows_seq.
  - apply follows_when, follows_seq.
    + apply follows_when. by apply follows_del.
    + apply follows_each. intros entry Hin. apply follows_del.
      by apply (keys_not_Resources pageEntriesToRemove).
  - eapply follows_plan_ext;
      [|apply (follows_resources "dict" page
          (fun v => match v with
                    | Some (PDFRef resources) => optimizeResourcesDictionary resources options
                    | _ => mret tt
                    end)
          (fun v => match v with
                    | Some (PDFRef resources) =>
                        optimizeResourcesDictionary_plan resources options
                    | _ => pRet
                    end))].
    + intros doc. unfold pResources. destruct (isDictAt doc page); [|done].
      by destruct (valueAt doc page "Resources").
    + intros [[]|]; try apply follows_ret.
      apply optimizeResourcesDictionary_follows.
Qed.

Lemma optimizeContentStreams_follows (options : Options) :
  follows (optimizeContentStreams options) (optimizeContentStreams_plan options).
Proof.
  apply follows_try, follows_getPages. intros ps.
  apply follows_each. intros page _. apply optimizePage_follows.
Qed.

(** [if (catalog.has('Names')) { ... namesDict.delete('EmbeddedFiles') ... }] *)
Lemma removeEmbedded_follows (catalog : N) :
  follows
    (hasNames ← dictHas "catalog" catalog "Names";
     when_ hasNames
       (namesDict ← dictGet "catalog" catalog "Names";
        match namesDict with
        | Some (PDFDict names) =>
            when_ (bool_decide (is_Some (dictValue names "EmbeddedFiles")))
              (modify (applyEdit (DelEmbedded catalog)))
        | _ => mret tt
        end))
    (pEmb catalog).
Proof.
  constructor.
  - intros doc doc' Hs. unfold pEmb. by rewrite (shape_dict _ _ Hs).
  - intros doc. unfold pEmb. destruct (isDictAt doc catalog); by repeat constructor.
  - intros doc. unfold pEmb, isDictAt. rewrite bind_run.
    destruct (dictAt doc catalog) as [d|] eqn:Hd; simpl.
    + rewrite (dictHas_run _ _ _ _ _ Hd).
      destruct (dictValue d "Names") as [v|] eqn:Hv; simpl.
      * rewrite bind_run, (dictGet_run _ _ _ _ _ Hd), Hv.
        destruct v; simpl;
          try (symmetry; eapply applyEdit_DelEmbedded_absent; [done|]; congruence).
        case_bool_decide as Hin; simpl; [done|].
        symmetry; eapply applyEdit_DelEmbedded_absent; [done|].
        intros names ?. simplify_eq. by apply eq_None_not_Some.
      * symmetry; eapply applyEdit_DelEmbedded_absent; [done|]. congruence.
    + by destruct (dictHas_throw "catalog" doc catalog "Names" Hd) as [e ->].
  - intros doc. unfold pEmb, isDictAt. rewrite bind_run.
    destruct (dictAt doc catalog) as [d|] eqn:Hd; simpl.
    + rewrite (dictHas_run _ _ _ _ _ Hd).
      destruct (dictValue d "Names") as [v|] eqn:Hv; simpl; [|done].
      rewrite bind_run, (dictGet_run _ _ _ _ _ Hd), Hv.
      destruct v; simpl; try done. by case_bool_decide.
    + by destruct (dictHas_throw "catalog" doc catalog "Names" Hd) as [e ->].
Qed.

Lemma optimizeDocumentStructure_follows (options : Options) :
  follows (optimizeDocumentStructure options) (optimizeDocumentStructure_plan options).
Proof.
  apply follows_try, follows_getCatalog. intros catalog.
  apply follows_seq; [apply follows_when; by apply follows_del|].
  apply follows_seq; [apply follows_when; by apply follows_del|].
  apply removeEmbedded_follows.
Qed.

End EnhancedPlans.

(** ** Read-only statements *)

Definition readOnly {A} (m : M PDFDocument A) : Prop :=
  forall doc, (m doc).2 = doc.

Lemma readOnly_ret {A} (a : A) : readOnly (mret a).
Proof. done. Qed.

Lemma readOnly_bind {A B} (m : M PDFDocument A) (k : A -> M PDFDocument B) :
  readOnly m -> (forall a, readOnly (k a)) -> readOnly (m ≫= k).
Proof.
  intros Hm Hk doc. rewrite bind_run. specialize (Hm doc).
  destruct (m doc) as [[a|e] doc1]; simpl in *; subst; [apply Hk|done].
Qed.

Lemma readOnly_dictHas (rc : string) (r : N) (key : string) : readOnly (dictHas rc r key).
Proof. intros doc. unfold dictHas. by destruct (receiverAt rc "has" r doc). Qed.

Lemma readOnly_dictGet (rc : string) (r : N) (key : string) : readOnly (dictGet rc r key).
Proof. intros doc. unfold dictGet. by destruct (receiverAt rc "get" r doc). Qed.

Lemma readOnly_dictEntries (r : N) : readOnly (dictEntries r).
Proof. intros doc. unfold dictEntries. by destruct (lookup_ref doc r) as [[]|]. Qed.

Lemma readOnly_getPages : readOnly getPages.
Proof. done. Qed.

Lemma readOnly_when (c : bool) (m : M PDFDocument unit) :
  readOnly m -> readOnly (when_ c m).
Proof. by destruct c. Qed.

Lemma readOnly_forEachLog {A B} (xs : list A) (body : A -> M PDFDocument (list B)) :
  (forall x, readOnly (body x)) -> readOnly (forEachLog xs body).
Proof.
  intros Hbody. induction xs as [|x xs IH]; simpl; [done|].
  apply readOnly_bind; [done|]. intros l.
  apply readOnly_bind; [done|]. by intros ls.
Qed.

Lemma readOnly_try_catch {A} (m : M PDFDocument A) (h : JSError -> M PDFDocument A) :
  readOnly m -> (forall e, readOnly (h e)) -> readOnly (try_catch m h).
Proof.
  intros Hm Hh doc. rewrite try_catch_run. specialize (Hm doc).
  destruct (m doc) as [[a|e] doc1]; simpl in *; subst; [done|apply Hh].
Qed.

Ltac readonly :=
  repeat first
    [ apply readOnly_ret
    | apply readOnly_dictHas
    | apply readOnly_dictGet
    | apply readOnly_dictEntries
    | apply readOnly_getPages
    | apply readOnly_when
    | apply readOnly_bind; [|intros ?]
    | apply readOnly_forEachLog; intros ?
    | apply readOnly_try_catch; [|intros ?]
    | match goal with
      | |- readOnly (if ?c then _ else _) => destruct c
      | |- readOnly (match ?x with _ => _ end) => destruct x
      end ].

Lemma processImageXObject_readOnly (imageObj : N) (options : Options) :
  readOnly (Enhanced.processImageXObject imageObj options).
Proof. unfold Enhanced.processImageXObject. readonly. Qed.

(** ** The image stage inspects no image

    A statement is [quiet] when it leaves the document alone and, if it
    returns, reports nothing. *)

Definition quiet {B} (m : M PDFDocument (list B)) : Prop :=
  forall doc, exists res, m doc = (res, doc) /\ forall l, res = Ok l -> l = [].

Lemma quiet_ret {B} : quiet (mret ([] : list B)).
Proof. intros doc. exists (Ok []). split; [done|]. congruence. Qed.

Lemma quiet_bind {A B} (m : M PDFDocument A) (k : A -> M PDFDocument (list B)) :
  readOnly m -> (forall a, quiet (k a)) -> quiet (m ≫= k).
Proof.
  intros Hm Hk doc. rewrite bind_run. specialize (Hm doc).
  destruct (m doc) as [[a|e] doc1]; simpl in *; subst; [apply Hk|].
  exists (Throw e). split; [done|]. congruence.
Qed.

Lemma quiet_forEachLog {A B} (xs : list A) (body : A -> M PDFDocument (list B)) :
  (forall x, x ∈ xs -> quiet (body x)) -> quiet (forEachLog xs body).
Proof.
  induction xs as [|x xs IH]; intros Hbody; simpl; [apply quiet_ret|].
  intros doc. rewrite bind_run.
  destruct (Hbody x (list_elem_of_here _ _) doc) as (r & -> & Hr).
  destruct r as [l|e]; [|exists (Throw e); split; [done|congruence]].
  rewrite (Hr l eq_refl), bind_run.
  destruct (IH (fun y Hy => Hbody y (list_elem_of_further _ _ _ Hy)) doc) as (rs & -> & Hrs).
  destruct rs as [ls|e]; [|exists (Throw e); split; [done|congruence]].
  rewrite (Hrs ls eq_refl). exists (Ok []). split; [done|]. congruence.
Qed.

(** No entry of [Object.entries(xObject.dict)] is a reference. *)
Lemma dictEntries_values (r : N) (doc : PDFDocument) (es : list (string * option PDFObject)) :
  (dictEntries r doc).1 = Ok es -> Forall (fun entry => entry.2 = None) es.
Proof.
  unfold dictEntries. destruct (lookup_ref doc r) as [[]|]; simpl; try done;
    intros [= <-]; [by constructor|].
  destruct (isName _ _); by repeat constructor.
Qed.

Lemma processXObjectEntry_quiet (options : Options) (entry : string * option PDFObject) :
  entry.2 = None -> quiet (Enhanced.processXObjectEntry options entry).
Proof. unfold Enhanced.processXObjectEntry. intros ->. apply quiet_ret. Qed.

Lemma processPageImages_quiet (options : Options) (page : N) :
  quiet (Enhanced.processPageImages options page).
Proof.
  unfold Enhanced.processPageImages.
  apply quiet_bind; [apply readOnly_dictHas|intros hasResources].
  destruct hasResources; simpl; [|apply quiet_ret].
  apply quiet_bind; [apply readOnly_dictGet|intros [[]|]]; try apply quiet_ret.
  apply quiet_bind; [apply readOnly_dictHas|intros hasXObject].
  destruct hasXObject; simpl; [|apply quiet_ret].
  apply quiet_bind; [apply readOnly_dictGet|intros [[]|]]; try apply quiet_ret.
  intros doc. rewrite bind_run.
  pose proof (readOnly_dictEntries objectNumber0 doc) as Hro.
  pose proof (dictEntries_values objectNumber0 doc) as Hvalues.
  destruct (dictEntries objectNumber0 doc) as [[es|e] doc1]; simpl in *; subst doc1.
  - apply quiet_forEachLog. intros entry Hin. apply processXObjectEntry_quiet.
    by apply (proj1 (Forall_forall _ _) (Hvalues es eq_refl)).
  - exists (Throw e). split; [done|]. congruence.
Qed.

(** The stage returns normally, reports no image and leaves the document
    as it found it. *)
Lemma processImages_run (options : Options) (doc : PDFDocument) :
  Enhanced.processImages options doc = (Ok [], doc).
Proof.
  unfold Enhanced.processImages. rewrite try_catch_run, bind_run. simpl.
  destruct (quiet_forEachLog (pages doc) (Enhanced.processPageImages options)
              (fun page _ => processPageImages_quiet options page) doc) as (r & -> & Hr).
  destruct r as [l|e]; [|done]. by rewrite (Hr l eq_refl).
Qed.

Lemma processImages_readOnly (options : Options) :
  readOnly (Enhanced.processImages options).
Proof. intros doc. by rewrite processImages_run. Qed.

(** ** The page list that [getPageCount()] leaves *)

(** The page list of the document is the one [getPages()] computes from its
    objects. Every document a handler passes to a stage is of this kind. *)
Definition pagesComputed (doc : PDFDocument) : Prop :=
  computePages (fun name => name) (contextOf doc) = Ok (pages doc).

Definition okOf {A} (r : Result A) : option A :=
  match r with Ok a => Some a | Throw _ => None end.

(** The build of pdf-lib decides the text of an error, not whether there is
    one. *)
Lemma traverse_okOf (bn bn' : string -> string) (depth : nat) (objects : gmap N PDFObject)
    (node : Dict) :
  okOf (traverse bn depth objects node) = okOf (traverse bn' depth objects node).
Proof.
  revert node. induction depth as [|depth IH]; intros node; [done|].
  simpl. destruct (lookupEntry objects node "Kids") as [[]|]; try done.
  induction items as [|kidRef rest IHrest]; [done|].
  assert (forall kid,
    okOf (if isClass kid "Pages" then traverse bn depth objects kid
          else if isClass kid "Page"
               then match kidRef with PDFRef ref => Ok [ref] | _ => Throw notAReference end
               else Ok [])
    = okOf (if isClass kid "Pages" then traverse bn' depth objects kid
            else if isClass kid "Page"
                 then match kidRef with PDFRef ref => Ok [ref] | _ => Throw notAReference end
                 else Ok [])) as Hkid.
  { intros kid. destruct (isClass kid "Pages"); [apply IH|done]. }
  destruct (lookupValue objects kidRef) as [[]|]; try specialize (Hkid d);
    repeat match goal with
    | H : okOf ?a = okOf ?b |- context [match ?a with _ => _ end] =>
        destruct a, b; simpl in H; simplify_eq
    | IHrest : okOf ?a = okOf ?b |- context [match ?a with _ => _ end] =>
        destruct a, b; simpl in IHrest; simplify_eq
    end; try done.
Qed.

Lemma computePages_okOf (bn bn' : string -> string) (ctx : PDFContext) :
  okOf (computePages bn ctx) = okOf (computePages bn' ctx).
Proof.
  unfold computePages.
  destruct (contextObjects ctx !! Root (contextTrailer ctx)) as [[]|]; try done.
  destruct (isClass d "Catalog"); [|done].
  destruct (lookupEntry (contextObjects ctx) d "Pages") as [[]|]; try done.
  destruct (isClass d0 "Pages"); [|done]. apply traverse_okOf.
Qed.

(** Every page [traverse] pushes is a dictionary of the store. *)
Lemma traverse_pages (bn : string -> string) (depth : nat) (objects : gmap N PDFObject)
    (node : Dict) (ps : list N) :
  traverse bn depth objects node = Ok ps ->
  Forall (fun page => exists d, objects !! page = Some (PDFDict d)) ps.
Proof.
  revert node ps. induction depth as [|depth IH]; intros node ps; [done|].
  simpl. destruct (lookupEntry objects node "Kids") as [[]|]; try done.
  revert ps. induction items as [|kidRef rest IHrest]; intros ps.
  { intros [= <-]. constructor. }
  destruct (lookupValue objects kidRef) as [[]|] eqn:Hkid;
    try (destruct ((fix visit (kids : list PDFObject) : Result (list N) := _) rest)
           as [more|]; [|done]; intros [= <-]; by apply IHrest).
  destruct (isClass d "Pages") eqn:Htree.
  - destruct (traverse bn depth objects d) as [here|] eqn:Hhere; [|done].
    destruct ((fix visit (kids : list PDFObject) : Result (list N) := _) rest)
      as [more|]; [|done].
    intros [= <-]. apply Forall_app. split; [by eapply IH|by apply IHrest].
  - destruct (isClass d "Page").
    + destruct kidRef; try done.
      destruct ((fix visit (kids : list PDFObject) : Result (list N) := _) rest)
        as [more|]; [|done].
      intros [= <-]. constructor; [|by apply IHrest]. simpl in Hkid. eauto.
    + destruct ((fix visit (kids : list PDFObject) : Result (list N) := _) rest)
        as [more|]; [|done].
      intros [= <-]. by apply IHrest.
Qed.

Lemma pagesComputed_catalog (doc : PDFDocument) :
  pagesComputed doc -> isDictAt doc (Root (trailerInfo doc)) = true.
Proof.
  unfold pagesComputed, computePages, isDictAt, dictAt, lookup_ref.
  cbn [contextOf contextObjects contextTrailer].
  by destruct (indirectObjects doc !! Root (trailerInfo doc)) as [[]|].
Qed.

Lemma pagesComputed_pages (doc : PDFDocument) :
  pagesComputed doc -> Forall (fun page => isDictAt doc page = true) (pages doc).
Proof.
  unfold pagesComputed, computePages. cbn [contextOf contextObjects contextTrailer].
  destruct (indirectObjects doc !! Root (trailerInfo doc)) as [[]|]; try done.
  destruct (isClass d "Catalog"); [|done].
  destruct (lookupEntry (indirectObjects doc) d "Pages") as [[]|]; try done.
  destruct (isClass d0 "Pages"); [|done].
  intros H%traverse_pages. eapply Forall_impl; [exact H|].
  intros page [dp Hp]. unfold isDictAt, dictAt, lookup_ref. by rewrite Hp.
Qed.

Lemma getPageCount_pagesComputed (bn : string -> string) (ctx : PDFContext)
    (doc : PDFDocument) :
  getPageCount bn ctx = Ok doc -> pagesComputed doc /\ contextOf doc = ctx.
Proof.
  unfold getPageCount. destruct (computePages bn ctx) as [ps|] eqn:Hps; [|done].
  intros [= <-]. destruct ctx as [objects trailer]. split; [|done].
  unfold pagesComputed, contextOf.
  cbn [indirectObjects trailerInfo pages contextObjects contextTrailer] in *.
  pose proof (computePages_okOf bn (fun name => name) (mkPDFContext objects trailer)) as H.
  rewrite Hps in H. cbn [okOf] in H.
  destruct (computePages (fun name => name) (mkPDFContext objects trailer));
    cbn [okOf] in H; congruence.
Qed.


Arguments traverse : simpl never.
Arguments computePages : simpl never.
Arguments getPageCount : simpl never.

(** ** The handlers, stage by stage *)

(** The interior stages of the enhanced handler, in the order it awaits
    them. *)
Definition enhancedStages (options : Options) : M PDFDocument unit :=
  Enhanced.removeMetadata;;
  Enhanced.optimizeContentStreams options;;
  (Enhanced.processImages options ≫= fun _ => mret tt);;
  Enhanced.optimizeDocumentStructure options.

(** The interior stages of the module handler. *)
Definition basicStages (options : Options) : M PDFDocument unit :=
  when_ (isHigh (compressionLevel options)) Basic.removeMetadata;;
  Basic.optimizeContentStreams options;;
  Basic.processImages options;;
  Basic.removeUnnecessaryObjects options.

Lemma run_progress {Bytes A} (p : Z) (msg : string) (k : M (list (Message Bytes)) A)
    (outbox : list (Message Bytes)) :
  (reportProgress p msg ;; k) outbox = k (outbox ++ [Progress p msg]).
Proof. reflexivity. Qed.

Lemma run_await {Bytes A B} (stage : M PDFDocument A) (doc : PDFDocument)
    (k : PDFDocument -> M (list (Message Bytes)) B) (outbox : list (Message Bytes)) :
  (await stage doc ≫= k) outbox
  = match (stage doc).1 with
    | Ok _ => k (stage doc).2 outbox
    | Throw e => (Throw e, outbox)
    end.
Proof. rewrite bind_run. unfold await. by destruct (stage doc) as [[a|e] doc']. Qed.

Lemma run_awaitResult {S A B} (r : Result A) (k : A -> M S B) (s : S) :
  (awaitResult r ≫= k) s = match r with Ok a => k a s | Throw e => (Throw e, s) end.
Proof. rewrite bind_run. unfold awaitResult. by destruct r. Qed.

Lemma try_catch_unit (m : M PDFDocument unit) (doc : PDFDocument) :
  (try_catch m (fun _ => mret tt) doc).1 = Ok tt.
Proof. rewrite try_catch_run. by destruct (m doc) as [[[]|]]. Qed.

Lemma removeMetadata_ok (doc : PDFDocument) : (Enhanced.removeMetadata doc).1 = Ok tt.
Proof. apply try_catch_unit. Qed.

Lemma optimizeContentStreams_ok (options : Options) (doc : PDFDocument) :
  (Enhanced.optimizeContentStreams options doc).1 = Ok tt.
Proof. apply try_catch_unit. Qed.

Lemma optimizeDocumentStructure_ok (options : Options) (doc : PDFDocument) :
  (Enhanced.optimizeDocumentStructure options doc).1 = Ok tt.
Proof. apply try_catch_unit. Qed.

Lemma enhancedStages_state (options : Options) (doc : PDFDocument) :
  (enhancedStages options doc).2
  = (Enhanced.optimizeDocumentStructure options
       (Enhanced.processImages options
          (Enhanced.optimizeContentStreams options
             (Enhanced.removeMetadata doc).2).2).2).2.
Proof.
  unfold enhancedStages. rewrite bind_run.
  pose proof (removeMetadata_ok doc) as H1.
  destruct (Enhanced.removeMetadata doc) as [r1 d1]; simpl in *; subst r1.
  rewrite bind_run.
  pose proof (optimizeContentStreams_ok options d1) as H2.
  destruct (Enhanced.optimizeContentStreams options d1) as [r2 d2]; simpl in *; subst r2.
  rewrite !bind_run. by rewrite processImages_run.
Qed.

Section Handlers.
Context {Bytes : Type}.
Variable builtName : string -> string.
Variable byteLength : Bytes -> Z.
Variable load : Bytes -> Result PDFContext.
Variable save : PDFDocument -> SaveOptions -> Result Bytes.

(** The enhanced handler: no stage result decides anything. *)
Lemma Enhanced_onmessage_run (file : Bytes) (options : Options) :
  Enhanced.onmessage builtName byteLength load save file options
  = Progress 5 "Loading PDF document..." ::
    match load file with
    | Throw e => [Error (errorText e)]
    | Ok ctx =>
        Progress 10 "Analyzing document structure..." ::
        match getPageCount builtName ctx with
        | Throw e => [Error (errorText e)]
        | Ok doc =>
            [Progress 15 "Removing unnecessary metadata...";
             Progress 25 "Optimizing content streams...";
             Progress 40 "Processing embedded images...";
             Progress 70 "Optimizing document structure...";
             Progress 85 "Finalizing compressed document..."] ++
            match save (enhancedStages options doc).2 (Enhanced.saveOptions options) with
            | Throw e => [Error (errorText e)]
            | Ok bytes =>
                [Progress 100 "Compression complete!";
                 Complete bytes (byteLength file) (byteLength bytes)
                   (compressionRatioOf (byteLength file) (byteLength bytes))]
            end
        end
    end.
Proof.
  unfold Enhanced.onmessage, Enhanced.onmessage_body, Enhanced.savePdfWithOptions.
  rewrite try_catch_run, run_progress, run_awaitResult.
  destruct (load file) as [ctx|e]; [|done].
  rewrite run_progress, run_awaitResult.
  destruct (getPageCount builtName ctx) as [doc|e]; [|done].
  rewrite enhancedStages_state.
  rewrite !run_progress, run_await, removeMetadata_ok.
  set (d1 := (Enhanced.removeMetadata doc).2).
  rewrite !run_progress, run_await, optimizeContentStreams_ok.
  set (d2 := (Enhanced.optimizeContentStreams options d1).2).
  rewrite !run_progress, run_await, processImages_run. simpl fst. simpl snd.
  rewrite !run_progress, run_await, optimizeDocumentStructure_ok.
  set (d4 := (Enhanced.optimizeDocumentStructure options d2).2).
  rewrite !run_progress, run_awaitResult.
  by destruct (save d4 (Enhanced.saveOptions options)).
Qed.

Lemma Basic_onmessage_run (file : Bytes) (options : Options) :
  Basic.onmessage builtName byteLength load save file options
  = Progress 10 "Loading PDF document..." ::
    match load file with
    | Throw e => [Error (errorText e)]
    | Ok ctx =>
        Progress 20 "Analyzing document structure..." ::
        match getPageCount builtName ctx with
        | Throw e => [Error (errorText e)]
        | Ok doc =>
            Progress 30 "Applying compression strategies..." ::
            match when_ (isHigh (compressionLevel options)) Basic.removeMetadata doc with
            | (Throw e, _) => [Error (errorText e)]
            | (Ok _, doc1) =>
                (if isHigh (compressionLevel options)
                 then [Progress 35 "Removed unnecessary metadata..."] else []) ++
                [Progress 50 "Optimized content streams...";
                 Progress 70 "Processed images..."] ++
                match Basic.removeUnnecessaryObjects options doc1 with
                | (Throw e, _) => [Error (errorText e)]
                | (Ok _, doc2) =>
                    [Progress 80 "Removed unnecessary objects...";
                     Progress 90 "Finalizing compressed document..."] ++
                    match save doc2 (Basic.saveOptions options) with
                    | Throw e => [Error (errorText e)]
                    | Ok bytes =>
                        [Progress 100 "Compression complete!";
                         Complete bytes (byteLength file) (byteLength bytes)
                           (compressionRatioOf (byteLength file) (byteLength bytes))]
                    end
                end
            end
        end
    end.
Proof.
  unfold Basic.onmessage, Basic.onmessage_body, Basic.savePdfWithOptions.
  rewrite try_catch_run, run_progress, run_awaitResult.
  destruct (load file) as [ctx|e]; [|done].
  rewrite run_progress, run_awaitResult.
  destruct (getPageCount builtName ctx) as [doc|e]; [|done].
  rewrite !run_progress, bind_run.
  destruct (isHigh (compressionLevel options)); simpl when_.
  - rewrite run_await.
    destruct (Basic.removeMetadata doc) as [[[]|e] doc1]; [|done].
    simpl fst; simpl snd.
    rewrite run_await. simpl fst; simpl snd.
    rewrite !run_progress, run_await. simpl fst; simpl snd.
    rewrite !run_progress, run_await.
    destruct (Basic.removeUnnecessaryObjects options doc1) as [[[]|e] doc2]; [|done].
    simpl fst; simpl snd. rewrite !run_progress, run_awaitResult.
    by destruct (save doc2 _).
  - simpl. rewrite run_await. simpl fst; simpl snd.
    rewrite !run_progress, run_await. simpl fst; simpl snd.
    rewrite !run_progress, run_await.
    destruct (Basic.removeUnnecessaryObjects options doc) as [[[]|e] doc2]; [|done].
    simpl fst; simpl snd. rewrite !run_progress, run_awaitResult.
    by destruct (save doc2 _).
Qed.

Lemma Inline_onmessage_run (file : Bytes) (options : Options) :
  Inline.onmessage builtName byteLength load save file options
  = Progress 10 "Loading PDF document..." ::
    match load file with
    | Throw e => [Error (errorText e)]
    | Ok ctx =>
        Progress 20 "Analyzing document structure..." ::
        match getPageCount builtName ctx with
        | Throw e => [Error (errorText e)]
        | Ok doc =>
            Progress 50 "Applying compression strategies..." ::
            match save doc Inline.saveOptions with
            | Throw e => [Error (errorText e)]
            | Ok bytes =>
                [Progress 100 "Compression complete!";
                 Complete bytes (byteLength file) (byteLength bytes)
                   (compressionRatioOf (byteLength file) (byteLength bytes))]
            end
        end
    end.
Proof.
  unfold Inline.onmessage, Inline.onmessage_body.
  rewrite try_catch_run, run_progress, run_awaitResult.
  destruct (load file) as [ctx|e]; [|done].
  rewrite run_progress, run_awaitResult.
  destruct (getPageCount builtName ctx) as [doc|e]; [|done].
  rewrite !run_progress, run_awaitResult.
  by destruct (save doc _).
Qed.
End Handlers.

Import EnhancedPlans.

(** ** A stage that follows a plan is idempotent *)

Lemma follows_twice (m : M PDFDocument unit) (p : PlanF) (doc : PDFDocument) :
  follows m p ->
  (m (m doc).2).2 = (m doc).2 /\ isOk (m (m doc).2).1 = isOk (m doc).1.
Proof.
  intros F.
  assert (p (m doc).2 = p doc) as Hp.
  { rewrite (follows_state _ _ F). apply (follows_shape _ _ F).
    apply sameShape_applyEdits, (follows_safe _ _ F). }
  split.
  - rewrite (follows_state _ _ F (m doc).2), Hp, (follows_state _ _ F doc).
    apply applyEdits_twice.
  - by rewrite !(follows_ok _ _ F), Hp.
Qed.

Lemma run_unit_eq (m : M PDFDocument unit) (doc doc' : PDFDocument) :
  isOk (m doc).1 = true -> (m doc).2 = doc' -> m doc = (Ok tt, doc').
Proof. destruct (m doc) as [[[]|e] d]; simpl; intros; by subst. Qed.

(** The pruning stages of the enhanced worker, in the order the handler
    runs them: the Pruning Engine policy as the code has it. *)
Definition pruningPolicy (options : Options) : M PDFDocument unit :=
  Enhanced.removeMetadata;;
  Enhanced.optimizeContentStreams options;;
  Enhanced.optimizeDocumentStructure options.

Definition pruningPolicy_plan (options : Options) : PlanF :=
  pSeq removeMetadata_plan
    (pSeq (optimizeContentStreams_plan options) (optimizeDocumentStructure_plan options)).

Lemma pruningPolicy_follows (options : Options) :
  follows (pruningPolicy options) (pruningPolicy_plan options).
Proof.
  apply follows_seq; [apply removeMetadata_follows|].
  apply follows_seq; [apply optimizeContentStreams_follows|].
  apply optimizeDocumentStructure_follows.
Qed.

Lemma pruningPolicy_ok (options : Options) (doc : PDFDocument) :
  isOk (pruningPolicy options doc).1 = true.
Proof. by rewrite (follows_ok _ _ (pruningPolicy_follows options)). Qed.

Lemma processImages_follows (options : Options) :
  follows (Enhanced.processImages options ≫= fun _ => mret tt) pRet.
Proof.
  constructor; try done.
  - intros doc. by rewrite bind_run, processImages_run.
  - intros doc. by rewrite bind_run, processImages_run.
Qed.

Definition enhancedStages_plan (options : Options) : PlanF :=
  pSeq removeMetadata_plan
    (pSeq (optimizeContentStreams_plan options)
       (pSeq pRet (optimizeDocumentStructure_plan options))).

Lemma enhancedStages_follows (options : Options) :
  follows (enhancedStages options) (enhancedStages_plan options).
Proof.
  apply follows_seq; [apply removeMetadata_follows|].
  apply follows_seq; [apply optimizeContentStreams_follows|].
  apply follows_seq; [apply processImages_follows|].
  apply optimizeDocumentStructure_follows.
Qed.

(** ** Entries after a list of edits *)

Lemma valueAt_applyEdit_None (e : Edit) (doc : PDFDocument) (r : N) (key : string) :
  valueAt doc r key = None -> valueAt (applyEdit e doc) r key = None.
Proof.
  unfold valueAt. rewrite dictAt_applyEdit.
  destruct (dictAt doc r) as [d|]; simpl; [|done]. intros Hd.
  destruct e as [ref k| |ref]; simpl; try done; destruct (decide (ref = r)); try done.
  - by apply dictValue_prune_None.
  - rewrite dictValue_alter_dropEmbedded, Hd. by destruct (decide _).
Qed.

Lemma valueAt_applyEdits_None (es : list Edit) (doc : PDFDocument) (r : N) (key : string) :
  valueAt doc r key = None -> valueAt (applyEdits es doc) r key = None.
Proof.
  revert doc. induction es as [|e es IH]; intros doc H; simpl; [done|].
  by apply IH, valueAt_applyEdit_None.
Qed.

Lemma valueAt_DelKey (doc : PDFDocument) (r : N) (key : string) :
  valueAt (applyEdit (DelKey r key) doc) r key = None.
Proof.
  unfold valueAt. rewrite dictAt_applyEdit.
  destruct (dictAt doc r) as [d|]; simpl; [|done].
  rewrite decide_True by done. apply dictValue_prune_eq.
Qed.

(** A deletion that is part of the edits has happened at their end: no
    edit puts a key back. *)
Lemma valueAt_applyEdits_del (es : list Edit) (doc : PDFDocument) (r : N) (key : string) :
  DelKey r key ∈ es -> valueAt (applyEdits es doc) r key = None.
Proof.
  revert doc. induction es as [|e es IH]; intros doc Hin; simpl.
  - by apply elem_of_nil in Hin.
  - apply elem_of_cons in Hin as [<-|Hin]; [|by apply IH].
    apply valueAt_applyEdits_None, valueAt_DelKey.
Qed.

Lemma entryAt_applyEdit_None (e : Edit) (doc : PDFDocument) (r : N) (key : string) :
  entryAt doc r key = None -> entryAt (applyEdit e doc) r key = None.
Proof.
  unfold entryAt. rewrite dictAt_applyEdit.
  destruct (dictAt doc r) as [d|]; simpl; [|done]. intros Hd.
  destruct e as [ref k| |ref]; simpl; try done; destruct (decide (ref = r)); try done.
  - by apply prune_lookup_None.
  - by apply lookup_alter_None.
Qed.

Lemma entryAt_applyEdits_None (es : list Edit) (doc : PDFDocument) (r : N) (key : string) :
  entryAt doc r key = None -> entryAt (applyEdits es doc) r key = None.
Proof.
  revert doc. induction es as [|e es IH]; intros doc H; simpl; [done|].
  by apply IH, entryAt_applyEdit_None.
Qed.

Lemma Info_applyEdits_None (es : list Edit) (doc : PDFDocument) :
  Info (trailerInfo doc) = None -> Info (trailerInfo (applyEdits es doc)) = None.
Proof.
  revert doc. induction es as [|e es IH]; intros doc H; simpl; [done|].
  apply IH. rewrite Info_applyEdit. by destruct (isClearInfo e).
Qed.

Lemma Info_applyEdits_clear (es : list Edit) (doc : PDFDocument) :
  ClearInfo ∈ es -> Info (trailerInfo (applyEdits es doc)) = None.
Proof.
  revert doc. induction es as [|e es IH]; intros doc Hin; simpl.
  - by apply elem_of_nil in Hin.
  - apply elem_of_cons in Hin as [<-|Hin]; [|by apply IH].
    by apply Info_applyEdits_None.
Qed.

(** What an edit leaves alone. *)
Definition keepsKey (key : string) (e : Edit) : Prop :=
  match e with
  | DelKey _ k => k ≠ key
  | ClearInfo => True
  | DelEmbedded _ => key ≠ "Names"
  end.

Lemma entryAt_applyEdits_keep (es : list Edit) (doc : PDFDocument) (r : N) (key : string) :
  Forall (keepsKey key) es -> entryAt (applyEdits es doc) r key = entryAt doc r key.
Proof.
  revert doc. induction es as [|e es IH]; intros doc H; simpl; [done|].
  inversion H as [|?? He Hes]; subst. rewrite IH by done.
  unfold entryAt. rewrite dictAt_applyEdit.
  destruct (dictAt doc r) as [d|]; simpl; [|done].
  destruct e as [ref k| |ref]; simpl in *; try done; destruct (decide (ref = r)); try done.
  - by apply prune_lookup_ne.
  - by apply lookup_alter_ne.
Qed.

Lemma valueAt_applyEdits_keep (es : list Edit) (doc : PDFDocument) (r : N) (key : string) :
  Forall (keepsKey key) es -> valueAt (applyEdits es doc) r key = valueAt doc r key.
Proof. intros H. by rewrite !valueAt_entryAt, entryAt_applyEdits_keep. Qed.

Lemma Info_applyEdits_keep (es : list Edit) (doc : PDFDocument) :
  ClearInfo ∉ es -> Info (trailerInfo (applyEdits es doc)) = Info (trailerInfo doc).
Proof.
  revert doc. induction es as [|e es IH]; intros doc H; simpl; [done|].
  apply not_elem_of_cons in H as [He Hes]. rewrite IH by done.
  rewrite Info_applyEdit. by destruct e.
Qed.

(** The EmbeddedFiles entry of an inline Names dictionary, as [get] reads
    it. *)
Definition embeddedFilesAt (doc : PDFDocument) (r : N) : option PDFObject :=
  match valueAt doc r "Names" with
  | Some (PDFDict names) => dictValue names "EmbeddedFiles"
  | _ => None
  end.

Lemma embeddedFilesAt_applyEdit_None (e : Edit) (doc : PDFDocument) (r : N) :
  embeddedFilesAt doc r = None -> embeddedFilesAt (applyEdit e doc) r = None.
Proof.
  unfold embeddedFilesAt, valueAt. rewrite dictAt_applyEdit.
  destruct (dictAt doc r) as [d|]; simpl; [|done]. intros Hd.
  destruct e as [ref k| |ref]; simpl; try done; destruct (decide (ref = r)); try done.
  - destruct (decide (k = "Names")) as [->|].
    + by rewrite dictValue_prune_eq.
    + by rewrite dictValue_prune_ne.
  - rewrite dictValue_alter_dropEmbedded. simpl.
    destruct (dictValue d "Names") as [[]|]; simpl; try done.
    apply dictValue_prune_eq.
Qed.

Lemma embeddedFilesAt_DelEmbedded (doc : PDFDocument) (r : N) :
  embeddedFilesAt (applyEdit (DelEmbedded r) doc) r = None.
Proof.
  unfold embeddedFilesAt, valueAt. rewrite dictAt_applyEdit.
  destruct (dictAt doc r) as [d|]; simpl; [|done].
  rewrite decide_True by done. rewrite dictValue_alter_dropEmbedded. simpl.
  destruct (dictValue d "Names") as [[]|]; simpl; try done. apply dictValue_prune_eq.
Qed.

Lemma embeddedFilesAt_applyEdits_del (es : list Edit) (doc : PDFDocument) (r : N) :
  DelEmbedded r ∈ es -> embeddedFilesAt (applyEdits es doc) r = None.
Proof.
  revert doc. induction es as [|e es IH]; intros doc Hin; simpl.
  - by apply elem_of_nil in Hin.
  - apply elem_of_cons in Hin as [<-|Hin]; [|by apply IH].
    generalize (applyEdit (DelEmbedded r) doc), (embeddedFilesAt_DelEmbedded doc r).
    clear. induction es as [|e es IH]; intros d Hd; simpl; [done|].
    by apply IH, embeddedFilesAt_applyEdit_None.
Qed.

(** ** The plans, evaluated *)

Lemma pEach_pDel_pages (ps : list N) (key : string) (doc : PDFDocument) :
  Forall (fun page => isDictAt doc page = true) ps ->
  pEach ps (fun page => pDel page key) doc = (map (fun page => DelKey page key) ps, true).
Proof.
  induction 1 as [|page ps Hpage _ IH]; simpl; [done|].
  unfold pSeq, seqPlan. rewrite IH. unfold pDel. by rewrite Hpage.
Qed.

Lemma pEach_pDel_keys (r : N) (keys : list string) (doc : PDFDocument) :
  isDictAt doc r = true ->
  pEach keys (fun key => pDel r key) doc = (map (DelKey r) keys, true).
Proof.
  intros Hr. induction keys as [|key keys IH]; simpl; [done|].
  unfold pSeq, seqPlan. rewrite IH. unfold pDel. by rewrite Hr.
Qed.

Lemma pSeq_incl_l (p q : PlanF) (doc : PDFDocument) (e : Edit) :
  e ∈ (p doc).1 -> e ∈ (pSeq p q doc).1.
Proof.
  unfold pSeq, seqPlan. destruct (p doc).2; simpl; [|done].
  intros. apply elem_of_app. by left.
Qed.

(** With the catalog a dictionary, [removeMetadata] starts with these. *)
Lemma removeMetadata_plan_head (doc : PDFDocument) :
  isDictAt doc (Root (trailerInfo doc)) = true ->
  let catalog := Root (trailerInfo doc) in
  exists rest,
    (removeMetadata_plan doc).1
    = [DelKey catalog "Metadata"; ClearInfo; DelKey catalog "MarkInfo";
       DelKey catalog "Outlines"] ++ rest.
Proof.
  intros Hc catalog. subst catalog.
  unfold removeMetadata_plan, pTry, pRead, pSeq, seqPlan, pDel, pEdit.
  rewrite Hc. simpl. eauto.
Qed.

(** With the pages dictionaries too, it runs to its end. *)
Lemma removeMetadata_plan_full (doc : PDFDocument) :
  isDictAt doc (Root (trailerInfo doc)) = true ->
  Forall (fun page => isDictAt doc page = true) (pages doc) ->
  let catalog := Root (trailerInfo doc) in
  (removeMetadata_plan doc).1
  = [DelKey catalog "Metadata"; ClearInfo; DelKey catalog "MarkInfo";
     DelKey catalog "Outlines"] ++
    map (fun page => DelKey page "Thumb") (pages doc) ++
    map (DelKey catalog) Enhanced.unnecessaryEntries.
Proof.
  intros Hc Hpages catalog. subst catalog.
  unfold removeMetadata_plan, pTry, pRead, pSeq, seqPlan.
  rewrite (pEach_pDel_pages _ _ _ Hpages), (pEach_pDel_keys _ _ _ Hc).
  unfold pDel, pEdit. by rewrite Hc.
Qed.

(** ** Documents used as concrete inputs *)

(** A 2000 x 1500 JPEG image. *)
Definition sampleImageDict : Dict :=
  <["Subtype" := PDFName "Image"]>
  (<["Width" := PDFNumber 2000]>
  (<["Height" := PDFNumber 1500]>
  (<["Filter" := PDFName "DCTDecode"]> ∅))).

Definition sampleImage : PDFObject :=
  PDFStream sampleImageDict [Byte.xff; Byte.xd8; Byte.xff; Byte.xe0].

(** One page showing an image: catalog 1, page 2, resources 3, XObject
    dictionary 4, the image 5, information dictionary 6, thumbnail 7,
    embedded files 8, XMP metadata 9, page tree 10. *)
Definition sampleObjects (image : PDFObject) : gmap N PDFObject :=
  <[1%N := PDFDict (<["Type" := PDFName "Catalog"]>
                    (<["Pages" := PDFRef 10]>
                    (<["Metadata" := PDFRef 9]>
                    (<["PageMode" := PDFName "UseOutlines"]>
                    (<["Names" := PDFDict (<["EmbeddedFiles" := PDFRef 8]> ∅)]> ∅)))))]>
  (<[2%N := PDFDict (<["Type" := PDFName "Page"]>
                    (<["Parent" := PDFRef 10]>
                    (<["Thumb" := PDFRef 7]>
                    (<["Resources" := PDFRef 3]> ∅))))]>
  (<[3%N := PDFDict (<["XObject" := PDFRef 4]> ∅)]>
  (<[4%N := PDFDict (<["Im0" := PDFRef 5]> ∅)]>
  (<[5%N := image]>
  (<[6%N := PDFDict (<["Producer" := PDFString "pdf-lib"]> ∅)]>
  (<[7%N := PDFStream (<["Width" := PDFNumber 76]> (<["Height" := PDFNumber 57]> ∅)) []]>
  (<[8%N := PDFDict (<["Names" := PDFArray []]> ∅)]>
  (<[9%N := PDFStream (<["Type" := PDFName "Metadata"]> ∅) []]>
  (<[10%N := PDFDict (<["Type" := PDFName "Pages"]>
                     (<["Kids" := PDFArray [PDFRef 2]]>
                     (<["Count" := PDFNumber 1]> ∅)))]> ∅))))))))).

Definition sampleTrailer : TrailerInfo := mkTrailerInfo 1 (Some (PDFRef 6)).

Definition sampleContext (image : PDFObject) : PDFContext :=
  mkPDFContext (sampleObjects image) sampleTrailer.

(** The document [getPageCount()] makes of [sampleContext image]. *)
Definition documentWith (image : PDFObject) : PDFDocument :=
  mkPDFDocument (sampleObjects image) sampleTrailer [2%N].

Definition sampleDocument : PDFDocument := documentWith sampleImage.

(** The same document with the image held as a plain dictionary object. *)
Definition dictImageDocument : PDFDocument := documentWith (PDFDict sampleImageDict).



(** ** The image transform policy *)




Lemma processImageXObject_run (doc : PDFDocument) (ref : N) (d : Dict) (options : Options) :
  dictAt doc ref = Some d ->
  is_Some (dictValue d "Width") -> is_Some (dictValue d "Height") ->
  Enhanced.processImageXObject ref options doc
  = (Ok (if jsLt (dictValue d "Width") 100 || jsLt (dictValue d "Height") 100 then None
         else Some (Enhanced.downsampleFactor (dictValue d "Width") (dictValue d "Height")
                      options)),
     doc).
Proof.
  intros Hd [w Hw] [h Hh]. unfold Enhanced.processImageXObject.
  rewrite bind_run, (dictHas_Some _ _ _ _ _ _ Hd Hw). cbn [negb].
  rewrite bind_run, (dictHas_Some _ _ _ _ _ _ Hd Hh). cbn [negb].
  rewrite bind_run, (dictGet_run _ _ _ _ _ Hd).
  rewrite bind_run, (dictGet_run _ _ _ _ _ Hd).
  destruct (jsLt (dictValue d "Width") 100 || jsLt (dictValue d "Height") 100); [done|].
  rewrite bind_run.
  destruct (dictValue d "Filter") as [f|] eqn:Hf.
  - rewrite (dictHas_Some _ _ _ _ _ _ Hd Hf). cbn [when_].
    rewrite !bind_run, (dictGet_run _ _ _ _ _ Hd).
    by destruct (isName (dictValue d "Filter") "JPXDecode"
                 && isHigh (compressionLevel options)).
  - by rewrite (dictHas_None _ _ _ _ _ Hd Hf).
Qed.





(** ** An image without dimensions *)







(** ** The image processing stage *)

(** [Math.round] of a finite binary64 [m * 2^e]: the nearest integer, ties
    upwards. *)
Definition mathRound (x : float) : option Z :=
  match Prim2SF x with
  | S754_zero _ => Some 0%Z
  | S754_finite s m e =>
      let v := if s then Z.neg m else Z.pos m in
      Some (if (0 <=? e)%Z then v * 2 ^ e else (2 * v + 2 ^ (- e)) / 2 ^ (1 - e))%Z
  | _ => None
  end.

(** The target of the specification, [round(n * f)]. *)
Definition targetDimension (n f : float) : option Z := mathRound (n * f).

(** C4 (as amended). The image processing stage changes nothing and
    inspects no image: whatever the options, [processImages] returns
    normally on the document it was given without one call of
    [processImageXObject]; that function never writes either, and for an
    image given as a dictionary object of at least 100 x 100 all it does is
    compute the factor, whatever the Filter and the level (the JPXDecode
    branch is empty). *)
Theorem image_stage_changes_nothing (doc : PDFDocument) (options : Options) :
  Enhanced.processImages options doc = (Ok [], doc)
  /\ (forall ref, (Enhanced.processImageXObject ref options doc).2 = doc)
  /\ (forall ref d w h,
        dictAt doc ref = Some d ->
        d !! "Width" = Some (PDFNumber w) -> d !! "Height" = Some (PDFNumber h) ->
        (100 <= w)%Z -> (100 <= h)%Z ->
        Enhanced.processImageXObject ref options doc
        = (Ok (Some (Enhanced.downsampleFactor (Some (PDFNumber w)) (Some (PDFNumber h))
                       options)), doc)).
Proof.
  split; [apply processImages_run|]. split.
  - intros ref. apply processImageXObject_readOnly.
  - intros ref d w h Hd Hw Hh Hw100 Hh100.
    rewrite (processImageXObject_run doc ref d options Hd)
      by (rewrite ?(dictValue_raw _ _ _ Hw), ?(dictValue_raw _ _ _ Hh); eauto).
    rewrite (dictValue_raw _ _ _ Hw), (dictValue_raw _ _ _ Hh) by done. cbn [jsLt].
    destruct (Z.ltb_spec w 100); [lia|]. destruct (Z.ltb_spec h 100); [lia|]. done.
Qed.

Lemma image_stage_changes_nothing_witness :
  dictAt dictImageDocument 5 = Some sampleImageDict
  /\ sampleImageDict !! "Width" = Some (PDFNumber 2000)
  /\ sampleImageDict !! "Height" = Some (PDFNumber 1500)
  /\ (100 <= 2000)%Z /\ (100 <= 1500)%Z
  /\ Enhanced.processImageXObject 5 (mkOptions 25 false high) dictImageDocument
     = (Ok (Some (Enhanced.downsampleFactor (Some (PDFNumber 2000)) (Some (PDFNumber 1500))
                    (mkOptions 25 false high))), dictImageDocument).
Proof.
  assert (dictAt dictImageDocument 5 = Some sampleImageDict) as Hd
    by (vm_compute; reflexivity).
  assert (sampleImageDict !! "Width" = Some (PDFNumber 2000)) as Hw by (vm_compute; reflexivity).
  assert (sampleImageDict !! "Height" = Some (PDFNumber 1500)) as Hh by (vm_compute; reflexivity).
  assert (100 <= 2000)%Z as Hw100 by lia.
  assert (100 <= 1500)%Z as Hh100 by lia.
  split; [exact Hd|]. split; [exact Hw|]. split; [exact Hh|].
  split; [exact Hw100|]. split; [exact Hh100|].
  exact (proj2 (proj2 (image_stage_changes_nothing dictImageDocument
                         (mkOptions 25 false high)))
           5%N sampleImageDict 2000%Z 1500%Z Hd Hw Hh Hw100 Hh100).
Defined.

(** C4, as stated, fails on the 2000 x 1500 JPEG of [sampleDocument] at
    level high, quality 25: the policy's factor asks for 560 x 420, but the
    image stage returns the document it was given, and after all four
    stages the stream at 5 is still the one that was loaded, Width 2000 and
    Height 1500. *)
Lemma image_reencoding_counterexample :
  let options := mkOptions 25 false high in
  let f := Enhanced.downsampleFactor (Some (PDFNumber 2000)) (Some (PDFNumber 1500)) options in
  pagesComputed sampleDocument
  /\ lookup_ref sampleDocument 5 = Some sampleImage
  /\ targetDimension 2000 f = Some 560%Z /\ targetDimension 1500 f = Some 420%Z
  /\ Enhanced.processImages options sampleDocument = (Ok [], sampleDocument)
  /\ lookup_ref (enhancedStages options sampleDocument).2 5 = Some sampleImage
  /\ sampleImageDict !! "Width" = Some (PDFNumber 2000)
  /\ sampleImageDict !! "Height" = Some (PDFNumber 1500).
Proof. cbv zeta. repeat split; by vm_compute. Qed.

(** ** Pages whose resources are inline *)

Definition isRef (v : PDFObject) : bool :=
  match v with PDFRef _ => true | _ => false end.

Lemma forEachLog_skip {A B} (body : A -> M PDFDocument (list B)) (before after : list A)
    (x : A) (doc : PDFDocument) :
  (forall y, readOnly (body y)) ->
  body x doc = (Ok [], doc) ->
  forEachLog (before ++ x :: after) body doc = forEachLog (before ++ after) body doc.
Proof.
  intros Hro Hx. induction before as [|b before IH]; simpl.
  - rewrite bind_run, Hx, bind_run.
    by destruct (forEachLog after body doc) as [[ls|e] doc'].
  - rewrite !bind_run. pose proof (Hro b doc) as Hb.
    destruct (body b doc) as [[l|e] doc']; simpl in Hb; subst doc'; [|done].
    by rewrite !bind_run, IH.
Qed.

Lemma processPageImages_readOnly (options : Options) (page : N) :
  readOnly (Enhanced.processPageImages options page).
Proof. intros doc. by destruct (processPageImages_quiet options page doc) as (r & -> & _). Qed.

(** C10. A page whose Resources entry is an inline object, or whose
    resource dictionary has an inline XObject entry, is skipped by the image
    processing stage: the loop body returns at once, reporting no image and
    raising no error, and the stage as a whole is the stage run over the
    other pages. *)
Theorem inline_resources_skipped (doc : PDFDocument) (options : Options) (page : N)
    (d : Dict) (v : PDFObject) :
  dictAt doc page = Some d ->
  isRef v = false ->
  d !! "Resources" = Some v
  \/ (exists resources rd,
        d !! "Resources" = Some (PDFRef resources)
        /\ dictAt doc resources = Some rd /\ rd !! "XObject" = Some v) ->
  Enhanced.processPageImages options page doc = (Ok [], doc)
  /\ (forall before after,
        pages doc = before ++ page :: after ->
        Enhanced.processImages options doc
        = try_catch (forEachLog (before ++ after) (Enhanced.processPageImages options))
            (fun error => mret []) doc).
Proof.
  intros Hd Hv Hinline.
  assert (forall (dd : Dict) key, dd !! key = Some v ->
            (v = PDFNull /\ dictValue dd key = None)
            \/ (v <> PDFNull /\ dictValue dd key = Some v)) as Hvalue.
  { intros dd key Hkey. unfold dictValue. rewrite Hkey. clear.
    destruct v; [by left|right; split; [discriminate|reflexivity]..]. }
  assert (Enhanced.processPageImages options page doc = (Ok [], doc)) as Hpage.
  { unfold Enhanced.processPageImages. rewrite bind_run.
    destruct Hinline as [Hres|(resources & rd & Hres & Hrd & Hx)].
    - destruct (Hvalue _ _ Hres) as [[-> Hnone]|[Hnull Hsome]].
      + by rewrite (dictHas_None _ _ _ _ _ Hd Hnone).
      + rewrite (dictHas_Some _ _ _ _ _ v Hd Hsome). cbn [negb].
        rewrite bind_run, (dictGet_run _ _ _ _ _ Hd), Hsome.
        by destruct v.
    - rewrite (dictHas_Some _ _ _ _ _ (PDFRef resources) Hd) by (by apply dictValue_raw).
      cbn [negb].
      rewrite bind_run, (dictGet_run _ _ _ _ _ Hd), (dictValue_raw _ _ _ Hres) by done.
      rewrite bind_run.
      destruct (Hvalue _ _ Hx) as [[-> Hnone]|[Hnull Hsome]].
      + by rewrite (dictHas_None _ _ _ _ _ Hrd Hnone).
      + rewrite (dictHas_Some _ _ _ _ _ v Hrd Hsome). cbn [negb].
        rewrite bind_run, (dictGet_run _ _ _ _ _ Hrd), Hsome.
        by destruct v. }
  split; [exact Hpage|].
  intros before after Hpages. unfold Enhanced.processImages.
  rewrite !try_catch_run, bind_run. unfold getPages. rewrite Hpages.
  rewrite forEachLog_skip; [done| |done].
  intros y. apply processPageImages_readOnly.
Qed.

(** A page with inline resources that name the image [sampleImage]. *)
Definition inlinePageDict : Dict :=
  <["Type" := PDFName "Page"]>
  (<["Resources" := PDFDict (<["XObject" := PDFDict (<["Im0" := PDFRef 5]> ∅)]> ∅)]> ∅).

Definition inlineDocument : PDFDocument :=
  mkPDFDocument
    (<[1%N := PDFDict (<["Type" := PDFName "Catalog"]> (<["Pages" := PDFRef 10]> ∅))]>
    (<[2%N := PDFDict inlinePageDict]>
    (<[5%N := sampleImage]>
    (<[10%N := PDFDict (<["Type" := PDFName "Pages"]>
                       (<["Kids" := PDFArray [PDFRef 2]]> ∅))]> ∅))))
    (mkTrailerInfo 1 None)
    [2%N].

Lemma inlineDocument_pagesComputed : pagesComputed inlineDocument.
Proof. by vm_compute. Qed.

Lemma inline_resources_skipped_witness :
  let v := PDFDict (<["XObject" := PDFDict (<["Im0" := PDFRef 5]> ∅)]> ∅) in
  dictAt inlineDocument 2 = Some inlinePageDict
  /\ isRef v = false
  /\ inlinePageDict !! "Resources" = Some v
  /\ Enhanced.processPageImages (mkOptions 25 false high) 2 inlineDocument
     = (Ok [], inlineDocument).
Proof.
  intros v.
  assert (dictAt inlineDocument 2 = Some inlinePageDict) as Hd by (vm_compute; reflexivity).
  assert (isRef v = false) as Hv by reflexivity.
  assert (inlinePageDict !! "Resources" = Some v) as Hres by (vm_compute; reflexivity).
  split; [exact Hd|]. split; [exact Hv|]. split; [exact Hres|].
  exact (proj1 (inline_resources_skipped inlineDocument (mkOptions 25 false high) 2
                  inlinePageDict v Hd Hv (or_introl Hres))).
Defined.

(** ** Idempotence of the pruning policy *)

Lemma follows_idempotent (m : M PDFDocument unit) (p : PlanF) (doc : PDFDocument) :
  follows m p -> (forall d, isOk (m d).1 = true) ->
  m (m doc).2 = (Ok tt, (m doc).2).
Proof.
  intros F Hok. apply run_unit_eq; [apply Hok|].
  by apply (follows_twice m p doc).
Qed.

Lemma deleteIfPresent_absent (rc : string) (doc : PDFDocument) (ref : N) (key : string)
    (d : Dict) :
  dictAt doc ref = Some d -> dictValue d key = None ->
  deleteIfPresent rc ref key doc = (Ok tt, doc).
Proof.
  intros Hd Hkey. unfold deleteIfPresent.
  by rewrite bind_run, (dictHas_None _ _ _ _ _ Hd Hkey).
Qed.

Lemma dictDelete_absent (rc : string) (doc : PDFDocument) (ref : N) (key : string)
    (d : Dict) :
  dictAt doc ref = Some d -> d !! key = None -> dictDelete rc ref key doc = (Ok tt, doc).
Proof.
  intros Hd Hkey. rewrite (dictDelete_run _ _ _ _ _ Hd). f_equal.
  apply doc_eq; simpl; try done.
  apply alter_id. intros o Ho. unfold dictAt, lookup_ref in Hd. rewrite Ho in Hd.
  destruct o; simplify_eq/=. by rewrite delete_id.
Qed.

(** C6. Running the pruning policy of the enhanced worker on its own
    result changes nothing and raises nothing, whatever the document and the
    options; the same holds for each pruning stage alone; and on a
    dictionary that does not have the key, the guarded deletion the stages
    use and [delete] itself are no-ops, not errors. *)
Theorem pruning_idempotent (options : Options) (doc : PDFDocument) :
  (let once := (pruningPolicy options doc).2 in
   pruningPolicy options once = (Ok tt, once))
  /\ (let once := (Enhanced.removeMetadata doc).2 in
      Enhanced.removeMetadata once = (Ok tt, once))
  /\ (let once := (Enhanced.optimizeContentStreams options doc).2 in
      Enhanced.optimizeContentStreams options once = (Ok tt, once))
  /\ (let once := (Enhanced.optimizeDocumentStructure options doc).2 in
      Enhanced.optimizeDocumentStructure options once = (Ok tt, once))
  /\ (forall receiver ref key d,
        dictAt doc ref = Some d -> d !! key = None ->
        deleteIfPresent receiver ref key doc = (Ok tt, doc)
        /\ dictDelete receiver ref key doc = (Ok tt, doc)).
Proof.
  split; [|split; [|split; [|split]]]; simpl.
  - eapply follows_idempotent; [apply pruningPolicy_follows|].
    intros d. apply pruningPolicy_ok.
  - eapply follows_idempotent; [apply removeMetadata_follows|].
    intros d. by rewrite removeMetadata_ok.
  - eapply follows_idempotent; [apply optimizeContentStreams_follows|].
    intros d. by rewrite optimizeContentStreams_ok.
  - eapply follows_idempotent; [apply optimizeDocumentStructure_follows|].
    intros d. by rewrite optimizeDocumentStructure_ok.
  - intros rc ref key d Hd Hkey. split.
    + eapply deleteIfPresent_absent; [done|]. by apply dictValue_absent.
    + by eapply dictDelete_absent.
Qed.

Definition samplePageDict : Dict :=
  <["Type" := PDFName "Page"]>
  (<["Parent" := PDFRef 10]>
  (<["Thumb" := PDFRef 7]>
  (<["Resources" := PDFRef 3]> ∅))).

Lemma pruning_idempotent_witness :
  dictAt sampleDocument 2 = Some samplePageDict
  /\ samplePageDict !! "Annots" = None
  /\ deleteIfPresent "dict" 2 "Annots" sampleDocument = (Ok tt, sampleDocument)
  /\ dictDelete "dict" 2 "Annots" sampleDocument = (Ok tt, sampleDocument).
Proof.
  assert (dictAt sampleDocument 2 = Some samplePageDict) as Hd by (vm_compute; reflexivity).
  assert (samplePageDict !! "Annots" = None) as Hkey by (vm_compute; reflexivity).
  split; [exact Hd|]. split; [exact Hkey|].
  exact (proj2 (proj2 (proj2 (proj2
           (pruning_idempotent (mkOptions 25 false high) sampleDocument))))
           "dict" 2%N "Annots" samplePageDict Hd Hkey).
Defined.

(** ** The stages of the module worker, as plans *)

Definition basic_removeMetadata_plan : PlanF :=
  pRead (fun doc => Root (trailerInfo doc)) (fun catalog =>
    pSeq (pDel catalog "Metadata") (pEdit ClearInfo)).

Definition basic_removePage_plan (options : Options) (page : N) : PlanF :=
  pSeq (pDel page "Thumb")
       (pWhen (isHigh (compressionLevel options) && negb (preserveQuality options))
          (pDel page "Annots")).

Definition basic_removeUnnecessaryObjects_plan (options : Options) : PlanF :=
  pWhen (Basic.mediumOrHigh (compressionLevel options))
    (pRead pages (fun ps => pEach ps (basic_removePage_plan options))).

Definition basicStages_plan (options : Options) : PlanF :=
  pSeq (pWhen (isHigh (compressionLevel options)) basic_removeMetadata_plan)
    (pSeq pRet (pSeq pRet (basic_removeUnnecessaryObjects_plan options))).

Lemma basic_removeMetadata_follows : follows Basic.removeMetadata basic_removeMetadata_plan.
Proof.
  apply follows_getCatalog. intros catalog.
  apply follows_seq; [by apply follows_del|apply follows_removeInfo].
Qed.

Lemma basic_removeUnnecessaryObjects_follows (options : Options) :
  follows (Basic.removeUnnecessaryObjects options)
          (basic_removeUnnecessaryObjects_plan options).
Proof.
  apply follows_when, follows_getPages. intros ps.
  apply follows_each. intros page _.
  apply follows_seq; [by apply follows_del|].
  apply follows_when. by apply follows_del.
Qed.

Lemma basicStages_follows (options : Options) :
  follows (basicStages options) (basicStages_plan options).
Proof.
  apply follows_seq; [apply follows_when, basic_removeMetadata_follows|].
  apply follows_seq; [apply follows_ret|].
  apply follows_seq; [apply follows_ret|].
  apply basic_removeUnnecessaryObjects_follows.
Qed.

(** ** Which edits a plan can contain *)

Lemma Forall_pSeq (P : Edit -> Prop) (p q : PlanF) (doc : PDFDocument) :
  Forall P (p doc).1 -> Forall P (q doc).1 -> Forall P (pSeq p q doc).1.
Proof.
  intros Hp Hq. unfold pSeq, seqPlan. destruct (p doc).2; simpl; [|done].
  by apply Forall_app.
Qed.

Lemma Forall_pEach {A} (P : Edit -> Prop) (xs : list A) (f : A -> PlanF)
    (doc : PDFDocument) :
  (forall x, Forall P (f x doc).1) -> Forall P (pEach xs f doc).1.
Proof.
  intros Hf. induction xs as [|x xs IH]; simpl; [by constructor|].
  by apply Forall_pSeq.
Qed.

Lemma Forall_pDel (P : Edit -> Prop) (r : N) (key : string) (doc : PDFDocument) :
  P (DelKey r key) -> Forall P (pDel r key doc).1.
Proof. intros H. unfold pDel. destruct (isDictAt doc r); simpl; by repeat constructor. Qed.

Lemma Forall_pWhen (P : Edit -> Prop) (c : bool) (p : PlanF) (doc : PDFDocument) :
  (c = true -> Forall P (p doc).1) -> Forall P (pWhen c p doc).1.
Proof. destruct c; simpl; [auto|by constructor]. Qed.

Lemma pSeq_incl_r (p q : PlanF) (doc : PDFDocument) (e : Edit) :
  (p doc).2 = true -> e ∈ (q doc).1 -> e ∈ (pSeq p q doc).1.
Proof.
  unfold pSeq, seqPlan. intros -> Hin. simpl. apply elem_of_app. by right.
Qed.

Lemma Info_applyEdits_same (es : list Edit) (doc : PDFDocument) :
  Forall (fun e => isClearInfo e = false) es ->
  Info (trailerInfo (applyEdits es doc)) = Info (trailerInfo doc).
Proof.
  intros H. apply Info_applyEdits_keep. intros Hin.
  rewrite Forall_forall in H. by specialize (H _ Hin).
Qed.

(** The final document of the enhanced stages contains every deletion that
    [removeMetadata] planned. *)
Lemma enhancedStages_del (options : Options) (doc : PDFDocument) (r : N) (key : string) :
  DelKey r key ∈ (removeMetadata_plan doc).1 ->
  valueAt (enhancedStages options doc).2 r key = None.
Proof.
  intros Hin. rewrite (follows_state _ _ (enhancedStages_follows options)).
  apply valueAt_applyEdits_del. by apply pSeq_incl_l.
Qed.

Lemma basic_removePages_plan (options : Options) (ps : list N) (doc : PDFDocument) :
  Forall (fun page => isDictAt doc page = true) ps ->
  (pEach ps (basic_removePage_plan options) doc).2 = true
  /\ forall page, page ∈ ps ->
       DelKey page "Thumb" ∈ (pEach ps (basic_removePage_plan options) doc).1.
Proof.
  induction 1 as [|p ps Hp _ [IHok IHin]]; simpl.
  - split; [done|]. intros page Hin. by apply elem_of_nil in Hin.
  - assert ((basic_removePage_plan options p doc).2 = true
            /\ DelKey p "Thumb" ∈ (basic_removePage_plan options p doc).1) as [Hok Hin].
    { unfold basic_removePage_plan, pSeq, seqPlan, pDel, pWhen. rewrite Hp. simpl.
      destruct (isHigh (compressionLevel options) && negb (preserveQuality options));
        simpl; rewrite ?Hp; simpl; split; try done; apply elem_of_cons; by left. }
    split.
    + unfold pSeq, seqPlan. by rewrite Hok.
    + intros page Hpage. apply elem_of_cons in Hpage as [->|Hpage].
      * by apply pSeq_incl_l.
      * apply pSeq_incl_r; auto.
Qed.

Lemma basic_removeMetadata_plan_ok (options : Options) (doc : PDFDocument) :
  isDictAt doc (Root (trailerInfo doc)) = true ->
  (pWhen (isHigh (compressionLevel options)) basic_removeMetadata_plan doc).2 = true.
Proof.
  intros Hc. destruct (isHigh (compressionLevel options)); simpl; [|done].
  unfold basic_removeMetadata_plan, pRead, pSeq, seqPlan, pDel, pEdit. by rewrite Hc.
Qed.

(** On a document whose pages [getPageCount()] computed, no stage of the
    module worker throws: every receiver is the catalog or a page. *)
Lemma basicStages_ok (options : Options) (doc : PDFDocument) :
  pagesComputed doc -> (basicStages options doc).1 = Ok tt.
Proof.
  intros Hdoc.
  pose proof (pagesComputed_catalog doc Hdoc) as Hc.
  pose proof (pagesComputed_pages doc Hdoc) as Hpages.
  destruct (basic_removePages_plan options (pages doc) doc Hpages) as [Hok _].
  pose proof (follows_ok _ _ (basicStages_follows options) doc) as H.
  unfold basicStages_plan, pSeq, seqPlan in H.
  rewrite (basic_removeMetadata_plan_ok options doc Hc) in H. simpl in H.
  unfold basic_removeUnnecessaryObjects_plan, pRead in H.
  destruct (Basic.mediumOrHigh (compressionLevel options)); simpl in H;
    rewrite ?Hok in H; by destruct (basicStages options doc) as [[[]|e] d].
Qed.

Lemma basicStages_run (options : Options) (doc : PDFDocument) :
  basicStages options doc
  = match when_ (isHigh (compressionLevel options)) Basic.removeMetadata doc with
    | (Throw e, doc1) => (Throw e, doc1)
    | (Ok _, doc1) => Basic.removeUnnecessaryObjects options doc1
    end.
Proof.
  unfold basicStages. rewrite bind_run.
  by destruct (when_ _ Basic.removeMetadata doc) as [[[]|e] doc1].
Qed.

(** ** Metadata and thumbnails *)

(** C3 (as amended). Enhanced worker, any level and flag: in the document
    handed to [save], the catalog has no readable Metadata, MarkInfo,
    Outlines, PageLabels, Names, Dests, ViewerPreferences, PageLayout,
    PageMode, Threads or OpenAction entry, the trailer has no Info
    reference, and no inline Names dictionary with an EmbeddedFiles entry is
    left. Module worker: below level high, every catalog entry other than
    Thumb and the Info reference stay as they were; at level high, Metadata
    and the Info reference are removed and the other catalog entries
    stay. *)
Theorem metadata_pruning (options : Options) (doc : PDFDocument) :
  pagesComputed doc ->
  let catalog := Root (trailerInfo doc) in
  (let final := (enhancedStages options doc).2 in
   Forall (fun key => valueAt final catalog key = None)
     ["Metadata"; "MarkInfo"; "Outlines"; "PageLabels"; "Names"; "Dests";
      "ViewerPreferences"; "PageLayout"; "PageMode"; "Threads"; "OpenAction"]
   /\ Info (trailerInfo final) = None
   /\ embeddedFilesAt final catalog = None)
  /\ (compressionLevel options <> high ->
      let final := (basicStages options doc).2 in
      (forall key, key <> "Thumb" -> entryAt final catalog key = entryAt doc catalog key)
      /\ Info (trailerInfo final) = Info (trailerInfo doc))
  /\ (compressionLevel options = high ->
      let final := (basicStages options doc).2 in
      valueAt final catalog "Metadata" = None
      /\ Info (trailerInfo final) = None
      /\ (forall key, key ∉ ["Metadata"; "Thumb"; "Annots"] ->
            entryAt final catalog key = entryAt doc catalog key)).
Proof.
  intros Hdoc catalog.
  pose proof (pagesComputed_catalog doc Hdoc) as Hc.
  pose proof (pagesComputed_pages doc Hdoc) as Hpages.
  split; [|split].
  - intros final.
    pose proof (removeMetadata_plan_full doc Hc Hpages) as Hplan.
    split; [|split].
    + repeat constructor; apply enhancedStages_del; rewrite Hplan;
        (apply elem_of_app; left; set_solver)
        || (apply elem_of_app; right; apply elem_of_app; right; set_solver).
    + subst final. rewrite (follows_state _ _ (enhancedStages_follows options)).
      apply Info_applyEdits_clear, pSeq_incl_l. rewrite Hplan. set_solver.
    + subst final. rewrite (follows_state _ _ (enhancedStages_follows options)).
      apply embeddedFilesAt_applyEdits_del.
      do 3 (apply pSeq_incl_r; [done|]).
      unfold optimizeDocumentStructure_plan, pTry, pRead, pSeq, seqPlan, pWhen, pDel, pEmb.
      rewrite Hc.
      destruct (isHigh (compressionLevel options)); simpl; rewrite ?Hc; simpl; set_solver.
  - intros Hlevel final. subst final.
    rewrite (follows_state _ _ (basicStages_follows options)).
    assert (isHigh (compressionLevel options) = false) as Hhigh
      by (by destruct (compressionLevel options)).
    split.
    + intros key Hkey. apply entryAt_applyEdits_keep.
      unfold basicStages_plan. rewrite Hhigh. simpl pWhen.
      repeat (apply Forall_pSeq; [by constructor|]).
      apply Forall_pWhen. intros _. apply Forall_pEach. intros page.
      apply Forall_pSeq; [apply Forall_pDel; simpl; congruence|].
      rewrite Hhigh. by constructor.
    + apply Info_applyEdits_same.
      unfold basicStages_plan. rewrite Hhigh. simpl pWhen.
      repeat (apply Forall_pSeq; [by constructor|]).
      apply Forall_pWhen. intros _. apply Forall_pEach. intros page.
      apply Forall_pSeq; [by apply Forall_pDel|].
      apply Forall_pWhen. intros _. by apply Forall_pDel.
  - intros Hlevel final. subst final.
    rewrite (follows_state _ _ (basicStages_follows options)).
    assert ((pWhen (isHigh (compressionLevel options)) basic_removeMetadata_plan doc).1
            = [DelKey catalog "Metadata"; ClearInfo]) as Hhead.
    { rewrite Hlevel. unfold basic_removeMetadata_plan, pRead, pSeq, seqPlan, pDel, pEdit.
      simpl. by rewrite Hc. }
    split; [|split].
    + apply valueAt_applyEdits_del, pSeq_incl_l. rewrite Hhead. set_solver.
    + apply Info_applyEdits_clear, pSeq_incl_l. rewrite Hhead. set_solver.
    + intros key Hkey. apply entryAt_applyEdits_keep.
      apply Forall_pSeq.
      * rewrite Hhead. repeat constructor. simpl. set_solver.
      * repeat (apply Forall_pSeq; [by constructor|]).
        apply Forall_pWhen. intros _. apply Forall_pEach. intros page.
        apply Forall_pSeq; [apply Forall_pDel; simpl; set_solver|].
        apply Forall_pWhen. intros _. apply Forall_pDel; simpl; set_solver.
Qed.

Lemma metadata_pruning_witness :
  let low_request := mkOptions 80 true low in
  let high_request := mkOptions 25 false high in
  pagesComputed sampleDocument
  /\ (Forall (fun key => valueAt (enhancedStages low_request sampleDocument).2 1 key = None)
        ["Metadata"; "MarkInfo"; "Outlines"; "PageLabels"; "Names"; "Dests";
         "ViewerPreferences"; "PageLayout"; "PageMode"; "Threads"; "OpenAction"]
      /\ Info (trailerInfo (enhancedStages low_request sampleDocument).2) = None
      /\ embeddedFilesAt (enhancedStages low_request sampleDocument).2 1 = None)
  /\ compressionLevel low_request <> high
  /\ Info (trailerInfo (basicStages low_request sampleDocument).2)
     = Info (trailerInfo sampleDocument)
  /\ compressionLevel high_request = high
  /\ valueAt (basicStages high_request sampleDocument).2 1 "Metadata" = None.
Proof.
  intros low_request high_request.
  assert (pagesComputed sampleDocument) as Hdoc by (vm_compute; reflexivity).
  assert (compressionLevel low_request <> high) as Hlow by discriminate.
  assert (compressionLevel high_request = high) as Hhigh by reflexivity.
  pose proof (metadata_pruning low_request sampleDocument Hdoc) as (E1 & B1 & _).
  pose proof (metadata_pruning high_request sampleDocument Hdoc) as (_ & _ & B2).
  split; [exact Hdoc|]. split; [exact E1|].
  split; [exact Hlow|]. split; [exact (proj2 (B1 Hlow))|].
  split; [exact Hhigh|]. exact (proj1 (B2 Hhigh)).
Defined.

(** C3, as stated, fails in the module worker at level low: the request
    succeeds, and the document that reaches [save] (here returned as the
    output, to look at it) still has its Metadata and PageMode entries, its
    Names dictionary with EmbeddedFiles, and its Info reference. *)
Lemma metadata_pruning_counterexample :
  let options := mkOptions 80 true low in
  let outbox :=
    Basic.onmessage (fun name => name) (fun _ => 1000%Z)
      (fun _ => Ok (sampleContext sampleImage))
      (fun pdfDoc _ => Ok pdfDoc) sampleDocument options in
  (exists ratio, last outbox = Some (Complete sampleDocument 1000 1000 ratio))
  /\ valueAt sampleDocument 1 "Metadata" = Some (PDFRef 9)
  /\ valueAt sampleDocument 1 "PageMode" = Some (PDFName "UseOutlines")
  /\ valueAt sampleDocument 1 "Names"
     = Some (PDFDict (<["EmbeddedFiles" := PDFRef 8]> ∅))
  /\ Info (trailerInfo sampleDocument) = Some (PDFRef 6).
Proof.
  cbv zeta. split; [|split; [|split; [|split]]].
  - eexists. by vm_compute.
  - by vm_compute.
  - by vm_compute.
  - by vm_compute.
  - reflexivity.
Qed.

(** C5 (as amended). Enhanced worker, any level: no page of the document
    handed to [save] has a readable Thumb entry. Module worker: at level
    low the stages leave the document exactly as it was, thumbnails
    included; at medium and high the stages end without error and no page
    has a readable Thumb entry. *)
Theorem thumbnail_pruning (options : Options) (doc : PDFDocument) :
  pagesComputed doc ->
  Forall (fun page => valueAt (enhancedStages options doc).2 page "Thumb" = None)
    (pages doc)
  /\ (compressionLevel options = low -> basicStages options doc = (Ok tt, doc))
  /\ (compressionLevel options <> low ->
      (basicStages options doc).1 = Ok tt
      /\ Forall (fun page => valueAt (basicStages options doc).2 page "Thumb" = None)
           (pages doc)).
Proof.
  intros Hdoc.
  pose proof (pagesComputed_catalog doc Hdoc) as Hc.
  pose proof (pagesComputed_pages doc Hdoc) as Hpages.
  split; [|split].
  - apply Forall_forall. intros page Hpage.
    apply enhancedStages_del. rewrite (removeMetadata_plan_full doc Hc Hpages).
    apply elem_of_app; right; apply elem_of_app; left.
    apply list_elem_of_fmap. eauto.
  - intros Hlevel. unfold basicStages, Basic.removeUnnecessaryObjects.
    by rewrite Hlevel.
  - intros Hlevel.
    assert (Basic.mediumOrHigh (compressionLevel options) = true) as Hmh
      by (by destruct (compressionLevel options)).
    destruct (basic_removePages_plan options (pages doc) doc Hpages) as [Hok Hin].
    split; [by apply basicStages_ok|].
    apply Forall_forall. intros page Hpage.
    rewrite (follows_state _ _ (basicStages_follows options)).
    apply valueAt_applyEdits_del.
    apply pSeq_incl_r; [by apply basic_removeMetadata_plan_ok|].
    apply pSeq_incl_r; [done|]. apply pSeq_incl_r; [done|].
    unfold basic_removeUnnecessaryObjects_plan, pRead. rewrite Hmh. simpl.
    by apply Hin.
Qed.

Lemma thumbnail_pruning_witness :
  let low_request := mkOptions 80 true low in
  let medium_request := mkOptions 50 false medium in
  pagesComputed sampleDocument
  /\ Forall (fun page => valueAt (enhancedStages low_request sampleDocument).2 page "Thumb"
                         = None) (pages sampleDocument)
  /\ compressionLevel low_request = low
  /\ basicStages low_request sampleDocument = (Ok tt, sampleDocument)
  /\ compressionLevel medium_request <> low
  /\ Forall (fun page => valueAt (basicStages medium_request sampleDocument).2 page "Thumb"
                         = None) (pages sampleDocument).
Proof.
  intros low_request medium_request.
  assert (pagesComputed sampleDocument) as Hdoc by (vm_compute; reflexivity).
  assert (compressionLevel low_request = low) as Hlow by reflexivity.
  assert (compressionLevel medium_request <> low) as Hmedium by discriminate.
  pose proof (thumbnail_pruning low_request sampleDocument Hdoc) as (E & B1 & _).
  pose proof (thumbnail_pruning medium_request sampleDocument Hdoc) as (_ & _ & B2).
  split; [exact Hdoc|]. split; [exact E|].
  split; [exact Hlow|]. split; [exact (B1 Hlow)|].
  split; [exact Hmedium|]. exact (proj2 (B2 Hmedium)).
Defined.

(** C5, as stated, fails in the module worker at level low: the request
    succeeds and the page of the document that reaches [save] still has its
    Thumb entry. *)
Lemma thumbnail_pruning_counterexample :
  let options := mkOptions 80 true low in
  let outbox :=
    Basic.onmessage (fun name => name) (fun _ => 1000%Z)
      (fun _ => Ok (sampleContext sampleImage))
      (fun pdfDoc _ => Ok pdfDoc) sampleDocument options in
  (exists ratio, last outbox = Some (Complete sampleDocument 1000 1000 ratio))
  /\ pages sampleDocument = [2%N]
  /\ valueAt sampleDocument 2 "Thumb" = Some (PDFRef 7).
Proof.
  cbv zeta. split; [|split].
  - eexists. by vm_compute.
  - reflexivity.
  - by vm_compute.
Qed.

(** ** Failures inside a stage *)

(** Two pages with a transition each; the first names a resource
    dictionary, object 9, that is not in the file. *)
Definition danglingDocument : PDFDocument :=
  mkPDFDocument
    (<[1%N := PDFDict (<["Type" := PDFName "Catalog"]> (<["Pages" := PDFRef 10]> ∅))]>
    (<[2%N := PDFDict (<["Type" := PDFName "Page"]>
                      (<["Trans" := PDFDict ∅]>
                      (<["Resources" := PDFRef 9]> ∅)))]>
    (<[3%N := PDFDict (<["Type" := PDFName "Page"]>
                      (<["Trans" := PDFDict ∅]> ∅))]>
    (<[10%N := PDFDict (<["Type" := PDFName "Pages"]>
                       (<["Kids" := PDFArray [PDFRef 2; PDFRef 3]]> ∅))]> ∅))))
    (mkTrailerInfo 1 None)
    [2%N; 3%N].

Lemma danglingDocument_pagesComputed : pagesComputed danglingDocument.
Proof. by vm_compute. Qed.

(** At level high the page loop of [optimizeContentStreams] throws on the
    first page of [danglingDocument], inside [optimizeResourcesDictionary];
    the stage catches it, and the request completes. *)
Example enhanced_stage_failure_caught :
  let options := mkOptions 25 false high in
  let outbox :=
    Enhanced.onmessage (fun name => name) (fun _ => 1000%Z)
      (fun _ => Ok (contextOf danglingDocument))
      (fun pdfDoc _ => Ok pdfDoc) danglingDocument options in
  isOk ((pages ← getPages; forEach pages (Enhanced.optimizePage options))
          danglingDocument).1 = false
  /\ (Enhanced.optimizeContentStreams options danglingDocument).1 = Ok tt
  /\ progressValues outbox = [5; 10; 15; 25; 40; 70; 85; 100]%Z
  /\ exists final ratio, last outbox = Some (Complete final 1000 1000 ratio).
Proof.
  cbv zeta. split; [by vm_compute|]. split; [by vm_compute|]. split; [by vm_compute|].
  do 2 eexists. by vm_compute.
Qed.

Section Requests.
Context {Bytes : Type}.
Variable builtName : string -> string.
Variable byteLength : Bytes -> Z.
Variable load : Bytes -> Result PDFContext.
Variable save : PDFDocument -> SaveOptions -> Result Bytes.

(** C2. The fatal first step is [PDFDocument.load] with the page count
    taken right after it, both before the first stage. Once they have
    succeeded: every
    interior stage of the enhanced worker returns normally whatever happens
    inside it, on every document; the stages of the module worker have no
    handler but cannot fail, their receivers being the catalog and the
    pages; so in both workers every milestone of the stages is posted,
    [save] gets the document the stages left, and the terminal message is
    the error of [save] or the result. A request whose load or page count
    fails ends with that error before any stage has run. *)
Theorem stage_failure_isolation (file : Bytes) (options : Options) (ctx : PDFContext)
    (doc : PDFDocument) :
  load file = Ok ctx ->
  getPageCount builtName ctx = Ok doc ->
  (forall doc',
     (Enhanced.removeMetadata doc').1 = Ok tt
     /\ (Enhanced.optimizeContentStreams options doc').1 = Ok tt
     /\ (Enhanced.processImages options doc').1 = Ok []
     /\ (Enhanced.optimizeDocumentStructure options doc').1 = Ok tt)
  /\ Enhanced.onmessage builtName byteLength load save file options
     = [Progress 5 "Loading PDF document...";
        Progress 10 "Analyzing document structure...";
        Progress 15 "Removing unnecessary metadata...";
        Progress 25 "Optimizing content streams...";
        Progress 40 "Processing embedded images...";
        Progress 70 "Optimizing document structure...";
        Progress 85 "Finalizing compressed document..."] ++
       match save (enhancedStages options doc).2 (Enhanced.saveOptions options) with
       | Throw e => [Error (errorText e)]
       | Ok bytes =>
           [Progress 100 "Compression complete!";
            Complete bytes (byteLength file) (byteLength bytes)
              (compressionRatioOf (byteLength file) (byteLength bytes))]
       end
  /\ (basicStages options doc).1 = Ok tt
  /\ Basic.onmessage builtName byteLength load save file options
     = [Progress 10 "Loading PDF document...";
        Progress 20 "Analyzing document structure...";
        Progress 30 "Applying compression strategies..."] ++
       (if isHigh (compressionLevel options)
        then [Progress 35 "Removed unnecessary metadata..."] else []) ++
       [Progress 50 "Optimized content streams...";
        Progress 70 "Processed images...";
        Progress 80 "Removed unnecessary objects...";
        Progress 90 "Finalizing compressed document..."] ++
       match save (basicStages options doc).2 (Basic.saveOptions options) with
       | Throw e => [Error (errorText e)]
       | Ok bytes =>
           [Progress 100 "Compression complete!";
            Complete bytes (byteLength file) (byteLength bytes)
              (compressionRatioOf (byteLength file) (byteLength bytes))]
       end
  /\ (forall file' e,
        load file' = Throw e ->
        Enhanced.onmessage builtName byteLength load save file' options
        = [Progress 5 "Loading PDF document..."; Error (errorText e)]
        /\ Basic.onmessage builtName byteLength load save file' options
           = [Progress 10 "Loading PDF document..."; Error (errorText e)])
  /\ (forall file' ctx' e,
        load file' = Ok ctx' -> getPageCount builtName ctx' = Throw e ->
        Enhanced.onmessage builtName byteLength load save file' options
        = [Progress 5 "Loading PDF document...";
           Progress 10 "Analyzing document structure..."; Error (errorText e)]
        /\ Basic.onmessage builtName byteLength load save file' options
           = [Progress 10 "Loading PDF document...";
              Progress 20 "Analyzing document structure..."; Error (errorText e)]).
Proof.
  intros Hload Hcount.
  destruct (getPageCount_pagesComputed _ _ _ Hcount) as [Hdoc _].
  pose proof (basicStages_ok options doc Hdoc) as Hok.
  split; [|split; [|split; [|split; [|split]]]].
  - intros doc'. split; [apply removeMetadata_ok|].
    split; [apply optimizeContentStreams_ok|].
    split; [|apply optimizeDocumentStructure_ok].
    by rewrite processImages_run.
  - by rewrite Enhanced_onmessage_run, Hload, Hcount.
  - exact Hok.
  - rewrite Basic_onmessage_run, Hload, Hcount.
    rewrite basicStages_run in Hok |- *.
    destruct (when_ _ Basic.removeMetadata doc) as [[[]|e1] doc1]; [|done].
    destruct (Basic.removeUnnecessaryObjects options doc1) as [[[]|e2] doc2]; [|done].
    cbn [snd]. by destruct (isHigh (compressionLevel options)).
  - intros file' e Hfail.
    by rewrite Enhanced_onmessage_run, Basic_onmessage_run, Hfail.
  - intros file' ctx' e Hload' Hfail.
    by rewrite Enhanced_onmessage_run, Basic_onmessage_run, Hload', Hfail.
Qed.
End Requests.

Lemma stage_failure_isolation_witness :
  let options := mkOptions 25 false high in
  let builtName := fun name : string => name in
  let load := fun _ : PDFDocument => Ok (contextOf danglingDocument) in
  let save := fun (pdfDoc : PDFDocument) (_ : SaveOptions) => Ok pdfDoc in
  load danglingDocument = Ok (contextOf danglingDocument)
  /\ getPageCount builtName (contextOf danglingDocument) = Ok danglingDocument
  /\ (basicStages options danglingDocument).1 = Ok tt
  /\ (Enhanced.optimizeContentStreams options danglingDocument).1 = Ok tt.
Proof.
  intros options builtName load save.
  assert (load danglingDocument = Ok (contextOf danglingDocument)) as Hload by reflexivity.
  assert (getPageCount builtName (contextOf danglingDocument) = Ok danglingDocument)
    as Hcount by (vm_compute; reflexivity).
  pose proof (stage_failure_isolation builtName (fun _ => 1000%Z) load save
                danglingDocument options (contextOf danglingDocument) danglingDocument
                Hload Hcount) as (Hstages & _ & Hbasic & _).
  split; [exact Hload|]. split; [exact Hcount|]. split; [exact Hbasic|].
  exact (proj1 (proj2 (Hstages danglingDocument))).
Defined.

(** ** The reported ratio *)


Section Ratio.
Context {Bytes : Type}.
Variable builtName : string -> string.
Variable byteLength : Bytes -> Z.
Variable load : Bytes -> Result PDFContext.
Variable save : PDFDocument -> SaveOptions -> Result Bytes.


End Ratio.


(** ** Progress *)

(** What the host may rely on in an outbox: progress values never decrease;
    the messages before the last are all progress messages; the last message
    is the result, preceded by progress 100, or an error, and then 100 was
    never posted. *)
Definition progressContract {Bytes} (outbox : list (Message Bytes)) : Prop :=
  StronglySorted Z.le (progressValues outbox)
  /\ Forall (fun m => is_Some (progressOf m)) (removelast outbox)
  /\ match last outbox with
     | Some (Complete _ _ _ _) =>
         last (progressValues outbox) = Some 100%Z
         /\ 100%Z ∉ removelast (progressValues outbox)
     | Some (Error _) => 100%Z ∉ progressValues outbox
     | _ => False
     end.

Ltac solve_contract :=
  unfold progressContract; simpl;
  split; [repeat constructor; lia|];
  split; [repeat constructor; eauto|];
  repeat split; try (intros Hin; repeat (apply elem_of_cons in Hin as [Hin|Hin]; [lia|]);
                     by apply elem_of_nil in Hin).

Section Progress.
Context {Bytes : Type}.
Variable builtName : string -> string.
Variable byteLength : Bytes -> Z.
Variable load : Bytes -> Result PDFContext.
Variable save : PDFDocument -> SaveOptions -> Result Bytes.

(** C8. For every request, in each of the three workers: the progress
    percentages are posted in non-decreasing order; a request that ends
    with the result posted 100 as its last progress value and nowhere
    before; a request that ends with an error never posted 100. *)
Theorem progress_monotone (file : Bytes) (options : Options) :
  progressContract (Enhanced.onmessage builtName byteLength load save file options)
  /\ progressContract (Basic.onmessage builtName byteLength load save file options)
  /\ progressContract (Inline.onmessage builtName byteLength load save file options).
Proof.
  rewrite Enhanced_onmessage_run, Basic_onmessage_run, Inline_onmessage_run.
  destruct (load file) as [ctx|e0]; [destruct (getPageCount builtName ctx) as [doc|e]|].
  - split; [|split].
    + destruct (save (enhancedStages options doc).2 _) as [b1|e1]; solve_contract.
    + destruct (when_ _ Basic.removeMetadata doc) as [[[]|e4] doc1];
        [|solve_contract].
      destruct (Basic.removeUnnecessaryObjects options doc1) as [[[]|e5] doc2];
        [|destruct (isHigh (compressionLevel options)); solve_contract].
      destruct (save doc2 _) as [b2|e2];
        destruct (isHigh (compressionLevel options)); solve_contract.
    + destruct (save doc Inline.saveOptions) as [b3|e3]; solve_contract.
  - split; [|split]; solve_contract.
  - split; [|split]; solve_contract.
Qed.
End Progress.

(** * Further properties of the workers *)

(** ** What a list of edits does to one object *)

Definition editsDict (es : list Edit) (r : N) (d : Dict) : Dict :=
  foldl (fun d e => editDict e r d) d es.

Lemma lookup_applyEdits (es : list Edit) (doc : PDFDocument) (r : N) :
  indirectObjects (applyEdits es doc) !! r
  = updDict (editsDict es r) <$> indirectObjects doc !! r.
Proof.
  revert doc. induction es as [|e es IH]; intros doc; simpl.
  - destruct (indirectObjects doc !! r) as [o|]; simpl; [|done]. by destruct o.
  - rewrite IH, lookup_applyEdit.
    destruct (indirectObjects doc !! r) as [o|]; simpl; [|done].
    by rewrite updDict_compose.
Qed.

Lemma pages_applyEdits (es : list Edit) (doc : PDFDocument) :
  pages (applyEdits es doc) = pages doc.
Proof.
  revert doc. induction es as [|e es IH]; intros doc; simpl; [done|].
  by rewrite IH, pages_applyEdit.
Qed.

Lemma Root_applyEdits (es : list Edit) (doc : PDFDocument) :
  Root (trailerInfo (applyEdits es doc)) = Root (trailerInfo doc).
Proof.
  revert doc. induction es as [|e es IH]; intros doc; simpl; [done|].
  by rewrite IH, Root_applyEdit.
Qed.

Lemma dictAt_applyEdits (es : list Edit) (doc : PDFDocument) (r : N) :
  dictAt (applyEdits es doc) r = editsDict es r <$> dictAt doc r.
Proof.
  unfold dictAt, lookup_ref. rewrite lookup_applyEdits.
  destruct (indirectObjects doc !! r) as [o|]; simpl; [|done].
  apply asDict_updDict.
Qed.

Definition isDelEmbedded (e : Edit) : bool :=
  match e with DelEmbedded _ => true | _ => false end.

Lemma editDict_lookup_Some (e : Edit) (r : N) (d : Dict) (key : string) (v : PDFObject) :
  editDict e r d !! key = Some v ->
  exists v0, d !! key = Some v0
             /\ (v = v0 \/ (isDelEmbedded e = true /\ key = "Names" /\ v = dropEmbedded v0)).
Proof.
  destruct e as [ref k| |ref]; simpl; try (by eauto);
    destruct (decide (ref = r)); try (by eauto).
  - intros H%prune_lookup_Some. eauto.
  - intros [[<- (v0 & Hv0 & ->)]|[_ H]]%lookup_alter_Some; eauto 10.
Qed.

Lemma editsDict_lookup_Some (es : list Edit) (r : N) (d : Dict) (key : string)
    (v : PDFObject) :
  editsDict es r d !! key = Some v ->
  exists v0, d !! key = Some v0
             /\ (v = v0
                 \/ (Exists (fun e => isDelEmbedded e = true) es
                     /\ key = "Names" /\ v = dropEmbedded v0)).
Proof.
  unfold editsDict. revert d. induction es as [|e es IH]; intros d; simpl.
  { intros H. exists v. eauto. }
  intros (v1 & Hv1 & Hv)%IH.
  apply editDict_lookup_Some in Hv1 as (v0 & Hv0 & Hv1).
  exists v0. split; [done|].
  destruct Hv as [->|(Hex & -> & ->)], Hv1 as [->|(He & Hkey & ->)].
  - by left.
  - right. split; [by left|]. done.
  - right. split; [by right|]. done.
  - right. split; [by right|]. by rewrite dropEmbedded_idemp.
Qed.

(** ** Structure and entries across the stages *)

(** A dictionary object stays a dictionary object; every other object, a
    stream included, is unchanged. *)
Definition sameKind (o o' : PDFObject) : Prop :=
  match o, o' with
  | PDFDict _, PDFDict _ => True
  | _, _ => o = o'
  end.

Definition keepsStructure (doc final : PDFDocument) : Prop :=
  pages final = pages doc
  /\ Root (trailerInfo final) = Root (trailerInfo doc)
  /\ forall r,
       match lookup_ref doc r with
       | None => lookup_ref final r = None
       | Some o => exists o', lookup_ref final r = Some o' /\ sameKind o o'
       end.

Lemma applyEdits_keepsStructure (es : list Edit) (doc : PDFDocument) :
  keepsStructure doc (applyEdits es doc).
Proof.
  split; [apply pages_applyEdits|]. split; [apply Root_applyEdits|].
  intros r. unfold lookup_ref. rewrite lookup_applyEdits.
  destruct (indirectObjects doc !! r) as [o|]; simpl; [|done].
  eexists. split; [done|]. by destruct o.
Qed.

(** X1. Whatever the options and the document, and whether or not a stage
    fails on the way, the interior stages of the enhanced and of the module
    worker leave the page list and the root reference alone, neither add nor
    drop an indirect object, and keep every object's kind: a dictionary
    object stays a dictionary object, and every other object, a stream
    included, is unchanged. *)
Theorem stages_keep_structure (options : Options) (doc : PDFDocument) :
  keepsStructure doc (enhancedStages options doc).2
  /\ keepsStructure doc (basicStages options doc).2.
Proof.
  split.
  - rewrite (follows_state _ _ (enhancedStages_follows options)).
    apply applyEdits_keepsStructure.
  - rewrite (follows_state _ _ (basicStages_follows options)).
    apply applyEdits_keepsStructure.
Qed.

Lemma Forall_pTry (P : Edit -> Prop) (p : PlanF) (doc : PDFDocument) :
  Forall P (p doc).1 -> Forall P (pTry p doc).1.
Proof. done. Qed.

Lemma Forall_pEmb (P : Edit -> Prop) (r : N) (doc : PDFDocument) :
  P (DelEmbedded r) -> Forall P (pEmb r doc).1.
Proof. intros H. unfold pEmb. destruct (isDictAt doc r); simpl; by repeat constructor. Qed.

Lemma Forall_pResources (P : Edit -> Prop) (r : N) (k : option PDFObject -> PlanF)
    (doc : PDFDocument) :
  (forall v, Forall P (k v doc).1) -> Forall P (pResources r k doc).1.
Proof. intros H. unfold pResources. destruct (isDictAt doc r); [apply H|by constructor]. Qed.

(** The keys the enhanced worker may delete under given options. *)
Definition removedKeys (options : Options) : list string :=
  ["Metadata"; "MarkInfo"; "Outlines"; "Thumb"] ++ Enhanced.unnecessaryEntries
  ++ (if isHigh (compressionLevel options)
      then (if preserveQuality options then [] else ["Annots"])
           ++ Enhanced.pageEntriesToRemove
           ++ (if preserveQuality options then [] else ["ProcSet"])
           ++ ["StructTreeRoot"; "OCProperties"]
      else []).

(** The keys the module worker may delete under given options. *)
Definition basicRemovedKeys (options : Options) : list string :=
  (if isHigh (compressionLevel options) then ["Metadata"] else [])
  ++ (if Basic.mediumOrHigh (compressionLevel options) then ["Thumb"] else [])
  ++ (if isHigh (compressionLevel options) && negb (preserveQuality options)
      then ["Annots"] else []).

Definition deletesOnly (keys : list string) (e : Edit) : Prop :=
  match e with DelKey _ key => key ∈ keys | _ => True end.

Lemma Forall_pEach_in {A} (P : Edit -> Prop) (xs : list A) (f : A -> PlanF)
    (doc : PDFDocument) :
  (forall x, x ∈ xs -> Forall P (f x doc).1) -> Forall P (pEach xs f doc).1.
Proof.
  intros Hf. induction xs as [|x xs IH]; simpl; [by constructor|].
  apply Forall_pSeq; [apply Hf; by left|].
  apply IH. intros y Hy. apply Hf. by right.
Qed.

Ltac in_keys :=
  unfold deletesOnly; cbv beta iota;
  rewrite ?elem_of_app, ?elem_of_cons; naive_solver.

Lemma enhancedStages_plan_keys (options : Options) (doc : PDFDocument) :
  Forall (deletesOnly (removedKeys options)) (enhancedStages_plan options doc).1.
Proof.
  unfold enhancedStages_plan, removedKeys.
  apply Forall_pSeq; [|apply Forall_pSeq; [|apply Forall_pSeq; [by constructor|]]].
  - apply Forall_pTry. unfold pRead.
    repeat (apply Forall_pSeq; [first [apply Forall_pDel|by repeat constructor];
                                in_keys|]).
    apply Forall_pSeq.
    + apply Forall_pEach. intros page. apply Forall_pDel. in_keys.
    + apply Forall_pEach_in. intros entry Hentry. apply Forall_pDel. in_keys.
  - apply Forall_pTry. unfold pRead. apply Forall_pEach. intros page.
    apply Forall_pSeq.
    + apply Forall_pWhen. intros ->. apply Forall_pSeq.
      * apply Forall_pWhen. intros ->%negb_true_iff. apply Forall_pDel. in_keys.
      * apply Forall_pEach_in. intros entry Hentry. apply Forall_pDel. in_keys.
    + apply Forall_pResources. intros [[]|]; try (by constructor).
      apply Forall_pWhen. intros [-> ->%negb_true_iff]%andb_true_iff.
      apply Forall_pDel. in_keys.
  - apply Forall_pTry. unfold pRead.
    apply Forall_pSeq; [apply Forall_pWhen; intros ->; apply Forall_pDel; in_keys|].
    apply Forall_pSeq; [apply Forall_pWhen; intros ->; apply Forall_pDel; in_keys|].
    by apply Forall_pEmb.
Qed.

Lemma basicStages_plan_keys (options : Options) (doc : PDFDocument) :
  Forall (fun e => deletesOnly (basicRemovedKeys options) e /\ isDelEmbedded e = false)
    (basicStages_plan options doc).1.
Proof.
  unfold basicStages_plan, basicRemovedKeys.
  apply Forall_pSeq; [|repeat (apply Forall_pSeq; [by constructor|])].
  - apply Forall_pWhen. intros ->. unfold basic_removeMetadata_plan, pRead.
    apply Forall_pSeq; [apply Forall_pDel; in_keys|by repeat constructor].
  - apply Forall_pWhen. intros ->. unfold pRead. apply Forall_pEach. intros page.
    apply Forall_pSeq; [apply Forall_pDel; in_keys|].
    apply Forall_pWhen. intros ->. apply Forall_pDel. in_keys.
Qed.

Lemma deletesOnly_keepsKey (keys : list string) (key : string) (e : Edit) :
  key ∉ keys -> key <> "Names" -> deletesOnly keys e -> keepsKey key e.
Proof. intros Hkey Hnames. destruct e; simpl; [|done..]. by intros ? ->. Qed.

(** X3. An entry whose key is not among those the worker deletes under the
    request's options is the same after the interior stages as before, on
    every object of the document: for the enhanced worker the keys of
    [removedKeys] (which grow with level high and shrink with the
    preserve-quality flag), for the module worker those of
    [basicRemovedKeys]. *)
Theorem stages_frame (options : Options) (doc : PDFDocument) (r : N) (key : string) :
  (key ∉ removedKeys options ->
   entryAt (enhancedStages options doc).2 r key = entryAt doc r key)
  /\ (key ∉ basicRemovedKeys options ->
      entryAt (basicStages options doc).2 r key = entryAt doc r key).
Proof.
  split; intros Hkey.
  - rewrite (follows_state _ _ (enhancedStages_follows options)).
    apply entryAt_applyEdits_keep.
    eapply Forall_impl; [apply enhancedStages_plan_keys|].
    intros e. apply deletesOnly_keepsKey; [done|].
    intros ->. apply Hkey. unfold removedKeys, Enhanced.unnecessaryEntries.
    rewrite ?elem_of_app, ?elem_of_cons. naive_solver.
  - rewrite (follows_state _ _ (basicStages_follows options)).
    apply entryAt_applyEdits_keep.
    eapply Forall_impl; [apply basicStages_plan_keys|].
    intros e [He Hemb]. destruct e; simpl in *; try done. by intros ->.
Qed.

Lemma stages_frame_witness :
  let options := mkOptions 80 true high in
  ("Resources" ∉ removedKeys options)
  /\ ("Annots" ∉ removedKeys options)
  /\ entryAt (enhancedStages options sampleDocument).2 2 "Resources" = Some (PDFRef 3)
  /\ ("Metadata" ∉ basicRemovedKeys (mkOptions 80 true medium))
  /\ entryAt (basicStages (mkOptions 80 true medium) sampleDocument).2 1 "Metadata"
     = Some (PDFRef 9).
Proof.
  intros options.
  assert ("Resources" ∉ removedKeys options) as H1
    by (apply (bool_decide_unpack _); vm_compute; reflexivity).
  assert ("Annots" ∉ removedKeys options) as H2
    by (apply (bool_decide_unpack _); vm_compute; reflexivity).
  assert ("Metadata" ∉ basicRemovedKeys (mkOptions 80 true medium)) as H3
    by (apply (bool_decide_unpack _); vm_compute; reflexivity).
  split; [exact H1|]. split; [exact H2|]. split.
  - rewrite (proj1 (stages_frame options sampleDocument 2 "Resources") H1).
    vm_compute. reflexivity.
  - split; [exact H3|].
    rewrite (proj2 (stages_frame (mkOptions 80 true medium) sampleDocument 1 "Metadata") H3).
    vm_compute. reflexivity.
Defined.

(** X2. The interior stages only remove entries: an entry found on an
    object after the stages of the enhanced worker was there before with the
    same value, except that an inline Names dictionary may have lost its
    EmbeddedFiles entry; after the stages of the module worker it was there
    before with the same value. *)
Theorem stages_only_remove (options : Options) (doc : PDFDocument) (r : N)
    (key : string) (v : PDFObject) :
  (entryAt (enhancedStages options doc).2 r key = Some v ->
   exists v0, entryAt doc r key = Some v0
              /\ (v = v0 \/ (key = "Names" /\ v = dropEmbedded v0)))
  /\ (entryAt (basicStages options doc).2 r key = Some v ->
      entryAt doc r key = Some v).
Proof.
  split.
  - rewrite (follows_state _ _ (enhancedStages_follows options)).
    unfold entryAt. rewrite dictAt_applyEdits.
    destruct (dictAt doc r) as [d|]; simpl; [|done].
    intros (v0 & Hv0 & Hv)%editsDict_lookup_Some. exists v0. split; [done|].
    destruct Hv as [->|(_ & -> & ->)]; eauto.
  - rewrite (follows_state _ _ (basicStages_follows options)).
    unfold entryAt. rewrite dictAt_applyEdits.
    destruct (dictAt doc r) as [d|]; simpl; [|done].
    intros (v0 & Hv0 & Hv)%editsDict_lookup_Some.
    destruct Hv as [->|(Hex & _)]; [done|].
    apply Exists_exists in Hex as (e & Hin & He).
    pose proof (basicStages_plan_keys options doc) as Hkeys.
    rewrite Forall_forall in Hkeys. destruct (Hkeys e Hin) as [_ Hno]. congruence.
Qed.

Lemma stages_only_remove_witness :
  let options := mkOptions 80 true low in
  entryAt (enhancedStages options sampleDocument).2 2 "Resources" = Some (PDFRef 3)
  /\ exists v0, entryAt sampleDocument 2 "Resources" = Some v0
                /\ (PDFRef 3 = v0 \/ ("Resources" = "Names" /\ PDFRef 3 = dropEmbedded v0)).
Proof.
  intros options.
  assert (entryAt (enhancedStages options sampleDocument).2 2 "Resources" = Some (PDFRef 3))
    as H by (vm_compute; reflexivity).
  split; [exact H|].
  exact (proj1 (stages_only_remove options sampleDocument 2 "Resources" (PDFRef 3)) H).
Defined.


(** ** Gating by level and by the preserve-quality flag *)

Lemma Forall_False_nil {A} (l : list A) : Forall (fun _ => False) l -> l = [].
Proof. by destruct 1. Qed.

Lemma optimizeContentStreams_plan_low (options : Options) (doc : PDFDocument) :
  isHigh (compressionLevel options) = false ->
  (optimizeContentStreams_plan options doc).1 = [].
Proof.
  intros Hlevel. apply Forall_False_nil.
  apply Forall_pTry. unfold pRead. apply Forall_pEach. intros page.
  apply Forall_pSeq.
  - apply Forall_pWhen. congruence.
  - apply Forall_pResources. intros [[]|]; try (by constructor).
    unfold optimizeResourcesDictionary_plan. rewrite Hlevel. by constructor.
Qed.

(** X4. Below level high the enhanced worker's content-stream stage is the
    identity: it ends without error and returns the document it was given,
    even when a Resources reference does not resolve. *)
Theorem optimizeContentStreams_below_high (options : Options) (doc : PDFDocument) :
  compressionLevel options <> high ->
  Enhanced.optimizeContentStreams options doc = (Ok tt, doc).
Proof.
  intros Hlevel.
  assert (isHigh (compressionLevel options) = false) as Hhigh
    by (by destruct (compressionLevel options)).
  apply run_unit_eq; [by rewrite optimizeContentStreams_ok|].
  rewrite (follows_state _ _ (optimizeContentStreams_follows options)).
  by rewrite (optimizeContentStreams_plan_low options doc Hhigh).
Qed.

Lemma optimizeContentStreams_below_high_witness :
  compressionLevel (mkOptions 10 false medium) <> high
  /\ Enhanced.optimizeContentStreams (mkOptions 10 false medium) danglingDocument
     = (Ok tt, danglingDocument).
Proof.
  assert (compressionLevel (mkOptions 10 false medium) <> high) as H by discriminate.
  split; [exact H|].
  exact (optimizeContentStreams_below_high (mkOptions 10 false medium) danglingDocument H).
Defined.

(** ** What level high removes *)

Lemma pEach_ok {A} (xs : list A) (f : A -> PlanF) (doc : PDFDocument) :
  (forall x, x ∈ xs -> (f x doc).2 = true) ->
  (pEach xs f doc).2 = true
  /\ forall x e, x ∈ xs -> e ∈ (f x doc).1 -> e ∈ (pEach xs f doc).1.
Proof.
  induction xs as [|x xs IH]; intros Hok; simpl.
  - split; [done|]. intros x e Hx. by apply elem_of_nil in Hx.
  - destruct IH as [IHok IHin]; [intros y Hy; apply Hok; by right|].
    assert ((f x doc).2 = true) as Hx by (apply Hok; by left).
    split; [unfold pSeq, seqPlan; by rewrite Hx|].
    intros y e [->|Hy]%elem_of_cons He.
    + by apply pSeq_incl_l.
    + apply pSeq_incl_r; eauto.
Qed.

(** A page ready for [optimizePage]: it resolves to a dictionary, and when
    the ProcSet is to go, so does the Resources reference if there is one. *)
Definition pageReady (options : Options) (doc : PDFDocument) (page : N) : Prop :=
  isDictAt doc page = true
  /\ (preserveQuality options = false ->
      forall res, entryAt doc page "Resources" = Some (PDFRef res) ->
                  isDictAt doc res = true).

Lemma valueAt_ref (doc : PDFDocument) (r : N) (key : string) (n : N) :
  entryAt doc r key = Some (PDFRef n) -> valueAt doc r key = Some (PDFRef n).
Proof. intros H. by rewrite valueAt_entryAt, H. Qed.

Lemma optimizePage_plan_high (options : Options) (doc : PDFDocument) (page : N) :
  compressionLevel options = high ->
  pageReady options doc page ->
  (optimizePage_plan options page doc).2 = true
  /\ (forall key, key ∈ Enhanced.pageEntriesToRemove ->
        DelKey page key ∈ (optimizePage_plan options page doc).1)
  /\ (preserveQuality options = false ->
      DelKey page "Annots" ∈ (optimizePage_plan options page doc).1
      /\ forall res, entryAt doc page "Resources" = Some (PDFRef res) ->
           DelKey res "ProcSet" ∈ (optimizePage_plan options page doc).1).
Proof.
  intros Hlevel [Hpage Hres].
  assert (pWhen (isHigh (compressionLevel options))
            (pSeq (pWhen (negb (preserveQuality options)) (pDel page "Annots"))
               (pEach Enhanced.pageEntriesToRemove (fun entry => pDel page entry))) doc
          = ((if preserveQuality options then [] else [DelKey page "Annots"])
             ++ map (DelKey page) Enhanced.pageEntriesToRemove, true)) as Hfirst.
  { rewrite Hlevel. cbn [pWhen isHigh]. unfold pSeq, seqPlan.
    rewrite (pEach_pDel_keys _ _ _ Hpage).
    destruct (preserveQuality options); simpl; [done|].
    unfold pDel. by rewrite Hpage. }
  assert (optimizePage_plan options page doc
          = let rest := match valueAt doc page "Resources" with
                        | Some (PDFRef resources) =>
                            optimizeResourcesDictionary_plan resources options doc
                        | _ => ([], true)
                        end in
            (((if preserveQuality options then [] else [DelKey page "Annots"])
              ++ map (DelKey page) Enhanced.pageEntriesToRemove) ++ rest.1, rest.2))
    as Hplan.
  { unfold optimizePage_plan. unfold pSeq at 1. unfold seqPlan at 1. rewrite Hfirst.
    unfold pResources. rewrite Hpage. cbn [fst snd].
    by destruct (valueAt doc page "Resources") as [[]|]. }
  rewrite Hplan. cbn zeta. cbn [fst snd]. clear Hplan Hfirst.
  split; [|split].
  - destruct (valueAt doc page "Resources") as [[]|] eqn:Hentry; try done.
    apply valueAt_Some in Hentry.
    unfold optimizeResourcesDictionary_plan. rewrite Hlevel.
    destruct (preserveQuality options); simpl; [done|].
    unfold pDel. by rewrite (Hres eq_refl _ Hentry).
  - intros key Hkey. apply elem_of_app. left. apply elem_of_app. right.
    apply list_elem_of_fmap. eauto.
  - intros Hpreserve. rewrite Hpreserve. split.
    + apply elem_of_app. left. apply elem_of_app. left. apply elem_of_cons. by left.
    + intros res Hentry. rewrite (valueAt_ref _ _ _ _ Hentry). apply elem_of_app. right.
      unfold optimizeResourcesDictionary_plan. rewrite Hlevel, Hpreserve. simpl.
      unfold pDel. rewrite (Hres Hpreserve _ Hentry). apply elem_of_cons. by left.
Qed.

(** X5. Enhanced worker at level high, every page ready: in the document
    handed to [save] no page has a readable entry under any of the eleven
    keys of [pageEntriesToRemove]; when quality is not preserved no page has
    a readable Annots entry and no resource dictionary referenced from a
    page has a readable ProcSet entry; and a catalog that resolves to a
    dictionary has neither StructTreeRoot nor OCProperties to read. *)
Theorem high_level_pruning (options : Options) (doc : PDFDocument) :
  compressionLevel options = high ->
  Forall (pageReady options doc) (pages doc) ->
  let final := (enhancedStages options doc).2 in
  (forall page, page ∈ pages doc ->
     (forall key, key ∈ Enhanced.pageEntriesToRemove -> valueAt final page key = None)
     /\ (preserveQuality options = false ->
         valueAt final page "Annots" = None
         /\ forall res, entryAt doc page "Resources" = Some (PDFRef res) ->
              valueAt final res "ProcSet" = None))
  /\ (isDictAt doc (Root (trailerInfo doc)) = true ->
      valueAt final (Root (trailerInfo doc)) "StructTreeRoot" = None
      /\ valueAt final (Root (trailerInfo doc)) "OCProperties" = None).
Proof.
  intros Hlevel Hpages final. subst final.
  rewrite (follows_state _ _ (enhancedStages_follows options)).
  rewrite Forall_forall in Hpages.
  destruct (pEach_ok (pages doc) (optimizePage_plan options) doc) as [_ Hin].
  { intros page Hpage. by apply optimizePage_plan_high, Hpages. }
  assert (forall page e, page ∈ pages doc ->
            e ∈ (optimizePage_plan options page doc).1 ->
            e ∈ (enhancedStages_plan options doc).1) as Hplan.
  { intros page e Hpage He. unfold enhancedStages_plan.
    apply pSeq_incl_r; [done|]. apply pSeq_incl_l. by apply (Hin page). }
  split.
  - intros page Hpage.
    destruct (optimizePage_plan_high options doc page Hlevel (Hpages _ Hpage))
      as (_ & Hkeys & Hquality).
    split.
    + intros key Hkey. apply valueAt_applyEdits_del, (Hplan page); auto.
    + intros Hpreserve. destruct (Hquality Hpreserve) as [Hannots Hprocset]. split.
      * apply valueAt_applyEdits_del, (Hplan page); auto.
      * intros res Hres. apply valueAt_applyEdits_del, (Hplan page); auto.
  - intros Hc.
    assert (forall key, key = "StructTreeRoot" \/ key = "OCProperties" ->
              DelKey (Root (trailerInfo doc)) key ∈ (enhancedStages_plan options doc).1)
      as Hcat.
    { intros key Hkey. unfold enhancedStages_plan.
      do 3 (apply pSeq_incl_r; [done|]).
      unfold optimizeDocumentStructure_plan, pTry, pRead, pSeq, seqPlan, pWhen, pDel, pEmb.
      rewrite Hlevel. simpl. rewrite !Hc. simpl.
      rewrite !elem_of_cons. destruct Hkey as [->| ->]; [by left|right; by left]. }
    split; apply valueAt_applyEdits_del, Hcat; auto.
Qed.

(** An interactive page: annotations, a transition, a transparency group,
    a resource dictionary with a ProcSet, and a tagged catalog. *)
Definition richDocument : PDFDocument :=
  mkPDFDocument
    (<[1%N := PDFDict (<["Type" := PDFName "Catalog"]>
                      (<["Pages" := PDFRef 10]>
                      (<["StructTreeRoot" := PDFRef 8]>
                      (<["OCProperties" := PDFDict ∅]> ∅))))]>
    (<[2%N := PDFDict (<["Type" := PDFName "Page"]>
                      (<["Annots" := PDFArray [PDFRef 7]]>
                      (<["Trans" := PDFDict ∅]>
                      (<["Group" := PDFDict ∅]>
                      (<["Resources" := PDFRef 3]> ∅)))))]>
    (<[3%N := PDFDict (<["ProcSet" := PDFArray [PDFName "PDF"; PDFName "Text"]]>
                      (<["Font" := PDFDict ∅]> ∅))]>
    (<[7%N := PDFDict (<["Subtype" := PDFName "Link"]> ∅)]>
    (<[8%N := PDFDict (<["Type" := PDFName "StructTreeRoot"]> ∅)]>
    (<[10%N := PDFDict (<["Type" := PDFName "Pages"]>
                       (<["Kids" := PDFArray [PDFRef 2]]> ∅))]> ∅))))))
    (mkTrailerInfo 1 None)
    [2%N].

Lemma richDocument_pagesComputed : pagesComputed richDocument.
Proof. by vm_compute. Qed.

Lemma high_level_pruning_witness :
  let options := mkOptions 25 false high in
  let final := (enhancedStages options richDocument).2 in
  compressionLevel options = high
  /\ Forall (pageReady options richDocument) (pages richDocument)
  /\ 2%N ∈ pages richDocument
  /\ "Trans" ∈ Enhanced.pageEntriesToRemove
  /\ preserveQuality options = false
  /\ entryAt richDocument 2 "Resources" = Some (PDFRef 3)
  /\ isDictAt richDocument (Root (trailerInfo richDocument)) = true
  /\ valueAt final 2 "Trans" = None
  /\ valueAt final 2 "Annots" = None
  /\ valueAt final 3 "ProcSet" = None
  /\ valueAt final 1 "StructTreeRoot" = None.
Proof.
  intros options final.
  assert (compressionLevel options = high) as Hlevel by reflexivity.
  assert (Forall (pageReady options richDocument) (pages richDocument)) as Hpages.
  { repeat constructor. intros _ res Hres.
    assert (res = 3%N) as -> by (vm_compute in Hres; congruence).
    vm_compute. reflexivity. }
  assert (2%N ∈ pages richDocument) as Hpage by (apply elem_of_cons; by left).
  assert ("Trans" ∈ Enhanced.pageEntriesToRemove) as Hkey
    by (apply (bool_decide_unpack _); vm_compute; reflexivity).
  assert (preserveQuality options = false) as Hpreserve by reflexivity.
  assert (entryAt richDocument 2 "Resources" = Some (PDFRef 3)) as Hres
    by (vm_compute; reflexivity).
  assert (isDictAt richDocument (Root (trailerInfo richDocument)) = true) as Hc
    by (vm_compute; reflexivity).
  destruct (high_level_pruning options richDocument Hlevel Hpages) as [Hp Hcat].
  destruct (Hp 2%N Hpage) as [Hkeys Hquality].
  destruct (Hquality Hpreserve) as [Hannots Hprocset].
  split; [exact Hlevel|]. split; [exact Hpages|]. split; [exact Hpage|].
  split; [exact Hkey|]. split; [exact Hpreserve|]. split; [exact Hres|].
  split; [exact Hc|]. split; [exact (Hkeys _ Hkey)|]. split; [exact Hannots|].
  split; [exact (Hprocset _ Hres)|]. exact (proj1 (Hcat Hc)).
Defined.


(** ** A Resources reference that does not resolve *)

Lemma forEach_app {S A} (xs ys : list A) (body : A -> M S unit) (s : S) :
  forEach (xs ++ ys) body s
  = match forEach xs body s with
    | (Ok _, s') => forEach ys body s'
    | (Throw e, s') => (Throw e, s')
    end.
Proof.
  revert s. induction xs as [|x xs IH]; intros s; simpl; [done|].
  rewrite !bind_run. destruct (body x s) as [[[]|e] s']; [apply IH|done].
Qed.

Lemma optimizePage_plan_unresolved (options : Options) (doc : PDFDocument) (page res : N) :
  isDictAt doc page = true ->
  entryAt doc page "Resources" = Some (PDFRef res) ->
  isDictAt doc res = false ->
  (optimizePage_plan options page doc).2
  = negb (isHigh (compressionLevel options) && negb (preserveQuality options)).
Proof.
  intros Hpage Hres Hdangling.
  unfold optimizePage_plan. unfold pSeq at 1. unfold seqPlan at 1.
  assert ((pWhen (isHigh (compressionLevel options))
             (pSeq (pWhen (negb (preserveQuality options)) (pDel page "Annots"))
                (pEach Enhanced.pageEntriesToRemove (fun entry => pDel page entry))) doc).2
          = true) as ->.
  { destruct (isHigh (compressionLevel options)); [|done]. cbn [pWhen].
    unfold pSeq, seqPlan. rewrite (pEach_pDel_keys _ _ _ Hpage).
    destruct (preserveQuality options); simpl; [done|]. unfold pDel. by rewrite Hpage. }
  cbn [snd]. unfold pResources. rewrite Hpage, (valueAt_ref _ _ _ _ Hres).
  unfold optimizeResourcesDictionary_plan.
  destruct (isHigh (compressionLevel options) && negb (preserveQuality options)); simpl;
    [|done].
  unfold pDel. by rewrite Hdangling.
Qed.

(** X6. A page whose Resources entry is a reference that does not resolve
    to a dictionary. Unless the level is high and quality is not preserved,
    [optimizePage] never calls a method on the missing object and completes.
    At level high without preserve-quality it throws once it reaches the
    resources, and [optimizeContentStreams] stops there: the stage leaves
    the document as the loop over the pages up to and including this one
    left it, and the pages after it are not visited. *)
Theorem unresolved_resources (options : Options) (doc : PDFDocument) (page res : N) :
  isDictAt doc page = true ->
  entryAt doc page "Resources" = Some (PDFRef res) ->
  isDictAt doc res = false ->
  (isHigh (compressionLevel options) && negb (preserveQuality options) = false ->
   isOk (Enhanced.optimizePage options page doc).1 = true)
  /\ (isHigh (compressionLevel options) && negb (preserveQuality options) = true ->
      isOk (Enhanced.optimizePage options page doc).1 = false
      /\ forall before after,
           pages doc = before ++ page :: after ->
           (Enhanced.optimizeContentStreams options doc).2
           = (forEach (before ++ [page]) (Enhanced.optimizePage options) doc).2).
Proof.
  intros Hpage Hres Hdangling.
  pose proof (optimizePage_plan_unresolved options doc page res Hpage Hres Hdangling)
    as Hplan.
  split; [|intros Hgate; split; revert Hgate].
  - intros Hgate. rewrite (follows_ok _ _ (optimizePage_follows options page)), Hplan.
    by rewrite Hgate.
  - intros Hgate. rewrite (follows_ok _ _ (optimizePage_follows options page)), Hplan.
    by rewrite Hgate.
  - intros Hgate before after Hpages.
    unfold Enhanced.optimizeContentStreams.
    rewrite try_catch_run, bind_run. unfold getPages. rewrite Hpages.
    change (page :: after) with ([page] ++ after).
    rewrite app_assoc, forEach_app.
    destruct (forEach (before ++ [page]) (Enhanced.optimizePage options) doc)
      as [[[]|e] doc1] eqn:Hrun; [|done].
    exfalso. rewrite forEach_app in Hrun.
    pose proof (follows_each before (Enhanced.optimizePage options)
                  (optimizePage_plan options)
                  (fun x _ => optimizePage_follows options x)) as Hbefore.
    pose proof (follows_state _ _ Hbefore doc) as Hstate.
    destruct (forEach before (Enhanced.optimizePage options) doc) as [[[]|e] doc0];
      [|done].
    simpl in Hstate. subst doc0. simpl in Hrun. rewrite bind_run in Hrun.
    pose proof (follows_ok _ _ (optimizePage_follows options page)
                  (applyEdits (pEach before (optimizePage_plan options) doc).1 doc))
      as Hok.
    rewrite (follows_shape _ _ (optimizePage_follows options page) _ doc) in Hok
      by apply sameShape_applyEdits, (follows_safe _ _ Hbefore).
    rewrite Hplan, Hgate in Hok.
    by destruct (Enhanced.optimizePage options page _) as [[[]|e] d].
Qed.

Lemma unresolved_resources_witness :
  let options := mkOptions 25 false high in
  isDictAt danglingDocument 2 = true
  /\ entryAt danglingDocument 2 "Resources" = Some (PDFRef 9)
  /\ isDictAt danglingDocument 9 = false
  /\ isHigh (compressionLevel options) && negb (preserveQuality options) = true
  /\ pages danglingDocument = [] ++ 2%N :: [3%N]
  /\ isOk (Enhanced.optimizePage options 2 danglingDocument).1 = false
  /\ (Enhanced.optimizeContentStreams options danglingDocument).2
     = (forEach ([] ++ [2%N]) (Enhanced.optimizePage options) danglingDocument).2.
Proof.
  intros options.
  assert (isDictAt danglingDocument 2 = true) as Hpage by (vm_compute; reflexivity).
  assert (entryAt danglingDocument 2 "Resources" = Some (PDFRef 9)) as Hres
    by (vm_compute; reflexivity).
  assert (isDictAt danglingDocument 9 = false) as Hdangling by (vm_compute; reflexivity).
  assert (isHigh (compressionLevel options) && negb (preserveQuality options) = true)
    as Hgate by reflexivity.
  assert (pages danglingDocument = [] ++ 2%N :: [3%N]) as Hpages by reflexivity.
  destruct (unresolved_resources options danglingDocument 2 9 Hpage Hres Hdangling)
    as [_ Hthrows].
  destruct (Hthrows Hgate) as [Hfails Hstops].
  split; [exact Hpage|]. split; [exact Hres|]. split; [exact Hdangling|].
  split; [exact Hgate|]. split; [exact Hpages|]. split; [exact Hfails|].
  exact (Hstops [] [3%N] Hpages).
Defined.


(** ** The document-structure stage after the metadata stage *)

Lemma optimizeDocumentStructure_no_names (options : Options) (doc : PDFDocument) :
  compressionLevel options <> high ->
  isDictAt doc (Root (trailerInfo doc)) = true ->
  valueAt doc (Root (trailerInfo doc)) "Names" = None ->
  Enhanced.optimizeDocumentStructure options doc = (Ok tt, doc).
Proof.
  intros Hlevel Hc Hnames.
  assert (isHigh (compressionLevel options) = false) as Hhigh
    by (by destruct (compressionLevel options)).
  apply run_unit_eq; [by rewrite optimizeDocumentStructure_ok|].
  rewrite (follows_state _ _ (optimizeDocumentStructure_follows options)).
  unfold optimizeDocumentStructure_plan, pTry, pRead, pSeq, seqPlan, pWhen, pEmb.
  rewrite Hhigh, Hc. cbn [fst snd app applyEdits foldl].
  unfold isDictAt in Hc. unfold valueAt in Hnames.
  destruct (dictAt doc (Root (trailerInfo doc))) as [d|] eqn:Hd; [|done].
  eapply applyEdit_DelEmbedded_absent; [done|]. simpl in Hnames. congruence.
Qed.

(** X7. In the enhanced worker the embedded-files step of
    [optimizeDocumentStructure] finds nothing to do when the catalog and
    every page resolve to dictionaries: [removeMetadata] has already
    deleted the whole Names entry of the catalog, so that none is read
    there. Below level high the document-structure stage then returns the
    document it was given. *)
Theorem structure_stage_after_metadata (options : Options) (doc : PDFDocument) :
  compressionLevel options <> high ->
  isDictAt doc (Root (trailerInfo doc)) = true ->
  Forall (fun page => isDictAt doc page = true) (pages doc) ->
  let before :=
    (Enhanced.processImages options
       (Enhanced.optimizeContentStreams options (Enhanced.removeMetadata doc).2).2).2 in
  valueAt before (Root (trailerInfo doc)) "Names" = None
  /\ Enhanced.optimizeDocumentStructure options before = (Ok tt, before).
Proof.
  intros Hlevel Hc Hpages before.
  assert (before
          = applyEdits
              (optimizeContentStreams_plan options
                 (applyEdits (removeMetadata_plan doc).1 doc)).1
              (applyEdits (removeMetadata_plan doc).1 doc)) as Hbefore.
  { subst before. rewrite processImages_run. cbn [snd].
    rewrite (follows_state _ _ removeMetadata_follows).
    by rewrite (follows_state _ _ (optimizeContentStreams_follows options)). }
  assert (valueAt before (Root (trailerInfo doc)) "Names" = None) as Hnames.
  { rewrite Hbefore. apply valueAt_applyEdits_None, valueAt_applyEdits_del.
    rewrite (removeMetadata_plan_full doc Hc Hpages).
    rewrite !elem_of_app. right. right. apply list_elem_of_fmap.
    exists "Names". split; [done|]. unfold Enhanced.unnecessaryEntries.
    rewrite !elem_of_cons. right. by left. }
  split; [exact Hnames|].
  assert (Root (trailerInfo before) = Root (trailerInfo doc)) as Hroot
    by (by rewrite Hbefore, !Root_applyEdits).
  apply optimizeDocumentStructure_no_names; [done|..]; rewrite Hroot; [|done].
  rewrite Hbefore. by rewrite !isDictAt_applyEdits.
Qed.

Lemma structure_stage_after_metadata_witness :
  let options := mkOptions 70 true medium in
  let before :=
    (Enhanced.processImages options
       (Enhanced.optimizeContentStreams options
          (Enhanced.removeMetadata sampleDocument).2).2).2 in
  compressionLevel options <> high
  /\ isDictAt sampleDocument (Root (trailerInfo sampleDocument)) = true
  /\ Forall (fun page => isDictAt sampleDocument page = true) (pages sampleDocument)
  /\ is_Some (embeddedFilesAt sampleDocument 1)
  /\ valueAt before 1 "Names" = None
  /\ Enhanced.optimizeDocumentStructure options before = (Ok tt, before).
Proof.
  intros options before.
  assert (compressionLevel options <> high) as Hlevel by (intros H; discriminate H).
  assert (isDictAt sampleDocument (Root (trailerInfo sampleDocument)) = true) as Hc
    by (vm_compute; reflexivity).
  assert (Forall (fun page => isDictAt sampleDocument page = true) (pages sampleDocument))
    as Hpages by (repeat constructor).
  split; [exact Hlevel|]. split; [exact Hc|]. split; [exact Hpages|].
  split; [vm_compute; eexists; reflexivity|].
  exact (structure_stage_after_metadata options sampleDocument Hlevel Hc Hpages).
Defined.


(** ** Range and monotonicity of the downsampling factor *)

Definition levelRank (level : CompressionLevel) : Z :=
  match level with low => 0 | medium => 1 | high => 2 end.

Ltac ltb_cases :=
  repeat match goal with
         | |- context [(?a <? ?b)%Z] => destruct (Z.ltb_spec a b)
         end.

(** X8. Whatever the dimensions, the level and the quality, the factor
    [processImageXObject] arrives at is above a quarter and at most 1; it is 1 only
    at level low with a quality above 80 on an image with no side above
    1000. *)
Theorem downsampleFactor_range (width height : option PDFObject) (options : Options) :
  (0.25 <? Enhanced.downsampleFactor width height options)%float = true
  /\ (Enhanced.downsampleFactor width height options <=? 1)%float = true
  /\ (PrimFloat.eqb (Enhanced.downsampleFactor width height options) 1 = true
      <-> compressionLevel options = low
          /\ (80 < quality options)%Z
          /\ jsGt width 1000 = false /\ jsGt height 1000 = false).
Proof.
  unfold Enhanced.downsampleFactor.
  destruct (compressionLevel options), (jsGt width 1000), (jsGt height 1000);
    cbn [isHigh orb andb]; ltb_cases;
    (split; [by vm_compute|]); (split; [by vm_compute|]);
    (split; [intros Hf; try (by vm_compute in Hf); repeat split; lia
            |intros (Hl & Hq & Hw & Hh); try done; try lia]).
Qed.

(** X9. The factor never grows when the request asks for more compression:
    a level at least as aggressive together with a quality at most as high
    gives a factor at most as large on the same image; and on a fixed
    request, an image at least as large in both dimensions gets a factor at
    most as large. *)
Theorem downsampleFactor_monotone (w h w' h' : Z) (q q' : Z) (pq pq' : bool)
    (level level' : CompressionLevel) :
  ((levelRank level <= levelRank level')%Z -> (q' <= q)%Z ->
   (Enhanced.downsampleFactor (Some (PDFNumber w)) (Some (PDFNumber h))
      (mkOptions q' pq' level')
    <=? Enhanced.downsampleFactor (Some (PDFNumber w)) (Some (PDFNumber h))
          (mkOptions q pq level))%float = true)
  /\ ((w <= w')%Z -> (h <= h')%Z ->
      (Enhanced.downsampleFactor (Some (PDFNumber w')) (Some (PDFNumber h'))
         (mkOptions q pq level)
       <=? Enhanced.downsampleFactor (Some (PDFNumber w)) (Some (PDFNumber h))
             (mkOptions q pq level))%float = true).
Proof.
  unfold Enhanced.downsampleFactor, jsGt. cbn [compressionLevel quality].
  split.
  - intros Hlevel Hq.
    destruct level, level'; cbn [levelRank] in Hlevel; try lia;
      destruct (1000 <? w)%Z, (1000 <? h)%Z; cbn [isHigh orb andb];
      ltb_cases; try lia; by vm_compute.
  - intros Hw Hh.
    destruct level; cbn [isHigh orb andb]; ltb_cases; try lia;
      cbn [orb]; by vm_compute.
Qed.

Lemma downsampleFactor_monotone_witness :
  (levelRank medium <= levelRank high)%Z /\ (25 <= 70)%Z
  /\ (1200 <= 2000)%Z /\ (900 <= 1500)%Z
  /\ (Enhanced.downsampleFactor (Some (PDFNumber 2000)) (Some (PDFNumber 1500))
        (mkOptions 25 false high)
      <=? Enhanced.downsampleFactor (Some (PDFNumber 2000)) (Some (PDFNumber 1500))
            (mkOptions 70 true medium))%float = true
  /\ (Enhanced.downsampleFactor (Some (PDFNumber 2000)) (Some (PDFNumber 1500))
        (mkOptions 70 true medium)
      <=? Enhanced.downsampleFactor (Some (PDFNumber 1200)) (Some (PDFNumber 900))
            (mkOptions 70 true medium))%float = true.
Proof.
  assert (levelRank medium <= levelRank high)%Z as Hlevel by (simpl; lia).
  assert (25 <= 70)%Z as Hq by lia.
  assert (1200 <= 2000)%Z as Hw by lia.
  assert (900 <= 1500)%Z as Hh by lia.
  split; [exact Hlevel|]. split; [exact Hq|]. split; [exact Hw|]. split; [exact Hh|].
  split.
  - exact (proj1 (downsampleFactor_monotone 2000 1500 2000 1500 70 25 true false
                    medium high) Hlevel Hq).
  - exact (proj2 (downsampleFactor_monotone 1200 900 2000 1500 70 70 true true
                    medium medium) Hw Hh).
Defined.


(** * The compression service on the main thread

    [compressPDF] and [createCancelableCompression] of the service module:
    a promise, a worker object and two handlers installed on it. The worker
    object dispatches the messages the worker posted, in order, and error
    events; once [terminate()] has been called on it, it dispatches nothing
    more. [resolve] and [reject] settle a promise that is pending and do
    nothing to a settled one. The calls of the optional [onProgress]
    callback are recorded in order. *)

Module Service.

Record CompressionResult (Bytes : Type) : Type := mkCompressionResult {
  compressedFile : Bytes;
  originalSize : Z;
  compressedSize : Z;
  compressionRatio : Q
}.
Arguments mkCompressionResult {Bytes} compressedFile originalSize compressedSize
  compressionRatio.
Arguments compressedFile {Bytes} c.
Arguments originalSize {Bytes} c.
Arguments compressedSize {Bytes} c.
Arguments compressionRatio {Bytes} c.

Inductive PromiseState (Bytes : Type) : Type :=
| Pending
| Fulfilled (result : CompressionResult Bytes)
| Rejected (message : string).
Arguments Pending {Bytes}.
Arguments Fulfilled {Bytes} result.
Arguments Rejected {Bytes} message.

(** What the worker object dispatches: [onmessage] with [event.data], or
    [onerror] with an error carrying a message. *)
Inductive WorkerEvent (Bytes : Type) : Type :=
| MessageEvent (data : Message Bytes)
| ErrorEvent (message : string).
Arguments MessageEvent {Bytes} data.
Arguments ErrorEvent {Bytes} message.

(** [worker] is the variable of [createCancelableCompression]: [true] while
    it holds the worker, [false] once it is [null]. [compressPDF] holds its
    worker in a constant. *)
Record State (Bytes : Type) : Type := mkState {
  promise : PromiseState Bytes;
  terminated : bool;
  worker : bool;
  progressCalls : list (Z * string)
}.
Arguments mkState {Bytes} promise terminated worker progressCalls.
Arguments promise {Bytes} s.
Arguments terminated {Bytes} s.
Arguments worker {Bytes} s.
Arguments progressCalls {Bytes} s.

Section Handlers.
Context {Bytes : Type}.
(** Whether the caller passed [onProgress]. *)
Variable onProgress : bool.

Definition settle (outcome : PromiseState Bytes) (st : State Bytes) : State Bytes :=
  match promise st with
  | Pending => mkState outcome (terminated st) (worker st) (progressCalls st)
  | _ => st
  end.

Definition resolve (result : CompressionResult Bytes) : State Bytes -> State Bytes :=
  settle (Fulfilled result).

Definition reject (message : string) : State Bytes -> State Bytes :=
  settle (Rejected message).

(** [worker.terminate()] *)
Definition terminate (st : State Bytes) : State Bytes :=
  mkState (promise st) true (worker st) (progressCalls st).

(** [if (onProgress) { onProgress(data.progress, data.message); }] *)
Definition callProgress (progress : Z) (message : string) (st : State Bytes) : State Bytes :=
  if onProgress
  then mkState (promise st) (terminated st) (worker st)
         (progressCalls st ++ [(progress, message)])
  else st.

(** The handlers of [compressPDF]. *)
Definition onmessage (data : Message Bytes) (st : State Bytes) : State Bytes :=
  match data with
  | Progress progress message => callProgress progress message st
  | Complete file original compressed ratio =>
      terminate (resolve (mkCompressionResult file original compressed ratio) st)
  | Error message => terminate (reject message st)
  end.

Definition onerror (message : string) (st : State Bytes) : State Bytes :=
  terminate (reject ("Worker error: " ++ message) st).

Definition handle (e : WorkerEvent Bytes) : State Bytes -> State Bytes :=
  match e with
  | MessageEvent data => onmessage data
  | ErrorEvent message => onerror message
  end.

(** [if (worker) { worker.terminate(); worker = null; }] *)
Definition cleanUp (st : State Bytes) : State Bytes :=
  if worker st then mkState (promise st) true false (progressCalls st) else st.

(** The handlers of [createCancelableCompression]. *)
Definition cancelable_onmessage (data : Message Bytes) (st : State Bytes) : State Bytes :=
  match data with
  | Progress progress message => callProgress progress message st
  | Complete file original compressed ratio =>
      cleanUp (resolve (mkCompressionResult file original compressed ratio) st)
  | Error message => cleanUp (reject message st)
  end.

Definition cancelable_onerror (message : string) (st : State Bytes) : State Bytes :=
  cleanUp (reject ("Worker error: " ++ message) st).

Definition cancelable_handle (e : WorkerEvent Bytes) : State Bytes -> State Bytes :=
  match e with
  | MessageEvent data => cancelable_onmessage data
  | ErrorEvent message => cancelable_onerror message
  end.

Definition cancel : State Bytes -> State Bytes := cleanUp.

(** The worker object: events reach the handler until [terminate()]. *)
Definition deliver (handler : WorkerEvent Bytes -> State Bytes -> State Bytes)
    (e : WorkerEvent Bytes) (st : State Bytes) : State Bytes :=
  if terminated st then st else handler e st.

Definition dispatch (handler : WorkerEvent Bytes -> State Bytes -> State Bytes)
    (events : list (WorkerEvent Bytes)) (st : State Bytes) : State Bytes :=
  foldl (fun st e => deliver handler e st) st events.

(** The state [compressPDF] is in once the worker object has dispatched
    [events]. *)
Definition compressPDF (events : list (WorkerEvent Bytes)) : State Bytes :=
  dispatch handle events (mkState Pending false true []).

(** What happens after [createCancelableCompression] returned: the worker
    object dispatches an event, or the caller calls [cancel]. *)
Inductive Step : Type :=
| Dispatch (e : WorkerEvent Bytes)
| Cancel.

(** The executor of the promise: [worker] was assigned on the line before. *)
Definition executor (st : State Bytes) : State Bytes :=
  if negb (worker st) then reject "Compression was canceled" st else st.

Definition step (st : State Bytes) (s : Step) : State Bytes :=
  match s with
  | Dispatch e => deliver cancelable_handle e st
  | Cancel => cancel st
  end.

Definition createCancelableCompression (steps : list Step) : State Bytes :=
  foldl step (executor (mkState Pending false true [])) steps.

End Handlers.

Definition isProgress {Bytes} (e : WorkerEvent Bytes) : bool :=
  match e with MessageEvent (Progress _ _) => true | _ => false end.

Definition progressCallOf {Bytes} (e : WorkerEvent Bytes) : option (Z * string) :=
  match e with MessageEvent (Progress p m) => Some (p, m) | _ => None end.

End Service.

(** ** One settlement per request *)

Section ServiceFacts.
Context {Bytes : Type}.
Variable onProgress : bool.

Lemma dispatch_app (handler : Service.WorkerEvent Bytes -> _) (xs ys : list _)
    (st : Service.State Bytes) :
  Service.dispatch handler (xs ++ ys) st
  = Service.dispatch handler ys (Service.dispatch handler xs st).
Proof. apply foldl_app. Qed.

Lemma dispatch_terminated (handler : Service.WorkerEvent Bytes -> _) (events : list _)
    (st : Service.State Bytes) :
  Service.terminated st = true -> Service.dispatch handler events st = st.
Proof.
  revert st. induction events as [|e events IH]; intros st Hst; simpl; [done|].
  unfold Service.deliver at 1. rewrite Hst. by apply IH.
Qed.

Lemma dispatch_progress (events : list (Service.WorkerEvent Bytes))
    (calls : list (Z * string)) (w : bool) :
  Forall (fun e => Service.isProgress e = true) events ->
  Service.dispatch (Service.handle onProgress) events
    (Service.mkState Service.Pending false w calls)
  = Service.mkState Service.Pending false w
      (calls ++ if onProgress then omap Service.progressCallOf events else []).
Proof.
  intros Hevents. revert calls.
  induction Hevents as [|e events He _ IH]; intros calls; simpl.
  - by destruct onProgress; rewrite app_nil_r.
  - destruct e as [[p m| |]|]; try done. simpl.
    unfold Service.deliver, Service.callProgress. simpl.
    destruct onProgress; simpl in *; rewrite IH; [|done].
    by rewrite <- app_assoc.
Qed.

Lemma cancelable_progress (events : list (Service.WorkerEvent Bytes))
    (calls : list (Z * string)) :
  Forall (fun e => Service.isProgress e = true) events ->
  foldl (Service.step onProgress) (Service.mkState Service.Pending false true calls)
    (Service.Dispatch <$> events)
  = Service.mkState Service.Pending false true
      (calls ++ if onProgress then omap Service.progressCallOf events else []).
Proof.
  intros Hevents. revert calls.
  induction Hevents as [|e events He _ IH]; intros calls; simpl.
  - by destruct onProgress; rewrite app_nil_r.
  - destruct e as [[p m| |]|]; try done. simpl.
    unfold Service.deliver, Service.callProgress. simpl.
    destruct onProgress; simpl in *; rewrite IH; [|done].
    by rewrite <- app_assoc.
Qed.

Lemma step_terminated (steps : list (Service.Step (Bytes:=Bytes)))
    (st : Service.State Bytes) :
  Service.terminated st = true -> Service.worker st = false ->
  foldl (Service.step onProgress) st steps = st.
Proof.
  revert st. induction steps as [|s steps IH]; intros st Ht Hw; simpl; [done|].
  assert (Service.step onProgress st s = st) as ->; [|by apply IH].
  destruct s as [e|]; simpl.
  - unfold Service.deliver. by rewrite Ht.
  - unfold Service.cancel, Service.cleanUp. by rewrite Hw.
Qed.

(** X10. [compressPDF] settles its promise exactly once, at the first event
    that is not a progress message: a completion message fulfils it with
    the four fields of the message, an error message rejects it with the
    text of the message, an error event rejects it with "Worker error: "
    followed by the event's text. The worker is terminated at that point;
    whatever would be dispatched afterwards changes nothing. Until then the
    promise is pending, and [onProgress], when given, has been called once
    per progress message, in order. *)
Theorem compressPDF_settles_once (before after : list (Service.WorkerEvent Bytes))
    (e : Service.WorkerEvent Bytes) :
  Forall (fun e => Service.isProgress e = true) before ->
  Service.isProgress e = false ->
  let calls := if onProgress then omap Service.progressCallOf before else [] in
  Service.compressPDF onProgress before = Service.mkState Service.Pending false true calls
  /\ Service.compressPDF onProgress (before ++ e :: after)
     = Service.mkState
         match e with
         | Service.MessageEvent (Complete file original compressed ratio) =>
             Service.Fulfilled (Service.mkCompressionResult file original compressed ratio)
         | Service.MessageEvent (Error message) => Service.Rejected message
         | Service.MessageEvent (Progress _ _) => Service.Pending
         | Service.ErrorEvent message => Service.Rejected ("Worker error: " ++ message)
         end true true calls.
Proof.
  intros Hbefore He calls. subst calls. unfold Service.compressPDF.
  pose proof (dispatch_progress before [] true Hbefore) as Hrun. simpl in Hrun.
  split; [exact Hrun|].
  rewrite dispatch_app, Hrun. simpl.
  destruct e as [[p m|file original compressed ratio|message]|message];
    try done; by apply dispatch_terminated.
Qed.

(** X12. Calling [cancel] while the promise of
    [createCancelableCompression] is pending terminates the worker and
    leaves the promise pending for good: no later event or call settles it,
    so it is neither fulfilled nor rejected, and [onProgress] is not called
    again. *)
Theorem cancel_leaves_promise_pending (before : list (Service.WorkerEvent Bytes))
    (after : list (Service.Step (Bytes:=Bytes))) :
  Forall (fun e => Service.isProgress e = true) before ->
  Service.createCancelableCompression onProgress
    ((Service.Dispatch <$> before) ++ Service.Cancel :: after)
  = Service.mkState Service.Pending true false
      (if onProgress then omap Service.progressCallOf before else []).
Proof.
  intros Hbefore. unfold Service.createCancelableCompression, Service.executor.
  cbn [Service.worker negb]. rewrite foldl_app.
  pose proof (cancelable_progress before [] Hbefore) as Hrun. simpl in Hrun.
  rewrite Hrun. simpl. by apply step_terminated.
Qed.

(** X13. As long as [cancel] is not called, [createCancelableCompression]
    and [compressPDF] do the same on every sequence of events: the same
    promise state, the same calls of [onProgress], and the worker is
    terminated in the one exactly when it is in the other. *)
Theorem cancelable_agrees_with_compressPDF (events : list (Service.WorkerEvent Bytes)) :
  let c := Service.createCancelableCompression onProgress (Service.Dispatch <$> events) in
  let p := Service.compressPDF onProgress events in
  Service.promise c = Service.promise p
  /\ Service.terminated c = Service.terminated p
  /\ Service.progressCalls c = Service.progressCalls p
  /\ Service.worker c = negb (Service.terminated p).
Proof.
  unfold Service.createCancelableCompression, Service.compressPDF, Service.executor,
    Service.dispatch.
  cbn [Service.worker negb].
  assert (forall c p : Service.State Bytes,
    Service.promise c = Service.promise p ->
    Service.terminated c = Service.terminated p ->
    Service.progressCalls c = Service.progressCalls p ->
    Service.worker c = negb (Service.terminated p) ->
    let c' := foldl (Service.step onProgress) c (Service.Dispatch <$> events) in
    let p' := foldl (fun st e => Service.deliver (Service.handle onProgress) e st) p events in
    Service.promise c' = Service.promise p'
    /\ Service.terminated c' = Service.terminated p'
    /\ Service.progressCalls c' = Service.progressCalls p'
    /\ Service.worker c' = negb (Service.terminated p')) as Hsim.
  { induction events as [|e events IH]; intros c p Hp Ht Hc Hw; simpl; [done|].
    apply IH; unfold Service.deliver; rewrite Ht;
      destruct c as [cp ct cw cc], p as [pp pt pw pc]; simpl in *; subst;
      destruct pt; try done;
      destruct e as [[progress m|file original compressed ratio|m]|m]; simpl;
      unfold Service.callProgress, Service.cleanUp, Service.terminate, Service.resolve,
        Service.reject, Service.settle; simpl;
      destruct onProgress, pp; done. }
  by apply Hsim.
Qed.
End ServiceFacts.

Lemma compressPDF_settles_once_witness :
  let before := [Service.MessageEvent (Progress 10 "Loading PDF document...");
                 Service.MessageEvent (Progress 20 "Analyzing document structure...")] in
  let e := Service.MessageEvent (@Error unit "Invalid PDF") in
  let after := [Service.MessageEvent (Progress 100 "Compression complete!");
                Service.MessageEvent (Complete tt 10 5 (1 # 2))] in
  Forall (fun e => Service.isProgress e = true) before
  /\ Service.isProgress e = false
  /\ Service.compressPDF true (before ++ e :: after)
     = Service.mkState (Service.Rejected "Invalid PDF") true true
         [(10%Z, "Loading PDF document..."); (20%Z, "Analyzing document structure...")].
Proof.
  intros before e after.
  assert (Forall (fun e => Service.isProgress e = true) before) as Hbefore
    by (repeat constructor).
  assert (Service.isProgress e = false) as He by reflexivity.
  split; [exact Hbefore|]. split; [exact He|].
  exact (proj2 (compressPDF_settles_once true before after e Hbefore He)).
Defined.

Lemma cancel_leaves_promise_pending_witness :
  let before := [Service.MessageEvent (@Progress unit 10 "Loading PDF document...")] in
  let after := [Service.Dispatch (Service.MessageEvent (Complete tt 10 5 (1 # 2)));
                Service.Cancel] in
  Forall (fun e => Service.isProgress e = true) before
  /\ Service.createCancelableCompression true
       ((Service.Dispatch <$> before) ++ Service.Cancel :: after)
     = Service.mkState Service.Pending true false [(10%Z, "Loading PDF document...")].
Proof.
  intros before after.
  assert (Forall (fun e => Service.isProgress e = true) before) as Hbefore
    by (repeat constructor).
  split; [exact Hbefore|].
  exact (cancel_leaves_promise_pending true before after Hbefore).
Defined.


(** ** The service driven by a worker *)

Lemma errorText_nonempty (e : JSError) : errorText e <> "".
Proof.
  unfold errorText. destruct (bool_decide (error_message e = "")) eqn:He; [done|].
  by apply bool_decide_eq_false in He.
Qed.

(** What the caller of [compressPDF] finds after a request on [file]. *)
Definition settledFor {Bytes} (byteLength : Bytes -> Z) (file : Bytes)
    (st : Service.State Bytes) : Prop :=
  Service.terminated st = true
  /\ match Service.promise st with
     | Service.Pending => False
     | Service.Fulfilled r =>
         Service.originalSize r = byteLength file
         /\ Service.compressedSize r = byteLength (Service.compressedFile r)
         /\ Service.compressionRatio r
            = compressionRatioOf (byteLength file) (byteLength (Service.compressedFile r))
     | Service.Rejected message => message <> ""
     end.

Definition progressPairOf {Bytes} (m : Message Bytes) : option (Z * string) :=
  match m with Progress p text => Some (p, text) | _ => None end.

Ltac solve_settled :=
  unfold settledFor, Service.compressPDF, Service.dispatch; cbn;
  unfold Service.deliver, Service.callProgress; cbn;
  repeat split; auto using errorText_nonempty.

Section ServiceWorker.
Context {Bytes : Type}.
Variable builtName : string -> string.
Variable byteLength : Bytes -> Z.
Variable load : Bytes -> Result PDFContext.
Variable save : PDFDocument -> SaveOptions -> Result Bytes.
Variable onProgress : bool.

(** X11. [compressPDF] driven by the outbox of any of the three workers
    always ends settled, with the worker terminated: the promise is never
    left pending. When fulfilled, the result carries the byte length of the
    input, the byte length of the output it carries, and their ratio; when
    rejected, the message is not empty. [onProgress] was called once for
    each progress message of the outbox, in order. *)
Theorem service_always_settles (file : Bytes) (options : Options) :
  let served (outbox : list (Message Bytes)) :=
    let st := Service.compressPDF onProgress (Service.MessageEvent <$> outbox) in
    settledFor byteLength file st
    /\ Service.progressCalls st
       = if onProgress then omap progressPairOf outbox else [] in
  served (Basic.onmessage builtName byteLength load save file options)
  /\ served (Enhanced.onmessage builtName byteLength load save file options)
  /\ served (Inline.onmessage builtName byteLength load save file options).
Proof.
  intros served. subst served. cbv beta.
  rewrite Enhanced_onmessage_run, Basic_onmessage_run, Inline_onmessage_run.
  destruct (load file) as [ctx|e0]; [destruct (getPageCount builtName ctx) as [doc|e]|].
  - split; [|split].
    + destruct (when_ _ Basic.removeMetadata doc) as [[[]|e4] doc1];
        [|destruct onProgress; solve_settled].
      destruct (Basic.removeUnnecessaryObjects options doc1) as [[[]|e5] doc2];
        [|destruct (isHigh (compressionLevel options)), onProgress; solve_settled].
      destruct (save doc2 _) as [b2|e2];
        destruct (isHigh (compressionLevel options)), onProgress; solve_settled.
    + destruct (save (enhancedStages options doc).2 _) as [b1|e1];
        destruct onProgress; solve_settled.
    + destruct (save doc Inline.saveOptions) as [b3|e3];
        destruct onProgress; solve_settled.
  - split; [|split]; destruct onProgress; solve_settled.
  - split; [|split]; destruct onProgress; solve_settled.
Qed.
End ServiceWorker.



(** * Strings built by the application

    Strings are sequences of bytes here; a JavaScript string is a sequence of
    UTF-16 code units. The patterns searched for below are ASCII, and in
    UTF-8 an ASCII byte never lies inside the encoding of another
    character, so searching the bytes finds the same occurrences. *)

(** [Some rest] when [s] is [p] followed by [rest]. *)
Fixpoint dropPrefix (p s : string) : option string :=
  match p, s with
  | EmptyString, _ => Some s
  | String a p', String b s' => if Ascii.eqb a b then dropPrefix p' s' else None
  | String _ _, EmptyString => None
  end.

(** [s.includes(searchString)] *)
Fixpoint includes (searchString s : string) : bool :=
  match dropPrefix searchString s with
  | Some _ => true
  | None =>
      match s with
      | EmptyString => false
      | String _ s' => includes searchString s'
      end
  end.

(** [s.replace(searchValue, replaceValue)] with a string pattern: the first
    occurrence, from the left, is replaced; without one the string is
    returned as it is. ([replaceValue] holds no [$] below.) *)
Fixpoint replaceFirst (searchValue replaceValue s : string) : string :=
  match dropPrefix searchValue s with
  | Some rest => replaceValue +:+ rest
  | None =>
      match s with
      | EmptyString => EmptyString
      | String c s' => String c (replaceFirst searchValue replaceValue s')
      end
  end.

(** The name [downloadCompressedPDF] passes to [saveAs]. *)
Definition downloadName (name : string) : string :=
  replaceFirst ".pdf" "-compressed.pdf" name.

(** [s.replace(/\/\/+/g, '/')]: every run of two or more slashes becomes
    one slash. *)
Fixpoint collapseSlashes (s : string) : string :=
  match s with
  | EmptyString => EmptyString
  | String c rest =>
      if Ascii.eqb c "/"%char
      then match rest with
           | String c' _ =>
               if Ascii.eqb c' "/"%char then collapseSlashes rest
               else String c (collapseSlashes rest)
           | EmptyString => String c EmptyString
           end
      else String c (collapseSlashes rest)
  end.

(** The URL [createWorker] opens the worker at; [publicUrl] is
    [process.env.PUBLIC_URL]. *)
Definition workerUrl (publicUrl : option string) (workerPath : string) : string :=
  let urlPrefix := match publicUrl with Some u => u | None => "" end in
  collapseSlashes (urlPrefix +:+ "/" +:+ workerPath).

Lemma replaceFirst_absent (searchValue replaceValue s : string) :
  includes searchValue s = false -> replaceFirst searchValue replaceValue s = s.
Proof.
  induction s as [|c s IH]; cbn [includes replaceFirst].
  - by destruct (dropPrefix searchValue EmptyString).
  - destruct (dropPrefix searchValue (String c s)); [done|].
    intros H. by rewrite IH.
Qed.

Lemma append_cons (c : ascii) (s t : string) : String c s +:+ t = String c (s +:+ t).
Proof. reflexivity. Qed.

Lemma dropPrefix_pdf_stem (stem rest : string) :
  dropPrefix ".pdf" stem = None -> stem <> "" ->
  dropPrefix ".pdf" (stem +:+ ".pdf" +:+ rest) = None.
Proof.
  intros H Hne.
  destruct stem as [|c1 stem]; [done|]. rewrite append_cons; cbn [dropPrefix] in *.
  destruct (Ascii.eqb "."%char c1) eqn:E1; [|done].
  destruct stem as [|c2 stem]; [done|]. rewrite append_cons; cbn [dropPrefix] in *.
  destruct (Ascii.eqb "p"%char c2) eqn:E2; [|done].
  destruct stem as [|c3 stem]; [done|]. rewrite append_cons; cbn [dropPrefix] in *.
  destruct (Ascii.eqb "d"%char c3) eqn:E3; [|done].
  destruct stem as [|c4 stem]; [done|]. rewrite append_cons; cbn [dropPrefix] in *.
  by destruct (Ascii.eqb "f"%char c4) eqn:E4.
Qed.

(** X18. The download name. When ".pdf" does not occur in the name of the
    file (as in "REPORT.PDF"), the compressed file is saved under the
    unchanged name. Otherwise the first occurrence, and only it, is
    replaced by "-compressed.pdf": what follows it is kept as it is, also
    when it holds the actual extension. *)
Theorem download_name (name : string) :
  (includes ".pdf" name = false -> downloadName name = name)
  /\ (forall stem rest,
        name = stem +:+ ".pdf" +:+ rest ->
        includes ".pdf" stem = false ->
        downloadName name = stem +:+ "-compressed.pdf" +:+ rest).
Proof.
  split; [apply replaceFirst_absent|].
  intros stem rest -> Hstem. unfold downloadName.
  induction stem as [|c stem IH]; [done|].
  cbn [includes] in Hstem.
  destruct (dropPrefix ".pdf" (String c stem)) eqn:Hhere; [done|].
  rename Hstem into Htail.
  pose proof (dropPrefix_pdf_stem (String c stem) rest Hhere ltac:(done)) as Hnone.
  change (replaceFirst ".pdf" "-compressed.pdf" (String c stem +:+ ".pdf" +:+ rest))
    with (match dropPrefix ".pdf" (String c stem +:+ ".pdf" +:+ rest) with
          | Some r => "-compressed.pdf" +:+ r
          | None => String c (replaceFirst ".pdf" "-compressed.pdf"
                                (stem +:+ ".pdf" +:+ rest))
          end).
  rewrite Hnone, (IH Htail). done.
Qed.

Lemma download_name_witness :
  includes ".pdf" "REPORT.PDF" = false
  /\ downloadName "REPORT.PDF" = "REPORT.PDF"
  /\ "scan.v2.pdf.bak" = "scan.v2" +:+ ".pdf" +:+ ".bak"
  /\ includes ".pdf" "scan.v2" = false
  /\ downloadName "scan.v2.pdf.bak" = "scan.v2" +:+ "-compressed.pdf" +:+ ".bak".
Proof.
  assert (includes ".pdf" "REPORT.PDF" = false) as Habsent by reflexivity.
  assert ("scan.v2.pdf.bak" = "scan.v2" +:+ ".pdf" +:+ ".bak") as Hname by reflexivity.
  assert (includes ".pdf" "scan.v2" = false) as Hstem by reflexivity.
  split; [exact Habsent|].
  split; [exact (proj1 (download_name "REPORT.PDF") Habsent)|].
  split; [exact Hname|]. split; [exact Hstem|].
  exact (proj2 (download_name "scan.v2.pdf.bak") "scan.v2" ".bak" Hname Hstem).
Defined.

(** ** The URL of the worker *)

Definition startsWithSlash (s : string) : bool :=
  match s with String c _ => Ascii.eqb c "/"%char | EmptyString => false end.

Lemma includes_slashes (c : ascii) (s : string) :
  includes "//" (String c s)
  = (Ascii.eqb c "/"%char && startsWithSlash s) || includes "//" s.
Proof.
  cbn [includes dropPrefix]. rewrite (Ascii.eqb_sym "/"%char c).
  destruct (Ascii.eqb c "/"%char); [|done].
  destruct s as [|c' s]; [done|]. cbn [startsWithSlash].
  rewrite (Ascii.eqb_sym "/"%char c'). by destruct (Ascii.eqb c' "/"%char).
Qed.

Lemma includes_false_dropPrefix (p s : string) :
  includes p s = false -> dropPrefix p s = None.
Proof. destruct s; cbn [includes]; by destruct (dropPrefix p _). Qed.

Lemma collapseSlashes_start (s : string) :
  startsWithSlash (collapseSlashes s) = startsWithSlash s.
Proof.
  induction s as [|c s IH]; [done|]. cbn [collapseSlashes].
  destruct (Ascii.eqb c "/"%char) eqn:Hc; cbn [startsWithSlash]; [|done].
  destruct s as [|c' s]; [by cbn; rewrite Hc|].
  destruct (Ascii.eqb c' "/"%char) eqn:Hc'.
  - rewrite IH. cbn. by rewrite Hc, Hc'.
  - cbn. by rewrite !Hc.
Qed.

Lemma collapseSlashes_single (s : string) : includes "//" (collapseSlashes s) = false.
Proof.
  induction s as [|c s IH]; [done|]. cbn [collapseSlashes].
  destruct (Ascii.eqb c "/"%char) eqn:Hc.
  - destruct s as [|c' s]; [by rewrite includes_slashes, Hc|].
    destruct (Ascii.eqb c' "/"%char) eqn:Hc'; [done|].
    rewrite includes_slashes, IH, collapseSlashes_start. cbn [startsWithSlash].
    by rewrite Hc, Hc'.
  - by rewrite includes_slashes, IH, Hc.
Qed.

Lemma collapseSlashes_fixed (s : string) :
  includes "//" s = false -> collapseSlashes s = s.
Proof.
  induction s as [|c s IH]; [done|]. rewrite includes_slashes. cbn [collapseSlashes].
  intros [Hhere Htail]%orb_false_elim.
  destruct (Ascii.eqb c "/"%char) eqn:Hc; [|by rewrite IH].
  destruct s as [|c' s]; [done|]. cbn [startsWithSlash andb] in Hhere.
  rewrite Hhere. by rewrite IH.
Qed.

(** The characters of a string other than the slash, in order. *)
Fixpoint withoutSlashes (s : string) : string :=
  match s with
  | EmptyString => EmptyString
  | String c rest =>
      if Ascii.eqb c "/"%char then withoutSlashes rest else String c (withoutSlashes rest)
  end.

Lemma collapseSlashes_keeps (s : string) :
  withoutSlashes (collapseSlashes s) = withoutSlashes s.
Proof.
  induction s as [|c s IH]; [done|]. cbn [collapseSlashes withoutSlashes].
  destruct (Ascii.eqb c "/"%char) eqn:Hc.
  - destruct s as [|c' s]; [by cbn; rewrite Hc|].
    destruct (Ascii.eqb c' "/"%char) eqn:Hc'; [done|].
    cbn [withoutSlashes]. by rewrite Hc.
  - cbn [withoutSlashes]. by rewrite Hc, IH.
Qed.

(** X19. The URL [createWorker] builds never contains two slashes in a
    row, whatever the public URL and the worker path: a public URL with a
    scheme and a host loses the double slash after its scheme. Only slashes
    are removed; a concatenation that has no double slash is used as it
    is, and without a public URL the result begins with a slash. *)
Theorem workerUrl_single_slashes (publicUrl : option string) (workerPath : string) :
  let urlPrefix := match publicUrl with Some u => u | None => "" end in
  includes "//" (workerUrl publicUrl workerPath) = false
  /\ includes "://" (workerUrl publicUrl workerPath) = false
  /\ withoutSlashes (workerUrl publicUrl workerPath)
     = withoutSlashes (urlPrefix +:+ "/" +:+ workerPath)
  /\ (includes "//" (urlPrefix +:+ "/" +:+ workerPath) = false ->
      workerUrl publicUrl workerPath = urlPrefix +:+ "/" +:+ workerPath)
  /\ (publicUrl = None -> startsWithSlash (workerUrl publicUrl workerPath) = true).
Proof.
  intros urlPrefix. unfold workerUrl. fold urlPrefix.
  split; [apply collapseSlashes_single|].
  split.
  { pose proof (collapseSlashes_single (urlPrefix +:+ "/" +:+ workerPath)) as Hsingle.
    induction (collapseSlashes (urlPrefix +:+ "/" +:+ workerPath)) as [|c s IH]; [done|].
    rewrite includes_slashes in Hsingle.
    apply orb_false_elim in Hsingle as [Hhere Htail].
    cbn [includes]. rewrite (IH Htail).
    change (dropPrefix "://" (String c s))
      with (if Ascii.eqb ":"%char c then dropPrefix "//" s else None).
    rewrite (includes_false_dropPrefix _ _ Htail).
    by destruct (Ascii.eqb ":"%char c). }
  split; [apply collapseSlashes_keeps|].
  split; [apply collapseSlashes_fixed|].
  intros ->. subst urlPrefix. by rewrite collapseSlashes_start.
Qed.

Lemma workerUrl_single_slashes_witness :
  includes "//" ("/app" +:+ "/" +:+ "pdfCompression.worker.js") = false
  /\ workerUrl (Some "/app") "pdfCompression.worker.js" = "/app/pdfCompression.worker.js"
  /\ workerUrl None "/pdfCompression.worker.js" = "/pdfCompression.worker.js"
  /\ workerUrl (Some "https://cdn.example.com/") "workers/w.js"
     = "https:/cdn.example.com/workers/w.js".
Proof.
  assert (includes "//" ("/app" +:+ "/" +:+ "pdfCompression.worker.js") = false) as Hclean
    by reflexivity.
  split; [exact Hclean|].
  split; [exact (proj1 (proj2 (proj2 (proj2
            (workerUrl_single_slashes (Some "/app") "pdfCompression.worker.js")))) Hclean)|].
  split; reflexivity.
Defined.


(** * The command line of [deploy.js] *)

Module Deploy.

Record DeployOptions : Type := mkDeployOptions {
  port : Z;
  host : string;
  open : bool
}.

Definition defaults : DeployOptions := mkDeployOptions 8080 "localhost" true.

(** The loop either runs to its end or leaves the process at [--help]. *)
Inductive Outcome : Type :=
| Parsed (options : DeployOptions)
| HelpShown.

Section Args.
(** [parseInt(s, 10)]; [None] stands for [NaN]. *)
Variable parseInt : string -> option Z.

(** [parseInt(args[++i], 10) || options.port]: [NaN] and [0] are falsy, and
    so is what [parseInt] makes of the [undefined] read past the end. *)
Definition portOr (value : option string) (current : Z) : Z :=
  match value ≫= parseInt with
  | Some n => if (n =? 0)%Z then current else n
  | None => current
  end.

(** [args[++i] || options.host] *)
Definition hostOr (value : option string) (current : string) : string :=
  match value with
  | Some v => if bool_decide (v = "") then current else v
  | None => current
  end.

(** [args[++i] !== 'false'] *)
Definition openFrom (value : option string) : bool :=
  match value with
  | Some v => negb (bool_decide (v = "false"))
  | None => true
  end.

Definition isFlag (arg : string) : bool :=
  bool_decide (arg ∈ ["--port"; "-p"; "--host"; "-h"; "--open"; "-o"; "--help"]).

(** The loop over [args]: a flag takes the next argument as its value,
    whatever that argument is, and the loop goes on after it. *)
Fixpoint parseArgs (args : list string) (options : DeployOptions) : Outcome :=
  match args with
  | [] => Parsed options
  | arg :: rest =>
      if bool_decide (arg = "--port") || bool_decide (arg = "-p")
      then let options' :=
             mkDeployOptions (portOr (head rest) (port options)) (host options)
               (open options) in
           match rest with
           | _ :: rest' => parseArgs rest' options'
           | [] => Parsed options'
           end
      else if bool_decide (arg = "--host") || bool_decide (arg = "-h")
      then let options' :=
             mkDeployOptions (port options) (hostOr (head rest) (host options))
               (open options) in
           match rest with
           | _ :: rest' => parseArgs rest' options'
           | [] => Parsed options'
           end
      else if bool_decide (arg = "--open") || bool_decide (arg = "-o")
      then let options' :=
             mkDeployOptions (port options) (host options) (openFrom (head rest)) in
           match rest with
           | _ :: rest' => parseArgs rest' options'
           | [] => Parsed options'
           end
      else if bool_decide (arg = "--help") then HelpShown
      else parseArgs rest options
  end.

(** The host shown in the URL the script prints and opens. *)
Definition shownHost (options : DeployOptions) : string :=
  if bool_decide (host options = "0.0.0.0") then "localhost" else host options.

End Args.
End Deploy.

Section DeployFacts.
Variable parseInt : string -> option Z.

(** What the loop keeps true of the options. *)
Definition fromArgs (args : list string) (initial result : Deploy.DeployOptions) : Prop :=
  (Deploy.port initial <> 0%Z -> Deploy.port result <> 0%Z)
  /\ (Deploy.host initial <> "" -> Deploy.host result <> "")
  /\ (Deploy.port result = Deploy.port initial
      \/ exists v, v ∈ args /\ parseInt v = Some (Deploy.port result))
  /\ (Deploy.host result = Deploy.host initial \/ Deploy.host result ∈ args)
  /\ (Deploy.open result = Deploy.open initial
      \/ Deploy.open result = true
      \/ "false" ∈ args).

Lemma fromArgs_refl (args : list string) (options : Deploy.DeployOptions) :
  fromArgs args options options.
Proof. unfold fromArgs. naive_solver. Qed.

Lemma fromArgs_step (args rest : list string) (a b c : Deploy.DeployOptions) :
  (forall v, v ∈ rest -> v ∈ args) ->
  fromArgs args a b -> fromArgs rest b c -> fromArgs args a c.
Proof.
  intros Hsub (Hp1 & Hh1 & Hpv1 & Hhv1 & Ho1) (Hp2 & Hh2 & Hpv2 & Hhv2 & Ho2).
  unfold fromArgs. split; [auto|]. split; [auto|]. split; [|split].
  - destruct Hpv2 as [->|(v & Hv & Hparse)]; [done|]. right. exists v. auto.
  - destruct Hhv2 as [->|Hv]; [done|]. right. auto.
  - destruct Ho2 as [->|[->|Hf]]; [done|by right; left|]. right. right. auto.
Qed.

Lemma fromArgs_portOr (args : list string) (value : option string)
    (options : Deploy.DeployOptions) :
  (forall v, value = Some v -> v ∈ args) ->
  fromArgs args options
    (Deploy.mkDeployOptions (Deploy.portOr parseInt value (Deploy.port options))
       (Deploy.host options) (Deploy.open options)).
Proof.
  intros Hin. unfold fromArgs, Deploy.portOr. simpl.
  destruct value as [v|]; simpl; [|naive_solver].
  destruct (parseInt v) as [n|] eqn:Hparse; [|naive_solver].
  destruct (Z.eqb_spec n 0); [naive_solver|].
  split; [done|]. split; [done|]. split; [|naive_solver].
  right. exists v. split; [by apply Hin|done].
Qed.

Lemma fromArgs_hostOr (args : list string) (value : option string)
    (options : Deploy.DeployOptions) :
  (forall v, value = Some v -> v ∈ args) ->
  fromArgs args options
    (Deploy.mkDeployOptions (Deploy.port options)
       (Deploy.hostOr value (Deploy.host options)) (Deploy.open options)).
Proof.
  intros Hin. unfold fromArgs, Deploy.hostOr. simpl.
  destruct value as [v|]; simpl; [|naive_solver].
  destruct (decide (v = "")) as [->|Hv].
  - rewrite bool_decide_eq_true_2 by done. naive_solver.
  - rewrite bool_decide_eq_false_2 by done. naive_solver.
Qed.

Lemma fromArgs_openFrom (args : list string) (value : option string)
    (options : Deploy.DeployOptions) :
  (forall v, value = Some v -> v ∈ args) ->
  fromArgs args options
    (Deploy.mkDeployOptions (Deploy.port options) (Deploy.host options)
       (Deploy.openFrom value)).
Proof.
  intros Hin. unfold fromArgs, Deploy.openFrom. simpl.
  destruct value as [v|]; simpl; [|naive_solver].
  destruct (decide (v = "false")) as [->|Hv].
  - rewrite bool_decide_eq_true_2 by done. naive_solver.
  - rewrite bool_decide_eq_false_2 by done. naive_solver.
Qed.

Lemma parseArgs_fromArgs (n : nat) (args : list string) (options result : Deploy.DeployOptions) :
  (length args <= n)%nat ->
  Deploy.parseArgs parseInt args options = Deploy.Parsed result ->
  fromArgs args options result.
Proof.
  revert args options. induction n as [|n IH]; intros args options Hlen.
  { destruct args; simpl in Hlen; [|lia]. simpl. intros [= <-]. apply fromArgs_refl. }
  destruct args as [|arg rest]; [simpl; intros [= <-]; apply fromArgs_refl|].
  simpl in Hlen. cbn [Deploy.parseArgs].
  assert (forall value : option string, forall v, head rest = Some v -> v ∈ arg :: rest)
    as Hhead.
  { intros _ v Hv. destruct rest; simplify_eq/=. set_solver. }
  assert (forall options' : Deploy.DeployOptions,
            fromArgs (arg :: rest) options options' ->
            match rest with
            | _ :: rest' => Deploy.parseArgs parseInt rest' options'
            | [] => Deploy.Parsed options'
            end = Deploy.Parsed result ->
            fromArgs (arg :: rest) options result) as Hvalue.
  { intros options' Hfirst Hrun. destruct rest as [|v rest'].
    - by injection Hrun as <-.
    - apply (fromArgs_step _ rest' _ options'); [set_solver|done|].
      apply IH; [simpl in Hlen; lia|done]. }
  destruct (bool_decide (arg = "--port") || bool_decide (arg = "-p")).
  { apply Hvalue, fromArgs_portOr, (Hhead None). }
  destruct (bool_decide (arg = "--host") || bool_decide (arg = "-h")).
  { apply Hvalue, fromArgs_hostOr, (Hhead None). }
  destruct (bool_decide (arg = "--open") || bool_decide (arg = "-o")).
  { apply Hvalue, fromArgs_openFrom, (Hhead None). }
  destruct (bool_decide (arg = "--help")); [done|].
  intros Hrun. apply (fromArgs_step _ rest _ options); [set_solver|apply fromArgs_refl|].
  apply IH; [lia|done].
Qed.

(** X20. Whatever the arguments, when the loop of [deploy.js] runs to its
    end the port is not 0 and the host is not empty; a port other than
    8080 is what [parseInt] made of one of the arguments, a host other than
    "localhost" is one of the arguments, and the browser is left closed
    only if the literal "false" is among the arguments. Arguments none of
    which is a flag leave the defaults as they are. *)
Theorem deploy_arguments (args : list string) (result : Deploy.DeployOptions) :
  (Deploy.parseArgs parseInt args Deploy.defaults = Deploy.Parsed result ->
   Deploy.port result <> 0%Z
   /\ Deploy.host result <> ""
   /\ (Deploy.port result = 8080%Z
       \/ exists v, v ∈ args /\ parseInt v = Some (Deploy.port result))
   /\ (Deploy.host result = "localhost" \/ Deploy.host result ∈ args)
   /\ (Deploy.open result = true \/ "false" ∈ args))
  /\ (Forall (fun arg => Deploy.isFlag arg = false) args ->
      Deploy.parseArgs parseInt args Deploy.defaults = Deploy.Parsed Deploy.defaults).
Proof.
  split.
  - intros Hrun.
    destruct (parseArgs_fromArgs (length args) args _ _ (le_n _) Hrun)
      as (Hp & Hh & Hpv & Hhv & Ho).
    split; [by apply Hp|]. split; [by apply Hh|]. split; [exact Hpv|].
    split; [exact Hhv|].
    destruct Ho as [Ho|[Ho|Ho]]; [left; exact Ho|left; exact Ho|right; exact Ho].
  - generalize Deploy.defaults.
    induction args as [|arg rest IH]; intros options Hargs; [done|].
    inversion Hargs as [|?? Harg Hrest]; subst. cbn [Deploy.parseArgs].
    unfold Deploy.isFlag in Harg. apply bool_decide_eq_false in Harg.
    rewrite !bool_decide_eq_false_2 by (intros ->; apply Harg; set_solver).
    cbn [orb]. by apply IH.
Qed.

End DeployFacts.

Lemma deploy_arguments_witness :
  let parseInt := fun s : string => if bool_decide (s = "3000") then Some 3000%Z else None in
  let args := ["--port"; "--help"; "-h"; "0.0.0.0"; "-p"; "3000"; "--open"] in
  let result := Deploy.mkDeployOptions 3000 "0.0.0.0" true in
  Deploy.parseArgs parseInt args Deploy.defaults = Deploy.Parsed result
  /\ Deploy.port result <> 0%Z
  /\ Deploy.host result ∈ args
  /\ Forall (fun arg => Deploy.isFlag arg = false) ["build"; "3000"]
  /\ Deploy.parseArgs parseInt ["build"; "3000"] Deploy.defaults
     = Deploy.Parsed Deploy.defaults.
Proof.
  intros parseInt args result.
  assert (Deploy.parseArgs parseInt args Deploy.defaults = Deploy.Parsed result) as Hrun
    by reflexivity.
  assert (Forall (fun arg => Deploy.isFlag arg = false) ["build"; "3000"]) as Hplain
    by (repeat constructor).
  destruct (proj1 (deploy_arguments parseInt args result) Hrun)
    as (Hport & Hhost & Hpv & [Hdefault|Hhv] & Ho); [discriminate Hdefault|].
  split; [exact Hrun|]. split; [exact Hport|]. split; [exact Hhv|].
  split; [exact Hplain|].
  exact (proj2 (deploy_arguments parseInt ["build"; "3000"] Deploy.defaults) Hplain).
Defined.

